(** * scedar / scxplit.eda : sample matrices, distance-matrix correction and
      labelled sample indices

    A shallow embedding of [src/scxplit/eda.py].

    - float64 matrices are [ndarray]s (a shape and row-major data) living in
      a store of array objects, because [num_correct_dist_mat] assigns into
      the array it is handed;
    - identifier and label arrays are immutable lists of [ident], made from
      Python lists by [np_array_ids], which follows [np.array] on a 64-bit
      platform: strings lose trailing NUL characters, and integers that fit
      no single 64-bit integer type become float64 values;
    - Python exceptions are the [Raise] branch of [result];
    - the [numpy] / [sklearn] routines the module calls but does not define
      ([np.array(.., dtype="float64")], [assert_allclose],
      [pairwise_distances]) are the fields of the class [NumLib], so every
      result holds whatever these routines compute;
    - the palette [sns.hls_palette] is a parameter of [labs_to_cmap], and a
      [ListedColormap] is the colour list it is made from. *)

From Stdlib Require Import ZArith List Floats.
From Stdlib Require Import Strings.String Strings.Ascii.
From stdpp Require Import base option list gmap strings sorting.

Local Open Scope string_scope.
Local Open Scope nat_scope.
Local Open Scope list_scope.

(** ** Python values, exceptions and the store *)

Inductive exn :=
| ValueError (msg : string)
| TypeError (msg : string)
| KeyError
| IndexError
| AssertionError.

Inductive result (A : Type) :=
| OK (a : A)
| Raise (e : exn).
Arguments OK {A} a.
Arguments Raise {A} e.

Definition loc := nat.

(** A float64 [np.ndarray]: its [shape] and its elements in row-major order. *)
Record ndarray := NdArray { shape : list nat; data : list float }.

Definition ndim (a : ndarray) : nat := length (shape a).
Definition size (a : ndarray) : nat := foldr Nat.mul 1 (shape a).
Definition shape0 (a : ndarray) : nat := nth 0 (shape a) 0.
Definition shape1 (a : ndarray) : nat := nth 1 (shape a) 0.

(** The data of an array fills its shape. *)
Definition wf_ndarray (a : ndarray) : Prop := length (data a) = size a.

#[warnings="-register-all"]
Inductive pyobj :=
| PyNone
| PyBool (b : bool)
| PyInt (z : Z)
| PyFloat (f : float)
| PyStr (s : string)
| PyList (l : list pyobj)
| PyTuple (l : list pyobj)
| PyArr (l : loc).

Inductive pytype := TNone | TBool | TInt | TFloat | TStr | TList | TTuple | TNdarray.

#[global] Instance pytype_eq_dec : EqDecision pytype.
Proof. solve_decision. Defined.

Definition type_of (v : pyobj) : pytype :=
  match v with
  | PyNone => TNone
  | PyBool _ => TBool
  | PyInt _ => TInt
  | PyFloat _ => TFloat
  | PyStr _ => TStr
  | PyList _ => TList
  | PyTuple _ => TTuple
  | PyArr _ => TNdarray
  end.

(** The interpreter state the module touches: the array objects and the
    warnings issued so far (most recent first). *)
Record state := State { heap : list ndarray; warnings : list string }.

Definition M (A : Type) : Type := state → result A * state.

#[global] Instance M_ret : MRet M := λ A a σ, (OK a, σ).
#[global] Instance M_bind : MBind M := λ A B f m σ,
  match m σ with
  | (OK a, σ') => f a σ'
  | (Raise e, σ') => (Raise e, σ')
  end.

#[global] Instance result_ret : MRet result := λ A a, OK a.
#[global] Instance result_bind : MBind result := λ A B f m,
  match m with
  | OK a => f a
  | Raise e => Raise e
  end.

Fixpoint traverse {A B} (f : A → result B) (l : list A) : result (list B) :=
  match l with
  | [] => OK []
  | x :: l' => y ← f x; ys ← traverse f l'; OK (y :: ys)
  end.

Definition raise {A} (e : exn) : M A := λ σ, (Raise e, σ).
Definition lift {A} (r : result A) : M A := λ σ, (r, σ).
Definition warn (msg : string) : M unit :=
  λ σ, (OK (), State (heap σ) (msg :: warnings σ)).
Definition alloc (a : ndarray) : M loc :=
  λ σ, (OK (length (heap σ)), State (heap σ ++ [a]) (warnings σ)).
Definition get_heap : M (list ndarray) := λ σ, (OK (heap σ), σ).
(** [isinstance(v, np.ndarray)]: the reference and the array behind it. *)
Definition as_ndarray (v : pyobj) : M (option (loc * ndarray)) :=
  λ σ, (OK match v with
           | PyArr l => (λ a, (l, a)) <$> heap σ !! l
           | _ => None
           end, σ).
(** The array object behind a reference. *)
Definition read_arr (l : loc) : M ndarray :=
  λ σ, match heap σ !! l with
       | Some a => (OK a, σ)
       | None => (Raise (TypeError "not an ndarray"), σ)
       end.
(** In-place assignment into the array object at [l]. *)
Definition write_arr (l : loc) (a : ndarray) : M unit :=
  λ σ, (OK (), State (<[l := a]> (heap σ)) (warnings σ)).

(** ** Array indexing, as numpy does it on a 2-D array *)

Definition flat_index (a : ndarray) (ij : nat * nat) : nat :=
  fst ij * shape1 a + snd ij.

Definition get (a : ndarray) (i j : nat) : float :=
  nth (flat_index a (i, j)) (data a) 0%float.

(** [a[idx]] for a pair of index arrays, given as the list of positions. *)
Definition getitem_idx (a : ndarray) (idx : list (nat * nat)) : list float :=
  (λ ij, get a ij.1 ij.2) <$> idx.

(** [a[idx] = vals], the positions assigned in order. *)
Definition setitem_idx (a : ndarray) (idx : list (nat * nat)) (vals : list float)
  : ndarray :=
  NdArray (shape a)
    (foldl (λ d pv, <[flat_index a pv.1 := pv.2]> d) (data a) (zip idx vals)).

(** [a[mask] = v] for a boolean mask of the shape of [a]. *)
Definition setitem_mask (a : ndarray) (mask : list bool) (v : float) : ndarray :=
  NdArray (shape a) (zip_with (λ (m : bool) x, if m then v else x) mask (data a)).

Definition lt_mask (a : ndarray) (v : float) : list bool :=
  (λ x, PrimFloat.ltb x v) <$> data a.
Definition gt_mask (a : ndarray) (v : float) : list bool :=
  (λ x, PrimFloat.ltb v x) <$> data a.

(** [a.T] of a 2-D array. *)
Definition T (a : ndarray) : ndarray :=
  let r := shape0 a in
  let c := shape1 a in
  NdArray [c; r]
    ((λ k, nth ((k mod r) * c + k / r) (data a) 0%float) <$> seq 0 (c * r)).

Definition diag_indices (n : nat) : list (nat * nat) :=
  (λ i, (i, i)) <$> seq 0 n.

Definition triu_indices (n m : nat) : list (nat * nat) :=
  i ← seq 0 n; (λ j, (i, j)) <$> seq i (m - i).

Definition triu_indices_from (a : ndarray) : list (nat * nat) :=
  triu_indices (shape0 a) (shape1 a).

(** ** Identifiers and labels

    An element of an identifier or label array: after validation the arrays
    hold only numbers or only strings. [IInt z] is a number of value [z]:
    an [np.int64], an [np.uint64], a Python int of an object array, or an
    [np.float64] holding the integer [z]. Python and numpy compare, order
    and hash numbers by value, so these are one and the same dictionary key
    and array element. *)

Inductive ident :=
| IInt (z : Z)
| IStr (s : string).

#[global] Instance ident_eq_dec : EqDecision ident.
Proof. solve_decision. Defined.

#[global] Instance ident_countable : Countable ident.
Proof.
  refine (inj_countable'
    (λ i, match i with IInt z => inl z | IStr s => inr s end)
    (λ x, match x with inl z => IInt z | inr s => IStr s end) _).
  by intros [].
Defined.

(** The order numpy and [sorted] use: numeric on integers, code-point
    lexicographic on strings. Integers and strings never meet in one array;
    the order puts integers first to stay total. *)
Definition ident_leb (a b : ident) : bool :=
  match a, b with
  | IInt x, IInt y => (x <=? y)%Z
  | IStr x, IStr y => String.leb x y
  | IInt _, IStr _ => true
  | IStr _, IInt _ => false
  end.

Definition ident_le (a b : ident) : Prop := ident_leb a b.

#[global] Instance ident_le_dec : RelDecision ident_le.
Proof. intros a b. unfold ident_le. apply _. Defined.

(** Ordering of (key, payload) pairs by key alone. *)
Definition key_le {B} (p q : ident * B) : Prop := ident_le p.1 q.1.

#[global] Instance key_le_dec {B} : RelDecision (@key_le B).
Proof. intros p q. unfold key_le. apply _. Defined.

Definition as_ident (v : pyobj) : option ident :=
  match v with
  | PyInt z => Some (IInt z)
  | PyStr s => Some (IStr s)
  | _ => None
  end.

Definition ident_to_py (i : ident) : pyobj :=
  match i with
  | IInt z => PyInt z
  | IStr s => PyStr s
  end.

(** *** [np.array(l)] for a list of Python strs or of Python ints

    A list of strs becomes a fixed-width unicode array, padded with NUL
    characters; an element read back has lost its trailing NUL characters. *)
Fixpoint strip_nul (s : string) : string :=
  match s with
  | EmptyString => EmptyString
  | String c s' =>
    match strip_nul s' with
    | EmptyString =>
      if Ascii.eqb c Ascii.zero then EmptyString else String c EmptyString
    | t => String c t
    end
  end.

(** For a list of ints numpy finds a type per element (a C long when the
    value fits 64 signed bits, an unsigned 64-bit integer when it fits that,
    a Python object otherwise) and promotes these to one element type:
    signed with unsigned gives float64, anything with an object gives
    objects. *)
Definition fits_int64 (z : Z) : bool := ((- 2 ^ 63 <=? z) && (z <? 2 ^ 63))%Z.
Definition fits_uint64_only (z : Z) : bool := ((2 ^ 63 <=? z) && (z <? 2 ^ 64))%Z.

Inductive int_dtype := DInt64 | DUInt64 | DFloat64 | DObject.

Definition int_dtype_of (zs : list Z) : int_dtype :=
  if negb (forallb (λ z, fits_int64 z || fits_uint64_only z) zs) then DObject
  else if forallb fits_int64 zs then DInt64
  else if forallb fits_uint64_only zs then DUInt64
  else DFloat64.

(** The integer a float64 holds after conversion from the integer [z]: the
    nearest value with a 53-bit significand, ties to the even one. *)
Definition round_float64 (z : Z) : Z :=
  let a := Z.abs z in
  let e := (Z.log2 a - 52)%Z in
  if (e <=? 0)%Z then z
  else
    let q := Z.shiftr a e in
    let r := (a - Z.shiftl q e)%Z in
    let half := Z.shiftl 1 (e - 1) in
    let q' := if (half <? r)%Z || ((r =? half)%Z && Z.odd q)
              then (q + 1)%Z else q in
    (Z.sgn z * Z.shiftl q' e)%Z.

Definition as_int (v : pyobj) : option Z :=
  match v with
  | PyInt z => Some z
  | _ => None
  end.

(** The element of the array made from the list element [v]. *)
Definition np_coerce (dtype : int_dtype) (v : pyobj) : option ident :=
  match v with
  | PyInt z => Some (IInt (match dtype with
                           | DFloat64 => round_float64 z
                           | _ => z
                           end))
  | PyStr s => Some (IStr (strip_nul s))
  | _ => None
  end.

Definition np_array_ids (l : list pyobj) : list ident :=
  omap (np_coerce (int_dtype_of (omap as_int l))) l.

(** The list elements [np.array] keeps as they are: ints that fit 64 signed
    bits, in a list of such ints, and strs that do not end in a NUL
    character. *)
Definition np_exact (v : pyobj) : bool :=
  match v with
  | PyInt z => fits_int64 z
  | PyStr s => bool_decide (strip_nul s = s)
  | _ => false
  end.

Definition py_list_items (v : pyobj) : list pyobj :=
  match v with
  | PyList l => l
  | _ => []
  end.

(** [list(range(n))] as an identifier array. *)
Definition range_ids (n : nat) : list ident := (λ i, IInt (Z.of_nat i)) <$> seq 0 n.

(** *** numpy and list primitives on identifier arrays *)

Definition np_sort (l : list ident) : list ident := merge_sort ident_le l.

Definition argsort (l : list ident) : list nat :=
  (merge_sort key_le (zip l (seq 0 (length l)))).*2.

(** [np.unique(l)]: the sorted distinct values. *)
Definition np_unique (l : list ident) : list ident := np_sort (remove_dups l).

Definition count_of (u : ident) (l : list ident) : nat :=
  length (filter (λ x, x = u) l).

(** [np.unique(l, return_counts=True)]. *)
Definition np_unique_counts (l : list ident) : list ident * list nat :=
  (np_unique l, (λ u, count_of u l) <$> np_unique l).

(** [arr == v], elementwise. *)
Definition eq_mask (arr : list ident) (v : ident) : list bool :=
  (λ x, bool_decide (x = v)) <$> arr.

(** [np.in1d(arr, test)]. *)
Definition in1d (arr test : list ident) : list bool :=
  (λ x, bool_decide (x ∈ test)) <$> arr.

(** [arr[mask]] for a boolean mask. *)
Fixpoint bool_index {A} (arr : list A) (mask : list bool) : list A :=
  match arr, mask with
  | x :: arr', b :: mask' =>
    if b then x :: bool_index arr' mask' else bool_index arr' mask'
  | _, _ => []
  end.

(** [np.where(mask)[0]]. *)
Definition np_where (mask : list bool) : list nat :=
  (filter (λ p, p.2 = true) (zip (seq 0 (length mask)) mask)).*1.

Definition py_getitem {A} (l : list A) (i : nat) : result A :=
  match l !! i with
  | Some x => OK x
  | None => Raise IndexError
  end.

(** [arr[idx]] for an integer index array. *)
Definition fancy_index {A} (arr : list A) (idx : list nat) : result (list A) :=
  traverse (py_getitem arr) idx.

(** [l.index(x)]. *)
Fixpoint py_index (l : list ident) (x : ident) : result nat :=
  match l with
  | [] => Raise (ValueError "x is not in list")
  | y :: l' => if decide (y = x) then OK 0 else i ← py_index l' x; OK (S i)
  end.

(** The position [l.index(x)] finds when [x] is in [l]. *)
Definition position (M : list ident) (x : ident) : nat :=
  match py_index M x with
  | OK i => i
  | Raise _ => 0
  end.

Definition np_concatenate {A} (ls : list (list A)) : result (list A) :=
  match ls with
  | [] => Raise (ValueError "need at least one array to concatenate")
  | _ => OK (concat ls)
  end.

Definition assert_array_equal {A} `{EqDecision A} (x y : list A) : result unit :=
  if decide (x = y) then OK () else Raise AssertionError.

(** The (sample id, label) pairs carrying label [k]. *)
Definition group (P : list (ident * ident)) (k : ident) : list (ident * ident) :=
  filter (λ p, p.2 = k) P.

(** ** utils.is_uniq_np1darr *)

(** Modelled from the spec: [utils.is_uniq_np1darr] lives in [utils.py],
    which is not among the sources; the identifier validator "fails ... when
    ids ... contains duplicates", so the helper answers whether the 1-D array
    is free of duplicates. *)
Definition is_uniq_np1darr (arr : list ident) : bool := bool_decide (NoDup arr).

(** ** SampleFeatureMatrix: identifier validation *)

Definition is_valid_sfid (sfid : pyobj) : bool :=
  bool_decide (type_of sfid = TStr) || bool_decide (type_of sfid = TInt).

Definition check_is_valid_sfids (sfids : pyobj) : result unit :=
  match sfids with
  | PyNone => Raise (ValueError "[sf]ids cannot be None")
  | PyList l =>
    match l with
    | [] => Raise (ValueError "[sf]ids must have >= 1 values")
    | sfid0 :: _ =>
      let sid_types := type_of <$> l in
      if bool_decide (length (remove_dups sid_types) ≠ 1)
      then Raise (ValueError "[sf]ids must be a homogenous list of int or str")
      else if negb (is_valid_sfid sfid0)
      then Raise (ValueError "[sf]ids must be a homogenous list of int or str")
      else if negb (is_uniq_np1darr (np_array_ids l))
      then Raise (ValueError "[sf]ids must not contain duplicated values")
      else OK ()
    end
  | _ => Raise (ValueError "[sf]ids must be a homogenous list of int or str")
  end.

(** A list whose elements are all integers or all strings. *)
Definition homogeneous_ids (l : list pyobj) : Prop :=
  (∀ x, x ∈ l → type_of x = TInt) ∨ (∀ x, x ∈ l → type_of x = TStr).

(** What validation leaves in an identifier array: at least one element,
    one kind of element, no duplicate. *)
Definition valid_ids (ids : list ident) : Prop :=
  ids ≠ [] ∧ homogeneous_ids (ident_to_py <$> ids) ∧ NoDup ids.

(** ** SingleLabelClassifiedSamples: label validation *)

Definition is_valid_lab (lab : pyobj) : bool :=
  bool_decide (type_of lab = TStr) || bool_decide (type_of lab = TInt).

Definition check_is_valid_labs (labs : pyobj) : result unit :=
  match labs with
  | PyNone => Raise (ValueError "labs cannot be None")
  | PyList l =>
    match l with
    | [] => Raise (ValueError "labs cannot be empty")
    | lab0 :: _ =>
      if bool_decide (length (remove_dups (type_of <$> l)) ≠ 1)
      then Raise (ValueError "labs must be a homogenous list of int or str")
      else if negb (is_valid_lab lab0)
      then Raise (ValueError "labs must be a homogenous list of int or str")
      else OK ()
    end
  | _ => Raise (ValueError "labs must be a homogenous list of int or str")
  end.

(** ** The objects of the three classes *)

Record SampleFeatureMatrix := {
  _x : loc;
  _sids : list ident;
  _fids : list ident }.

Record SampleDistanceMatrix := {
  sdm_super : SampleFeatureMatrix;
  _d : pyobj;
  _tsne_lut : gmap string loc;
  _metric : pyobj }.

Record SingleLabelClassifiedSamples := {
  slcs_super : SampleDistanceMatrix;
  _labs : list ident;
  _sid_lut : gmap ident (list ident);
  _lab_lut : gmap ident ident }.

(** The [sids] and [labs] properties (copies of the arrays). *)
Definition sids (self : SingleLabelClassifiedSamples) : list ident :=
  _sids (sdm_super (slcs_super self)).
Definition labs (self : SingleLabelClassifiedSamples) : list ident := _labs self.

(** What reaches a parameter that expects another index. *)
Inductive pyarg :=
| ArgSamples (q : SingleLabelClassifiedSamples)
| ArgOther (v : pyobj).

(** The error of [SampleDistanceMatrix.__init__] for an absent metric. *)
Definition missing_metric : exn :=
  ValueError "If d is None, metric must be provided.".

(** ** The numeric routines of numpy and scikit-learn the module calls *)

Class NumLib := {
  (** [np.testing.assert_allclose(actual, desired, rtol, atol)] passes *)
  assert_allclose : list float → list float → float → float → bool;
  (** [np.array(v, dtype="float64")], a fresh array *)
  np_array_float64 : list ndarray → pyobj → result ndarray;
  (** [sklearn.metrics.pairwise.pairwise_distances(x, metric, n_jobs)] *)
  pairwise_distances : list ndarray → pyobj → string → Z → result ndarray }.

Section eda.
Context `{NumLib}.

(** ** SampleFeatureMatrix.__init__ *)

(** The [sids] / [fids] branch of the constructor followed by the
    [np.array] that stores them; [n] is the matching dimension of [x]. The
    array of [list(range(n))] holds these numbers unchanged: a dimension of
    an array is below 2^63. *)
Definition init_sfids (ids : pyobj) (n : nat) : result (list ident) :=
  match ids with
  | PyNone => OK (range_ids n)
  | _ =>
    check_is_valid_sfids ids;;
    if bool_decide (length (py_list_items ids) ≠ n)
    then Raise (ValueError "x has shape (n_samples, n_features)")
    else OK (np_array_ids (py_list_items ids))
  end.

Definition SampleFeatureMatrix_init (x sids fids : pyobj) : M SampleFeatureMatrix :=
  match x with
  | PyNone => raise (ValueError "x cannot be None")
  | _ =>
    h ← get_heap;
    xa ← match np_array_float64 h x with
         | OK a => mret a
         | Raise (ValueError _) => raise (ValueError "Features must be float. {}")
         | Raise e => raise e
         end;
    lx ← alloc xa;
    if bool_decide (ndim xa ≠ 2)
    then raise (ValueError "x has shape (n_samples, n_features)")
    else if bool_decide (size xa = 0)
    then raise (ValueError "size of x cannot be 0")
    else
      sids' ← lift (init_sfids sids (shape0 xa));
      fids' ← lift (init_sfids fids (shape1 xa));
      mret {| _x := lx; _sids := sids'; _fids := fids' |}
  end.

(** ** SampleDistanceMatrix.num_correct_dist_mat

    [upper_bound] is [None] or the float [float(upper_bound)] yields. The
    tolerances are written as the binary64 values of [1e-07] (the default
    [rtol]) and [1e-10]; a failed closeness test only records a warning. *)

Definition num_correct_dist_mat (dmat : pyobj) (upper_bound : option float)
  : M pyobj :=
  arr ← as_ndarray dmat;
  match arr with
  | Some (l, a0) =>
    if bool_decide (ndim a0 ≠ 2) || bool_decide (shape0 a0 ≠ shape1 a0)
    then raise (ValueError "dmat must be a 2D (n_samples, n_samples) np array")
    else
      (if assert_allclose (getitem_idx a0 (diag_indices (shape0 a0)))
            (replicate (shape0 a0) 0%float) 0x1.ad7f29abcaf48p-24%float
            0x1.b7cdfd9d7bdbbp-34%float
       then mret ()
       else warn ("distance matrix might not be numerically "
                  +:+ "correct. diag vals should be close to 0. {}"));;
      (if assert_allclose (getitem_idx a0 (triu_indices_from a0))
            (getitem_idx (T a0) (triu_indices_from a0))
            0x1.ad7f29abcaf48p-24%float 0%float
       then mret ()
       else warn ("distance matrix might not be numerically "
                  +:+ "correct. should be approximately symmetric. {}"));;
      a ← read_arr l;
      write_arr l (setitem_mask a (lt_mask a 0%float) 0%float);;
      a ← read_arr l;
      write_arr l (setitem_idx a (diag_indices (shape0 a))
                     (replicate (shape0 a) 0%float));;
      match upper_bound with
      | Some ub =>
        a ← read_arr l;
        write_arr l (setitem_mask a (gt_mask a ub) ub)
      | None => mret ()
      end;;
      a ← read_arr l;
      write_arr l (setitem_idx a (triu_indices_from a)
                     (getitem_idx (T a) (triu_indices_from a)));;
      mret (PyArr l)
  | None => raise (ValueError "dmat must be a 2D (n_samples, n_samples) np array")
  end.

(** ** SampleDistanceMatrix.__init__

    [nprocs] is [None] or an integer. *)
Definition SampleDistanceMatrix_init (x d metric sids fids : pyobj)
    (nprocs : option Z) : M SampleDistanceMatrix :=
  super ← SampleFeatureMatrix_init x sids fids;
  ld ← match d with
       | PyNone =>
         match metric with
         | PyNone => raise missing_metric
         | PyStr m =>
           let nprocs' := match nprocs with
                          | None => 1%Z
                          | Some n => Z.max n 1
                          end in
           h ← get_heap;
           da ← lift (pairwise_distances h x m nprocs');
           alloc da
         | _ => raise (ValueError "metric must be string")
         end
       | _ =>
         h ← get_heap;
         da ← match np_array_float64 h d with
              | OK a => mret a
              | Raise (ValueError _) => raise (ValueError "d must be float. {}")
              | Raise e => raise e
              end;
         ld ← alloc da;
         xa ← read_arr (_x super);
         if bool_decide (ndim da ≠ 2) || bool_decide (shape0 da ≠ shape1 da)
            || bool_decide (shape0 da ≠ shape0 xa)
         then raise (ValueError "d should have shape (n_samples, n_samples)")
         else mret ld
       end;
  d' ← num_correct_dist_mat (PyArr ld) None;
  mret {| sdm_super := super; _d := d'; _tsne_lut := ∅; _metric := metric |}.

(** ** SingleLabelClassifiedSamples.__init__ *)

(** [sid_lut[uniq_lab] = self._sids[labs == uniq_lab]] for every distinct
    label. *)
Definition build_sid_lut (sids labs : list ident) : gmap ident (list ident) :=
  foldl (λ sid_lut uniq_lab, <[uniq_lab := bool_index sids (eq_mask labs uniq_lab)]> sid_lut)
    ∅ (np_unique labs).

(** [lab_lut[self._sids[i]] = labs[i]] for every position [i]; the two
    arrays have equal length when the loop is reached. *)
Definition build_lab_lut (sids labs : list ident) : gmap ident ident :=
  foldl (λ lab_lut sl, <[sl.1 := sl.2]> lab_lut) ∅ (zip sids labs).

(** [metric] is [None] when the caller leaves the keyword out; the default
    of the signature is then used. *)
Definition SingleLabelClassifiedSamples_init (x labs sids fids d : pyobj)
    (metric : option pyobj) (nprocs : option Z) : M SingleLabelClassifiedSamples :=
  let metric := default (PyStr "correlation") metric in
  super ← SampleDistanceMatrix_init x d metric sids fids nprocs;
  lift (check_is_valid_labs labs);;
  let labs := np_array_ids (py_list_items labs) in
  if bool_decide (length (_sids (sdm_super super)) ≠ length labs)
  then raise (ValueError "sids must have the same length as labs")
  else mret {| slcs_super := super; _labs := labs;
               _sid_lut := build_sid_lut (_sids (sdm_super super)) labs;
               _lab_lut := build_lab_lut (_sids (sdm_super super)) labs |}.

End eda.

(** ** SingleLabelClassifiedSamples: lookups *)

Definition labs_to_sids (self : SingleLabelClassifiedSamples) (labs : list ident)
  : result (list (list ident)) :=
  traverse (λ y, match _sid_lut self !! y with
                 | Some v => OK v
                 | None => Raise KeyError
                 end) labs.

Definition sids_to_labs (self : SingleLabelClassifiedSamples) (sids : list ident)
  : result (list ident) :=
  traverse (λ x, match _lab_lut self !! x with
                 | Some v => OK v
                 | None => Raise KeyError
                 end) sids.

(** ** SingleLabelClassifiedSamples.lab_sorted_sids *)

Definition sort_flat_sids (query_sids ref_sids : list ident) : list ident :=
  bool_index ref_sids (in1d ref_sids query_sids).

Definition lab_sorted_sids (self : SingleLabelClassifiedSamples)
    (ref_sid_order : pyobj) : result (list ident * list ident) :=
  let keys := np_sort (map_to_list (_sid_lut self)).*1 in
  let sep_lab_sid_list := (λ iter_lab, default [] (_sid_lut self !! iter_lab)) <$> keys in
  let sep_lab_list :=
    (λ iter_lab, replicate (length (default [] (_sid_lut self !! iter_lab))) iter_lab)
      <$> keys in
  sep ← match ref_sid_order with
        | PyNone => OK (sep_lab_sid_list, sep_lab_list)
        | _ =>
          check_is_valid_sfids ref_sid_order;;
          let ref_sid_order := np_array_ids (py_list_items ref_sid_order) in
          let sep_lab_sid_list :=
            (λ x, sort_flat_sids x ref_sid_order) <$> sep_lab_sid_list in
          sep_lab_min_sid_list ← traverse (λ x, py_getitem x 0) sep_lab_sid_list;
          let sorted_sep_lab_min_sid_list :=
            sort_flat_sids sep_lab_min_sid_list ref_sid_order in
          min_sid_sorted_sep_lab_ind_list ←
            traverse (py_index sep_lab_min_sid_list) sorted_sep_lab_min_sid_list;
          sep_lab_list ←
            traverse (py_getitem sep_lab_list) min_sid_sorted_sep_lab_ind_list;
          sep_lab_sid_list ←
            traverse (py_getitem sep_lab_sid_list) min_sid_sorted_sep_lab_ind_list;
          OK (sep_lab_sid_list, sep_lab_list)
        end;
  lab_sorted_sid_arr ← np_concatenate sep.1;
  lab_sorted_lab_arr ← np_concatenate sep.2;
  assert_array_equal (np_sort lab_sorted_sid_arr) (np_sort (sids self));;
  assert_array_equal (np_sort lab_sorted_lab_arr) (np_sort (_labs self));;
  by_out ← fancy_index lab_sorted_lab_arr (argsort lab_sorted_sid_arr);
  by_self ← fancy_index (_labs self) (argsort (sids self));
  assert_array_equal by_out by_self;;
  OK (lab_sorted_sid_arr, lab_sorted_lab_arr).

(** ** SingleLabelClassifiedSamples.cross_labs *)

Definition cross_labs (self : SingleLabelClassifiedSamples) (q_slc_samples : pyarg)
  : result (gmap ident (nat * (list ident * list nat))) :=
  match q_slc_samples with
  | ArgOther _ =>
    Raise (TypeError "Query should be an instance of SingleLabelClassifiedSamples")
  | ArgSamples q =>
    ref_labs ← traverse (λ x, match _lab_lut self !! x with
                              | Some v => OK v
                              | None => Raise (ValueError "query sid {} is not in ref sids.")
                              end) (sids q);
    let query_labs := labs q in
    let '(uniq_rlabs, uniq_rlab_cnts) := np_unique_counts ref_labs in
    foldl (λ acc i,
             cross_lab_lut ← acc;
             rlab ← py_getitem uniq_rlabs i;
             cnt ← py_getitem uniq_rlab_cnts i;
             sel ← fancy_index query_labs (np_where (eq_mask ref_labs rlab));
             OK (<[rlab := (cnt, np_unique_counts sel)]> cross_lab_lut))
      (OK ∅) (seq 0 (length uniq_rlabs))
  end.

(** ** The four assignments of [num_correct_dist_mat] as one update of the
    array's contents *)

Definition clamp_negative (a : ndarray) : ndarray :=
  setitem_mask a (lt_mask a 0%float) 0%float.

Definition zero_diagonal (a : ndarray) : ndarray :=
  setitem_idx a (diag_indices (shape0 a)) (replicate (shape0 a) 0%float).

Definition clamp_upper (upper_bound : option float) (a : ndarray) : ndarray :=
  match upper_bound with
  | Some ub => setitem_mask a (gt_mask a ub) ub
  | None => a
  end.

Definition symmetrize (a : ndarray) : ndarray :=
  setitem_idx a (triu_indices_from a) (getitem_idx (T a) (triu_indices_from a)).

Definition corrected (a : ndarray) (upper_bound : option float) : ndarray :=
  symmetrize (clamp_upper upper_bound (zero_diagonal (clamp_negative a))).

(** The value the correction leaves at an entry, from the value found at
    the mirrored position of the lower triangle. *)
Definition repaired (upper_bound : option float) (on_diagonal : bool) (x : float)
  : float :=
  let x1 := if PrimFloat.ltb x 0 then 0%float else x in
  let x2 := if on_diagonal then 0%float else x1 in
  match upper_bound with
  | Some ub => if PrimFloat.ltb ub x2 then ub else x2
  | None => x2
  end.

(** A square 2-D array whose data fills its shape. *)
Definition square (a : ndarray) (n : nat) : Prop :=
  shape a = [n; n] ∧ length (data a) = n * n.

(** ** The [d] property: a copy of the stored distance matrix *)

Definition SampleDistanceMatrix_d (self : SampleDistanceMatrix) : M pyobj :=
  arr ← as_ndarray (_d self);
  match arr with
  | Some (_, a) => l' ← alloc a; mret (PyArr l')
  | None => raise (TypeError "not an ndarray")
  end.

(** ** SingleLabelClassifiedSamples.filter_min_class_n

    [min_class_n] is an integer. *)
Definition filter_min_class_n (self : SingleLabelClassifiedSamples)
    (min_class_n : Z) : list ident * list ident :=
  let uniq_lab_cnts := np_unique_counts (_labs self) in
  let nf_sid_ind :=
    in1d (_labs self)
      (bool_index uniq_lab_cnts.1
         ((λ c, (min_class_n <=? Z.of_nat c)%Z) <$> uniq_lab_cnts.2)) in
  (bool_index (sids self) nf_sid_ind, bool_index (_labs self) nf_sid_ind).

(** ** SingleLabelClassifiedSamples.labs_to_cmap
    [dict(pairs)]: a later pair replaces an earlier one with the same key. *)
Definition py_dict `{Countable K} {V} (items : list (K * V)) : gmap K V :=
  foldl (λ acc kv, <[kv.1 := kv.2]> acc) ∅ items.

(** [mpl.colors.ListedColormap], held as the colour list it is made from. *)
Record ListedColormap (C : Type) := { colors : list C }.
Arguments Build_ListedColormap {C} _.
Arguments colors {C} _.

(** What [labs_to_cmap] returns: the colour map alone, or the tuple
    [(lab_cmap, lab_ind_arr, lab_col_lut, uniq_lab_lut)]. *)
Inductive cmap_result (C : Type) :=
| CmapOnly (lab_cmap : ListedColormap C)
| CmapLuts (lab_cmap : ListedColormap C) (lab_ind_arr : list nat)
    (lab_col_lut : gmap ident C) (uniq_lab_lut : gmap nat ident).
Arguments CmapOnly {C} _.
Arguments CmapLuts {C} _ _ _ _.

(** The palette [sns.hls_palette] is a parameter of the model. *)
Definition labs_to_cmap {C} (hls_palette : nat → list C)
    (self : SingleLabelClassifiedSamples) (return_lut : bool)
  : result (cmap_result C) :=
  let uniq_lab_arr := np_unique (_labs self) in
  let num_uniq_labs := length uniq_lab_arr in
  let uniq_lab_lut := py_dict (zip (seq 0 num_uniq_labs) uniq_lab_arr) in
  let uniq_ind_lut := py_dict (zip uniq_lab_arr (seq 0 num_uniq_labs)) in
  lab_ind_arr ← traverse (λ x, match uniq_ind_lut !! x with
                               | Some v => OK v
                               | None => Raise KeyError
                               end) (_labs self);
  let lab_col_list := hls_palette num_uniq_labs in
  let lab_cmap := Build_ListedColormap lab_col_list in
  lab_col_keys ← traverse (λ i, match uniq_lab_lut !! i with
                                | Some v => OK v
                                | None => Raise KeyError
                                end) (seq 0 (length uniq_lab_arr));
  let lab_col_lut := py_dict (zip lab_col_keys lab_col_list) in
  if return_lut
  then OK (CmapLuts lab_cmap lab_ind_arr lab_col_lut uniq_lab_lut)
  else OK (CmapOnly lab_cmap).

(** ** Concrete inputs used in the examples *)

(** A stand-in for the numeric routines: the closeness test on finite
    values, conversion of arrays only, and an all-zero distance matrix. *)
Definition close_enough (rtol atol : float) (p : float * float) : bool :=
  PrimFloat.leb (PrimFloat.abs (p.1 - p.2)) (atol + rtol * PrimFloat.abs p.2).

#[global] Instance sample_numlib : NumLib := {|
  assert_allclose actual desired rtol atol :=
    bool_decide (length actual = length desired)
    && forallb (close_enough rtol atol) (zip actual desired);
  np_array_float64 h v :=
    match v with
    | PyArr l => match h !! l with
                 | Some a => OK a
                 | None => Raise (TypeError "not an ndarray")
                 end
    | _ => Raise (ValueError "could not convert to float")
    end;
  pairwise_distances h v metric n_jobs :=
    match v with
    | PyArr l => match h !! l with
                 | Some a => OK (NdArray [shape0 a; shape0 a]
                                   (replicate (shape0 a * shape0 a) 0%float))
                 | None => Raise (TypeError "not an ndarray")
                 end
    | _ => Raise (ValueError "could not convert to float")
    end |}.

(** Scenario C of the specification and the result it expects. *)
Definition scenario_C : ndarray :=
  NdArray [3; 3] [0; 1; 2; 1; 0; (-0.5); 2; 0.5; 0]%float.
Definition scenario_C_spec : ndarray :=
  NdArray [3; 3] [0; 1; 2; 1; 0; 0; 2; 0; 0]%float.
Definition scenario_C_code : ndarray :=
  NdArray [3; 3] [0; 1; 2; 1; 0; 0.5; 2; 0.5; 0]%float.

(** Three samples with one feature each. *)
Definition three_by_one : ndarray := NdArray [3; 1] [1; 2; 3]%float.
Definition σ0 : state := State [three_by_one] [].

Definition s123 : pyobj := PyList [PyStr "s1"; PyStr "s2"; PyStr "s3"].
Definition labs_aba : pyobj := PyList [PyStr "a"; PyStr "b"; PyStr "a"].
Definition labs_AAB : pyobj := PyList [PyStr "A"; PyStr "A"; PyStr "B"].
Definition labs_XYX : pyobj := PyList [PyStr "X"; PyStr "Y"; PyStr "X"].
Definition ref_321 : pyobj := PyList [PyStr "s3"; PyStr "s2"; PyStr "s1"].

Definition index_of (labs : pyobj) : result SingleLabelClassifiedSamples :=
  (SingleLabelClassifiedSamples_init (PyArr 0) labs s123 PyNone PyNone None None σ0).1.

(** What construction returns on the three samples: the feature matrix, the
    distance matrix, the labelled index for given labels, and the store
    after each step. *)
Definition features_of (sids : list ident) : SampleFeatureMatrix :=
  {| _x := 1; _sids := sids; _fids := [IInt 0] |}.
Definition σ_features : state := State [three_by_one; three_by_one] [].

Definition distances_of (sids : list ident) : SampleDistanceMatrix :=
  {| sdm_super := features_of sids; _d := PyArr 2; _tsne_lut := ∅;
     _metric := PyStr "correlation" |}.
Definition zeros_3 : ndarray := NdArray [3; 3] (replicate 9 0%float).
Definition σ_built : state := State [three_by_one; three_by_one; zeros_3] [].

Definition index_with (sids labs : list ident) : SingleLabelClassifiedSamples :=
  {| slcs_super := distances_of sids; _labs := labs;
     _sid_lut := build_sid_lut sids labs;
     _lab_lut := build_lab_lut sids labs |}.

Definition ids_123 : list ident := [IStr "s1"; IStr "s2"; IStr "s3"].
Definition index_aba : SingleLabelClassifiedSamples :=
  index_with ids_123 [IStr "a"; IStr "b"; IStr "a"].
Definition index_rows : SingleLabelClassifiedSamples :=
  index_with [IInt 0; IInt 1; IInt 2] [IStr "a"; IStr "b"; IStr "a"].

(** Two lists without duplicates: strings that differ in a trailing NUL
    character, and integers that fit no single 64-bit integer type. *)
Definition ids_nul_padded : list pyobj :=
  [PyStr "a"; PyStr (String "a" (String Ascii.zero EmptyString))].
Definition ids_wide : list pyobj :=
  [PyInt 9223372036854775808; PyInt 9223372036854775809; PyInt (-1)].

Definition s12 : pyobj := PyList [PyStr "s1"; PyStr "s2"].


(** * Properties *)

(** ** Running the store monad *)

Lemma bind_run {A B} (m : M A) (f : A → M B) σ :
  (m ≫= f) σ = match m σ with
               | (OK a, σ') => f a σ'
               | (Raise e, σ') => (Raise e, σ')
               end.
Proof. reflexivity. Qed.

Lemma read_arr_run l a σ :
  heap σ !! l = Some a → read_arr l σ = (OK a, σ).
Proof. unfold read_arr. by intros ->. Qed.

Lemma write_arr_run l a σ :
  write_arr l a σ = (OK (), State (<[l := a]> (heap σ)) (warnings σ)).
Proof. reflexivity. Qed.

(** ** Arrays: reading back what an indexed assignment wrote *)

Section set_items.
Context {I A : Type} (g : I → nat) (h : I → A).

Let assign (d : list A) (pv : I * A) : list A := <[g pv.1 := pv.2]> d.

Lemma assign_all_length idx (vals : list A) d :
  length (foldl assign d (zip idx vals)) = length d.
Proof.
  revert d. induction (zip idx vals) as [|pv pvs IH]; intros d; [done|].
  cbn. rewrite IH. apply length_insert.
Qed.

Lemma assign_all_other idx (vals : list A) d k :
  (∀ x, x ∈ idx → g x ≠ k) →
  foldl assign d (zip idx vals) !! k = d !! k.
Proof.
  revert vals d. induction idx as [|x idx IH]; intros [|v vals] d Hk; try done.
  cbn. rewrite IH by (intros y Hy; apply Hk; by right).
  apply list_lookup_insert_ne, Hk. by left.
Qed.

Lemma assign_all_written idx d x :
  (∀ y z, y ∈ idx → z ∈ idx → g y = g z → h y = h z) →
  x ∈ idx → g x < length d →
  foldl assign d (zip idx (h <$> idx)) !! g x = Some (h x).
Proof.
  induction idx as [|y idx IH] using rev_ind; intros Hcompat Hx Hlt.
  { by apply not_elem_of_nil in Hx. }
  rewrite fmap_app, zip_with_app by (by rewrite length_fmap).
  rewrite foldl_app. cbn. unfold assign at 1. cbn.
  assert (Hy : y ∈ idx ++ [y]) by (apply elem_of_app; right; by left).
  destruct (decide (g y = g x)) as [Heq|Hne].
  - rewrite Heq, list_lookup_insert_eq by (by rewrite assign_all_length).
    f_equal. by apply Hcompat.
  - rewrite list_lookup_insert_ne by done.
    apply elem_of_app in Hx as [Hx|Hx%list_elem_of_singleton]; [|congruence].
    apply IH; [|done..].
    intros ????. apply Hcompat; apply elem_of_app; by left.
Qed.
End set_items.

Lemma flat_index_square a n i j :
  shape a = [n; n] → flat_index a (i, j) = i * n + j.
Proof. unfold flat_index, shape1. by intros ->. Qed.

Lemma square_shape0 a n : shape a = [n; n] → shape0 a = n.
Proof. unfold shape0. by intros ->. Qed.

Lemma square_shape1 a n : shape a = [n; n] → shape1 a = n.
Proof. unfold shape1. by intros ->. Qed.

Lemma flat_index_inj n i j i' j' :
  j < n → j' < n → i * n + j = i' * n + j' → i = i' ∧ j = j'.
Proof.
  intros Hj Hj' E.
  assert (Hi : i = (i * n + j) / n) by (apply (Nat.div_unique _ _ _ j); lia).
  assert (Hi' : i' = (i' * n + j') / n) by (apply (Nat.div_unique _ _ _ j'); lia).
  rewrite E in Hi. split; [congruence|]. subst i. rewrite <-Hi' in E. lia.
Qed.

Lemma get_lookup a n i j :
  square a n → i < n → j < n → data a !! (i * n + j) = Some (get a i j).
Proof.
  intros [Hs Hl] Hi Hj. unfold get. rewrite (flat_index_square a n) by done.
  destruct (nth_lookup_or_length (data a) (i * n + j) 0%float) as [->|]; [done|nia].
Qed.

Lemma get_T a n i j :
  square a n → i < n → j < n → get (T a) i j = get a j i.
Proof.
  intros [Hs Hl] Hi Hj. unfold T.
  rewrite (square_shape0 a n), (square_shape1 a n) by done.
  unfold get at 1. unfold flat_index, shape1. cbn.
  rewrite nth_lookup, list_lookup_fmap.
  rewrite (proj2 (lookup_seq 0 (n * n) (i * n + j) (i * n + j))) by nia.
  cbn. unfold get. rewrite (flat_index_square a n) by done.
  f_equal.
  rewrite (Nat.add_comm (i * n) j), Nat.Div0.mod_add, Nat.div_add by lia.
  rewrite Nat.mod_small, Nat.div_small by done. lia.
Qed.

Lemma elem_of_diag_indices n ij : ij ∈ diag_indices n ↔ ij.1 = ij.2 ∧ ij.1 < n.
Proof.
  unfold diag_indices. rewrite list_elem_of_fmap. setoid_rewrite elem_of_seq.
  destruct ij as [i j]; cbn. split.
  - intros (k & [= -> ->] & ?). lia.
  - intros [-> ?]. exists j. split; [done|lia].
Qed.

Lemma elem_of_triu_indices n ij :
  ij ∈ triu_indices n n ↔ ij.1 ≤ ij.2 ∧ ij.2 < n.
Proof.
  unfold triu_indices. rewrite list_elem_of_bind.
  setoid_rewrite list_elem_of_fmap. setoid_rewrite elem_of_seq.
  destruct ij as [i j]; cbn. split.
  - intros (k & (k' & [= -> ->] & ?) & ?). lia.
  - intros [??]. exists i. split; [exists j; split; [done|lia] | lia].
Qed.

Lemma diag_indices_zeros n :
  replicate n 0%float = (λ _ : nat * nat, 0%float) <$> diag_indices n.
Proof.
  unfold diag_indices. rewrite <-list_fmap_compose.
  apply list_eq. intros k. rewrite list_lookup_fmap.
  destruct (decide (k < n)).
  - rewrite lookup_replicate_2 by done.
    by rewrite (proj2 (lookup_seq 0 n k k)) by lia.
  - rewrite (proj1 (lookup_replicate_None n 0%float k)) by lia.
    rewrite (lookup_ge_None_2 (seq 0 n)); [done|rewrite length_seq; lia].
Qed.

(** *** Each assignment keeps the array square *)

Lemma square_setitem_mask a n (f : float → bool) v :
  square a n → square (setitem_mask a (f <$> data a) v) n.
Proof.
  intros [Hs Hl]. split; [done|]. cbn.
  by rewrite length_zip_with, length_fmap, Nat.min_id.
Qed.

Lemma square_setitem_idx a n idx vals :
  square a n → square (setitem_idx a idx vals) n.
Proof.
  intros [Hs Hl]. split; [done|]. cbn.
  by rewrite (assign_all_length (flat_index a)).
Qed.

Lemma square_clamp_negative a n : square a n → square (clamp_negative a) n.
Proof. apply square_setitem_mask. Qed.

Lemma square_zero_diagonal a n : square a n → square (zero_diagonal a) n.
Proof. apply square_setitem_idx. Qed.

Lemma square_clamp_upper ub a n : square a n → square (clamp_upper ub a) n.
Proof. destruct ub; [apply square_setitem_mask|done]. Qed.

Lemma square_symmetrize a n : square a n → square (symmetrize a) n.
Proof. apply square_setitem_idx. Qed.

Lemma square_corrected a n ub : square a n → square (corrected a ub) n.
Proof.
  intros. by apply square_symmetrize, square_clamp_upper, square_zero_diagonal,
    square_clamp_negative.
Qed.

(** *** What each assignment leaves in the array *)

Lemma get_from_lookup a n i j v :
  shape a = [n; n] → data a !! (i * n + j) = Some v → get a i j = v.
Proof.
  intros Hs Hv. unfold get. rewrite (flat_index_square a n) by done.
  by apply nth_lookup_Some.
Qed.

Lemma get_zero_diagonal_diag a n i :
  square a n → i < n → get (zero_diagonal a) i i = 0%float.
Proof.
  intros Hsq Hi. pose proof Hsq as [Hs Hl].
  apply (get_from_lookup _ n); [done|].
  unfold zero_diagonal, setitem_idx. cbn [data].
  rewrite (square_shape0 a n), diag_indices_zeros by done.
  rewrite <-(flat_index_square a n i i) by done.
  apply (assign_all_written (flat_index a) (λ _, 0%float) _ _ (i, i)); [done| |].
  - by apply elem_of_diag_indices.
  - rewrite (flat_index_square a n) by done. nia.
Qed.

Lemma get_symmetrize_upper a n i j :
  square a n → i ≤ j → j < n → get (symmetrize a) i j = get a j i.
Proof.
  intros Hsq Hij Hj. pose proof Hsq as [Hs Hl].
  apply (get_from_lookup _ n); [done|].
  unfold symmetrize, setitem_idx, getitem_idx, triu_indices_from. cbn [data].
  rewrite (square_shape0 a n), (square_shape1 a n) by done.
  rewrite <-(flat_index_square a n i j), <-(get_T a n i j) by (done || lia).
  apply (assign_all_written (flat_index a) (λ ij, get (T a) ij.1 ij.2) _ _ (i, j)).
  - intros [i1 j1] [i2 j2] [??]%elem_of_triu_indices [??]%elem_of_triu_indices.
    cbn [fst snd] in *. rewrite !(flat_index_square a n) by done.
    intros [-> ->]%flat_index_inj; done.
  - by apply elem_of_triu_indices.
  - rewrite (flat_index_square a n) by done. nia.
Qed.

Lemma get_symmetrize_lower a n i j :
  square a n → j < i → i < n → get (symmetrize a) i j = get a i j.
Proof.
  intros Hsq Hji Hi. pose proof Hsq as [Hs Hl].
  apply (get_from_lookup _ n); [done|].
  unfold symmetrize, setitem_idx, triu_indices_from. cbn [data].
  rewrite (square_shape0 a n), (square_shape1 a n) by done.
  rewrite (assign_all_other (flat_index a)); [apply get_lookup; (done || lia)|].
  intros [i' j'] [??]%elem_of_triu_indices. cbn [fst snd] in *.
  rewrite (flat_index_square a n) by done.
  intros [-> ->]%flat_index_inj; lia.
Qed.

(** The lower triangle decides: entry (i, j) of the result is the entry at
    (max i j, min i j) before the last assignment. *)
Lemma get_symmetrize a n i j :
  square a n → i < n → j < n →
  get (symmetrize a) i j = get a (i `max` j) (i `min` j).
Proof.
  intros Hsq Hi Hj. destruct (decide (i ≤ j)).
  - rewrite (get_symmetrize_upper a n) by done.
    by rewrite Nat.max_r, Nat.min_l by done.
  - rewrite (get_symmetrize_lower a n) by (done || lia).
    by rewrite Nat.max_l, Nat.min_r by lia.
Qed.



Lemma get_setitem_mask a n (f : float → bool) v i j :
  square a n → i < n → j < n →
  get (setitem_mask a (f <$> data a) v) i j
  = if f (get a i j) then v else get a i j.
Proof.
  intros Hsq Hi Hj. pose proof Hsq as [Hs Hl].
  apply (get_from_lookup _ n); [done|].
  unfold setitem_mask. cbn [data].
  rewrite lookup_zip_with, list_lookup_fmap, (get_lookup a n) by done.
  done.
Qed.

Lemma get_clamp_negative a n i j :
  square a n → i < n → j < n →
  get (clamp_negative a) i j
  = if PrimFloat.ltb (get a i j) 0 then 0%float else get a i j.
Proof. apply (get_setitem_mask a n (λ x, PrimFloat.ltb x 0)). Qed.

Lemma get_clamp_upper a n ub i j :
  square a n → i < n → j < n →
  get (clamp_upper (Some ub) a) i j
  = if PrimFloat.ltb ub (get a i j) then ub else get a i j.
Proof. apply (get_setitem_mask a n (λ x, PrimFloat.ltb ub x)). Qed.

Lemma get_zero_diagonal_off a n i j :
  square a n → i < n → j < n → i ≠ j → get (zero_diagonal a) i j = get a i j.
Proof.
  intros Hsq Hi Hj Hij. pose proof Hsq as [Hs Hl].
  apply (get_from_lookup _ n); [done|].
  unfold zero_diagonal, setitem_idx. cbn [data].
  rewrite (square_shape0 a n) by done.
  rewrite (assign_all_other (flat_index a)); [by apply get_lookup|].
  intros [i' j'] [? ?]%elem_of_diag_indices. cbn [fst snd] in *. subst j'.
  rewrite (flat_index_square a n) by done.
  intros [-> ->]%flat_index_inj; done.
Qed.

Lemma get_zero_diagonal a n i j :
  square a n → i < n → j < n →
  get (zero_diagonal a) i j = if decide (i = j) then 0%float else get a i j.
Proof.
  intros. case_decide as E.
  - subst j. by apply (get_zero_diagonal_diag a n).
  - by apply (get_zero_diagonal_off a n).
Qed.

Lemma get_corrected a n ub i j :
  square a n → i < n → j < n →
  get (corrected a ub) i j
  = repaired ub (bool_decide (i = j)) (get a (i `max` j) (i `min` j)).
Proof.
  intros Hsq Hi Hj. unfold corrected, repaired.
  pose proof (square_clamp_negative a n Hsq) as Hsq1.
  pose proof (square_zero_diagonal _ n Hsq1) as Hsq2.
  pose proof (square_clamp_upper ub _ n Hsq2) as Hsq3.
  rewrite (get_symmetrize _ n) by done.
  set (p := i `max` j). set (q := i `min` j).
  assert (p < n) by lia. assert (q < n) by lia.
  assert (Hd : get (zero_diagonal (clamp_negative a)) p q
          = if bool_decide (i = j) then 0%float
            else if PrimFloat.ltb (get a p q) 0 then 0%float else get a p q).
  { rewrite (get_zero_diagonal _ n), (get_clamp_negative a n) by done.
    destruct (decide (i = j)) as [->|Hne].
    - rewrite bool_decide_eq_true_2 by done.
      rewrite decide_True; [done|unfold p, q; lia].
    - rewrite bool_decide_eq_false_2 by done.
      rewrite decide_False; [done|unfold p, q; lia]. }
  destruct ub as [ub|].
  - by rewrite (get_clamp_upper _ n), Hd by done.
  - done.
Qed.



Lemma square_ndim a n : square a n → ndim a = 2 ∧ shape0 a = shape1 a.
Proof. intros [Hs _]. unfold ndim, shape0, shape1. by rewrite Hs. Qed.

Lemma warn_unless_run (b : bool) msg σ :
  ∃ w, (if b then mret () else warn msg) σ = (OK (), State (heap σ) w).
Proof. destruct σ, b; eexists; reflexivity. Qed.

Section eda_run.
Context `{NumLib}.

Lemma num_correct_dist_mat_run l a ub σ :
  heap σ !! l = Some a →
  ndim a = 2 → shape0 a = shape1 a →
  ∃ w, num_correct_dist_mat (PyArr l) ub σ
       = (OK (PyArr l), State (<[l := corrected a ub]> (heap σ)) w).
Proof.
  intros Hl Hnd Hsq.
  assert (Hlt : l < length (heap σ)) by (by eapply lookup_lt_Some).
  unfold num_correct_dist_mat. rewrite bind_run. unfold as_ndarray.
  rewrite Hl. cbn [fmap option_fmap option_map].
  rewrite !bool_decide_eq_false_2 by (intros ?; congruence). cbn [orb].
  rewrite bind_run.
  match goal with |- context [(if ?b then mret () else warn ?m) σ] =>
    destruct (warn_unless_run b m σ) as [w1 ->] end.
  rewrite bind_run.
  match goal with |- context [(if ?b then mret () else warn ?m) ?s] =>
    destruct (warn_unless_run b m s) as [w2 ->] end.
  cbn [heap].
  rewrite bind_run, (read_arr_run l a) by done.
  rewrite bind_run, write_arr_run. cbn [heap warnings].
  rewrite bind_run, (read_arr_run l (clamp_negative a))
    by (by apply list_lookup_insert_eq).
  rewrite bind_run, write_arr_run. cbn [heap warnings].
  rewrite list_insert_insert_eq.
  rewrite bind_run.
  assert (∀ s : state,
    heap s = <[l:=zero_diagonal (clamp_negative a)]> (heap σ) →
    match ub with
    | Some ub0 =>
        read_arr l ≫= λ a2, write_arr l (setitem_mask a2 (gt_mask a2 ub0) ub0)
    | None => mret ()
    end s = (OK (), State (<[l:=clamp_upper ub (zero_diagonal (clamp_negative a))]> (heap σ)) (warnings s))) as Hub.
  { intros s Hs. destruct ub as [ub|]; cbn [clamp_upper].
    - rewrite bind_run, (read_arr_run l (zero_diagonal (clamp_negative a)))
        by (rewrite Hs; by apply list_lookup_insert_eq).
      rewrite write_arr_run, Hs, list_insert_insert_eq. done.
    - destruct s; cbn in *. by subst. }
  rewrite Hub by done. cbn [heap warnings].
  rewrite bind_run, (read_arr_run l (clamp_upper ub (zero_diagonal (clamp_negative a))))
    by (by apply list_lookup_insert_eq).
  rewrite bind_run, write_arr_run. cbn [heap warnings].
  rewrite list_insert_insert_eq. by eexists.
Qed.

(** C1 (amended): the correction assigns into the array in four steps, in
    this order: entries below 0 become 0, the diagonal becomes 0, entries
    above the optional upper bound become the bound, and last the upper
    triangle is overwritten with the mirrored lower triangle, so the lower
    triangle decides: entry (i, j) of the result is the repaired value of
    the input entry at (max i j, min i j). On [[0,1,2],[1,0,-0.5],[2,0.5,0]]
    with no upper bound the result is [[0,1,2],[1,0,0.5],[2,0.5,0]]. *)
Theorem num_correct_dist_mat_steps l a n ub σ :
  heap σ !! l = Some a → square a n →
  (∃ w, num_correct_dist_mat (PyArr l) ub σ
        = (OK (PyArr l),
           State (<[l := symmetrize (clamp_upper ub (zero_diagonal (clamp_negative a)))]>
                    (heap σ)) w))
  ∧ (∀ i j, i < n → j < n →
       get (symmetrize (clamp_upper ub (zero_diagonal (clamp_negative a)))) i j
       = repaired ub (bool_decide (i = j)) (get a (i `max` j) (i `min` j)))
  ∧ symmetrize (clamp_upper None (zero_diagonal (clamp_negative scenario_C)))
    = scenario_C_code.
Proof.
  intros Hl Hsq. destruct (square_ndim a n Hsq) as [Hnd Hsh].
  split; [|split].
  - by apply num_correct_dist_mat_run.
  - intros i j Hi Hj. by apply (get_corrected a n).
  - vm_compute. reflexivity.
Qed.


(** C10: the correction works in place. For a square 2-D array argument
    the call returns the reference it was given, the array object behind
    that reference now holds the corrected values, no array object is
    created, and every other array object is left as it was. *)
Theorem num_correct_dist_mat_in_place l a ub σ :
  heap σ !! l = Some a → ndim a = 2 → shape0 a = shape1 a →
  ∃ σ', num_correct_dist_mat (PyArr l) ub σ = (OK (PyArr l), σ')
        ∧ heap σ' !! l = Some (corrected a ub)
        ∧ length (heap σ') = length (heap σ)
        ∧ ∀ l', l' ≠ l → heap σ' !! l' = heap σ !! l'.
Proof.
  intros Hl Hnd Hsh.
  destruct (num_correct_dist_mat_run l a ub σ Hl Hnd Hsh) as [w Hrun].
  eexists. split; [exact Hrun|]. cbn [heap]. split; [|split].
  - apply list_lookup_insert_eq. by eapply lookup_lt_Some.
  - apply length_insert.
  - intros l' Hne. by apply list_lookup_insert_ne.
Qed.

End eda_run.

(** ** The validators *)

Lemma remove_dups_all_equal {A} `{EqDecision A} (t : A) (ts : list A) :
  ts ≠ [] → (∀ u, u ∈ ts → u = t) → remove_dups ts = [t].
Proof.
  induction ts as [|u ts IH]; [done|]. intros _ Hall.
  assert (u = t) as -> by (apply Hall; by left).
  destruct (decide (ts = [])) as [->|Hne].
  - cbn. destruct (decide_rel _ _ _) as [[]%not_elem_of_nil|]; done.
  - cbn. destruct (decide_rel _ _ _) as [|Hn].
    + apply IH; [done|]. intros ??. apply Hall. by right.
    + destruct ts as [|u' ts]; [done|]. destruct Hn.
      assert (u' = t) as -> by (apply Hall; right; by left). by left.
Qed.

Lemma remove_dups_length_1 {A} `{EqDecision A} (t : A) (ts : list A) :
  length (remove_dups (t :: ts)) = 1 ↔ ∀ u, u ∈ t :: ts → u = t.
Proof.
  split.
  - intros Hlen u Hu.
    destruct (remove_dups (t :: ts)) as [|z [|??]] eqn:E; try done.
    assert (Ht : t ∈ [z]) by (rewrite <-E; apply elem_of_remove_dups; by left).
    assert (Hu' : u ∈ [z]) by (rewrite <-E; by apply elem_of_remove_dups).
    apply list_elem_of_singleton in Ht, Hu'. congruence.
  - intros Hall. by rewrite (remove_dups_all_equal t).
Qed.

Lemma ident_to_py_inj : Inj (=) (=) ident_to_py.
Proof. intros [] [] [=]; by subst. Qed.

Lemma type_of_is_id v :
  type_of v = TInt ∨ type_of v = TStr → ∃ i, v = ident_to_py i.
Proof.
  destruct v; intros [|]; try done.
  - by exists (IInt z).
  - by exists (IStr s).
Qed.

Lemma homogeneous_ids_cons v l :
  homogeneous_ids (v :: l) → homogeneous_ids l.
Proof.
  intros [Hh|Hh]; [left|right]; intros x Hx; apply Hh; by right.
Qed.

(** The conversion of one element keeps its kind. *)
Lemma np_coerce_kind dt v :
  type_of v = TInt ∨ type_of v = TStr →
  ∃ i, np_coerce dt v = Some i ∧ type_of (ident_to_py i) = type_of v.
Proof. destruct v; intros [|]; try done; cbn; eauto. Qed.

Lemma omap_np_coerce_length dt l :
  homogeneous_ids l → length (omap (np_coerce dt) l) = length l.
Proof.
  induction l as [|v l IH]; intros Hh; [done|]. cbn.
  destruct (np_coerce_kind dt v) as (i & -> & _).
  { destruct Hh as [Hh|Hh]; [left|right]; apply Hh; by left. }
  cbn. f_equal. by eapply IH, homogeneous_ids_cons.
Qed.

Lemma homogeneous_ids_length l :
  homogeneous_ids l → length (np_array_ids l) = length l.
Proof. apply omap_np_coerce_length. Qed.

(** The array holds numbers when the list holds ints and strings when it
    holds strs. *)
Lemma np_array_ids_homogeneous l :
  homogeneous_ids l → homogeneous_ids (ident_to_py <$> np_array_ids l).
Proof.
  unfold np_array_ids. generalize (int_dtype_of (omap as_int l)). intros dt.
  intros [Hh|Hh]; [left|right];
    intros x (i & -> & (v & Hv & Hi)%list_elem_of_omap)%list_elem_of_fmap;
    specialize (Hh v Hv); destruct v; try done; cbn in Hi;
    by injection Hi as <-.
Qed.

(** Distinct array elements come from distinct list elements. *)
Lemma np_array_ids_NoDup l :
  homogeneous_ids l → NoDup (np_array_ids l) → NoDup l.
Proof.
  unfold np_array_ids. generalize (int_dtype_of (omap as_int l)). intros dt.
  induction l as [|v l IH]; intros Hh Hnd; [constructor|]. cbn in Hnd.
  destruct (np_coerce_kind dt v) as (i & Hi & _).
  { destruct Hh as [Hh|Hh]; [left|right]; apply Hh; by left. }
  rewrite Hi in Hnd. cbn in Hnd. apply NoDup_cons in Hnd as [Hni Hnd].
  apply NoDup_cons. split.
  - intros Hv. apply Hni, list_elem_of_omap. by exists v.
  - by eapply IH, Hnd; eapply homogeneous_ids_cons.
Qed.

Lemma strip_nul_idemp s : strip_nul (strip_nul s) = strip_nul s.
Proof.
  induction s as [|c s IH]; [done|]. cbn.
  destruct (strip_nul s) as [|c' t] eqn:E.
  - destruct (Ascii.eqb c Ascii.zero) eqn:Ec; [done|]. cbn. by rewrite Ec.
  - cbn in IH |- *. destruct (strip_nul t) as [|c'' t'] eqn:Et.
    + destruct (Ascii.eqb c' Ascii.zero) eqn:Ec'; [done|]. by rewrite IH.
    + by rewrite IH.
Qed.

(** Ints that fit 64 signed bits and strs that do not end in NUL are kept as
    they are. *)
Lemma np_array_ids_exact l :
  homogeneous_ids l → Forall (λ v, np_exact v = true) l →
  ident_to_py <$> np_array_ids l = l.
Proof.
  intros Hh Hex. unfold np_array_ids.
  assert (Hdt : (∀ x, x ∈ l → type_of x = TInt) →
                l ≠ [] → int_dtype_of (omap as_int l) = DInt64).
  { intros Hint Hne. unfold int_dtype_of.
    assert (Hall : forallb fits_int64 (omap as_int l) = true).
    { clear Hne Hh. induction Hex as [|v l Hv Hex IH]; [done|].
      specialize (Hint v (list_elem_of_here _ _)) as Hty.
      destruct v; try done. cbn. cbn in Hv. rewrite Hv. cbn.
      apply IH. intros x Hx. apply Hint. by right. }
    rewrite Hall.
    assert (forallb (λ z, fits_int64 z || fits_uint64_only z) (omap as_int l)
            = true) as ->; [|done].
    apply forallb_forall. intros z Hz.
    by rewrite (proj1 (forallb_forall _ _) Hall z Hz). }
  destruct l as [|v0 l0]; [done|].
  set (l := v0 :: l0) in *.
  destruct Hh as [Hh|Hh].
  - rewrite Hdt by done. clear Hdt Hex.
    induction l as [|v l IH]; [done|].
    specialize (Hh v (list_elem_of_here _ _)) as Hty. destruct v; try done.
    cbn. f_equal. apply IH. intros x Hx. apply Hh. by right.
  - clear Hdt. generalize (int_dtype_of (omap as_int l)). intros dt.
    induction Hex as [|v l' Hv Hex IH]; [done|].
    specialize (Hh v (list_elem_of_here _ _)) as Hty. destruct v; try done.
    cbn in Hv. apply bool_decide_eq_true in Hv. cbn. rewrite Hv. f_equal.
    apply IH. intros x Hx. apply Hh. by right.
Qed.

(** The two checks the validators share: one element type, and that type
    an integer or a string. *)
Lemma homogeneous_ids_checks v l :
  (bool_decide (length (remove_dups (type_of <$> v :: l)) ≠ 1) = false
   ∧ negb (is_valid_sfid v) = false)
  ↔ homogeneous_ids (v :: l).
Proof.
  rewrite bool_decide_eq_false, negb_false_iff. unfold is_valid_sfid.
  rewrite orb_true_iff, !bool_decide_eq_true.
  rewrite fmap_cons.
  assert ((¬ length (remove_dups (type_of v :: (type_of <$> l))) ≠ 1)
          ↔ ∀ x, x ∈ v :: l → type_of x = type_of v) as ->.
  { split.
    - intros Hlen x Hx.
      assert (Hl1 : length (remove_dups (type_of v :: (type_of <$> l))) = 1) by lia.
      apply (proj1 (remove_dups_length_1 _ _) Hl1).
      rewrite <-fmap_cons. by apply list_elem_of_fmap_2.
    - intros Hall Hne. apply Hne, remove_dups_length_1. intros u.
      rewrite <-fmap_cons. intros (x & -> & Hx)%list_elem_of_fmap.
      by apply Hall. }
  unfold homogeneous_ids. split.
  - intros [Hall [Hv|Hv]]; [right|left]; intros x Hx; by rewrite Hall.
  - intros [Hh|Hh].
    + split; [|right; apply Hh; by left].
      intros x Hx. rewrite !Hh; [done|by left|done].
    + split; [|left; apply Hh; by left].
      intros x Hx. rewrite !Hh; [done|by left|done].
Qed.

Lemma check_is_valid_sfids_iff (sfids : pyobj) :
  check_is_valid_sfids sfids = OK ()
  ↔ ∃ l, sfids = PyList l ∧ l ≠ [] ∧ homogeneous_ids l
         ∧ NoDup (np_array_ids l).
Proof.
  split.
  - destruct sfids as [| | | | |[|v l]| |]; try done.
    unfold check_is_valid_sfids. cbv beta iota zeta.
    destruct (bool_decide (length _ ≠ 1)) eqn:E1; [done|].
    destruct (negb (is_valid_sfid v)) eqn:E2; [done|].
    destruct (negb (is_uniq_np1darr _)) eqn:E3; [done|]. intros _.
    assert (Hh : homogeneous_ids (v :: l)) by (by apply homogeneous_ids_checks).
    exists (v :: l). split_and!; [done..|].
    apply negb_false_iff in E3. by apply bool_decide_eq_true in E3.
  - intros (l & -> & Hne & Hh & Hnd). destruct l as [|v l]; [done|].
    unfold check_is_valid_sfids. cbv beta iota zeta.
    apply homogeneous_ids_checks in Hh as Hc. destruct Hc as [-> ->].
    unfold is_uniq_np1darr. by rewrite bool_decide_eq_true_2.
Qed.

(** C4 (amended): the identifier validator accepts exactly the non-empty
    lists whose elements are all integers or all strings and whose
    conversion to an array holds no duplicate; every other input (None,
    something that is not a list, an empty list, mixed element types,
    another element type, a duplicate in the array) is refused with a
    [ValueError]. A list with a duplicate is always refused, and among lists
    of integers that fit 64 signed bits or of strings that do not end in a
    NUL character the accepted ones are exactly the non-empty
    duplicate-free ones. *)
Theorem check_is_valid_sfids_accepts_iff (sfids : pyobj) :
  (check_is_valid_sfids sfids = OK ()
   ↔ ∃ l, sfids = PyList l ∧ l ≠ [] ∧ homogeneous_ids l
          ∧ NoDup (np_array_ids l))
  ∧ (check_is_valid_sfids sfids = OK ()
     ∨ ∃ msg, check_is_valid_sfids sfids = Raise (ValueError msg))
  ∧ (∀ l, sfids = PyList l →
       (check_is_valid_sfids sfids = OK () → NoDup l)
       ∧ (Forall (λ v, np_exact v = true) l →
          (check_is_valid_sfids sfids = OK ()
           ↔ l ≠ [] ∧ homogeneous_ids l ∧ NoDup l))).
Proof.
  split_and!; [apply check_is_valid_sfids_iff| |].
  - destruct sfids as [| | | | |[|v l]| |]; cbn; eauto.
    repeat case_match; eauto.
  - intros l ->. rewrite check_is_valid_sfids_iff. split.
    + intros (l' & [= <-] & _ & Hh & Hnd). by apply np_array_ids_NoDup.
    + intros Hex. split.
      * intros (l' & [= <-] & Hne & Hh & Hnd). split_and!; [done..|].
        by apply np_array_ids_NoDup.
      * intros (Hne & Hh & Hnd). exists l. split_and!; [done..|].
        apply (NoDup_fmap_1 ident_to_py). by rewrite np_array_ids_exact.
Qed.

(** The label validator makes the same checks except the one for
    duplicates. *)
Lemma check_is_valid_labs_accepts_iff (labs : pyobj) :
  check_is_valid_labs labs = OK ()
  ↔ ∃ l, labs = PyList l ∧ l ≠ [] ∧ homogeneous_ids l.
Proof.
  split.
  - destruct labs as [| | | | |[|v l]| |]; try done. cbn.
    destruct (bool_decide (length _ ≠ 1)) eqn:E1; [done|].
    destruct (negb (is_valid_lab v)) eqn:E2; [done|]. intros _.
    exists (v :: l). split_and!; [done..|]. by apply homogeneous_ids_checks.
  - intros (l & -> & Hne & Hh). destruct l as [|v l]; [done|].
    unfold check_is_valid_labs. cbv beta iota zeta.
    apply homogeneous_ids_checks in Hh as [E1 E2].
    change (is_valid_lab v) with (is_valid_sfid v). by rewrite E1, E2.
Qed.

(** ** What a successful construction establishes *)

Lemma bind_OK {A B} (m : M A) (f : A → M B) σ b σ' :
  (m ≫= f) σ = (OK b, σ') → ∃ a σ1, m σ = (OK a, σ1) ∧ f a σ1 = (OK b, σ').
Proof.
  rewrite bind_run. destruct (m σ) as [[a|e] σ1]; [eauto|done].
Qed.

Lemma result_bind_OK {A B} (m : result A) (f : A → result B) b :
  m ≫= f = OK b → ∃ a, m = OK a ∧ f a = OK b.
Proof. destruct m as [a|e]; [eauto|done]. Qed.

Lemma lift_OK {A} (r : result A) σ a σ' :
  lift r σ = (OK a, σ') → r = OK a ∧ σ' = σ.
Proof. unfold lift. by intros [= -> ->]. Qed.

Lemma range_ids_valid n : n ≠ 0 → valid_ids (range_ids n).
Proof.
  intros Hn. unfold range_ids. split_and!.
  - destruct n; done.
  - left. intros x (i & -> & (k & -> & _)%list_elem_of_fmap)%list_elem_of_fmap.
    done.
  - apply NoDup_fmap_2_strong; [|apply NoDup_seq].
    intros ???? [=]. lia.
Qed.

Lemma check_is_valid_sfids_valid l :
  check_is_valid_sfids (PyList l) = OK () → valid_ids (np_array_ids l).
Proof.
  intros Hc.
  apply (proj1 (check_is_valid_sfids_iff (PyList l))) in Hc
    as (l' & [= <-] & Hne & Hh & Hnd).
  split_and!.
  - intros E. apply (f_equal length) in E.
    rewrite homogeneous_ids_length in E by done. by destruct l.
  - by apply np_array_ids_homogeneous.
  - done.
Qed.

Section construction.
Context `{NumLib}.

Lemma init_sfids_OK ids n S :
  n ≠ 0 → init_sfids ids n = OK S →
  valid_ids S ∧ length S = n
  ∧ (ids ≠ PyNone → S = np_array_ids (py_list_items ids)).
Proof.
  intros Hn. unfold init_sfids.
  destruct ids as [| | | | |l| |]; try done.
  { intros [= <-]. split_and!; [by apply range_ids_valid| |done].
    unfold range_ids. by rewrite length_fmap, length_seq. }
  intros (? & Hc & Hl)%result_bind_OK. cbn [py_list_items] in *.
  case_bool_decide as Hlen; [done|]. injection Hl as <-. destruct x.
  split_and!; [by apply check_is_valid_sfids_valid| |done].
  apply (proj1 (check_is_valid_sfids_iff _)) in Hc as (l' & [= <-] & _ & Hh & _).
  rewrite homogeneous_ids_length by done. lia.
Qed.

Lemma SampleFeatureMatrix_init_OK x sids fids σ self σ' :
  SampleFeatureMatrix_init x sids fids σ = (OK self, σ') →
  valid_ids (_sids self)
  ∧ (sids ≠ PyNone → _sids self = np_array_ids (py_list_items sids)).
Proof.
  unfold SampleFeatureMatrix_init. intros Hrun.
  assert (∃ h, (xa ← match np_array_float64 h x with
         | OK a => mret a
         | Raise (ValueError _) => raise (ValueError "Features must be float. {}")
         | Raise e => raise e
         end;
    lx ← alloc xa;
    if bool_decide (ndim xa ≠ 2)
    then raise (ValueError "x has shape (n_samples, n_features)")
    else if bool_decide (size xa = 0)
    then raise (ValueError "size of x cannot be 0")
    else
      sids' ← lift (init_sfids sids (shape0 xa));
      fids' ← lift (init_sfids fids (shape1 xa));
      mret {| _x := lx; _sids := sids'; _fids := fids' |}) σ = (OK self, σ'))
    as [h Hbody].
  { destruct x; try done; apply bind_OK in Hrun as (h & ? & [= <- <-] & Hrun);
      by exists (heap σ). }
  clear Hrun.
  apply bind_OK in Hbody as (xa & σ1 & _ & Hbody).
  apply bind_OK in Hbody as (lx & σ2 & _ & Hbody).
  case_bool_decide as Hnd; [done|]. case_bool_decide as Hsz; [done|].
  apply bind_OK in Hbody as (sids' & σ3 & [Hs ->]%lift_OK & Hbody).
  apply bind_OK in Hbody as (fids' & σ4 & [Hf ->]%lift_OK & Hbody).
  injection Hbody as <- <-. cbn [_sids].
  apply init_sfids_OK in Hs as (? & _ & ?); [done|].
  intros E0. apply Hsz. unfold size, shape0, ndim in *.
  destruct (shape xa) as [|r [|c [|??]]]; cbn in *; subst; lia.
Qed.

Lemma SampleDistanceMatrix_init_OK x d metric sids fids nprocs σ self σ' :
  SampleDistanceMatrix_init x d metric sids fids nprocs σ = (OK self, σ') →
  valid_ids (_sids (sdm_super self)) ∧ _metric self = metric
  ∧ (sids ≠ PyNone → _sids (sdm_super self) = np_array_ids (py_list_items sids)).
Proof.
  unfold SampleDistanceMatrix_init. intros Hrun.
  apply bind_OK in Hrun as (super & σ1 & Hsuper & Hrun).
  apply bind_OK in Hrun as (ld & σ2 & _ & Hrun).
  apply bind_OK in Hrun as (d' & σ3 & _ & Hrun).
  injection Hrun as <- <-. cbn.
  apply SampleFeatureMatrix_init_OK in Hsuper as [??]. done.
Qed.

Lemma SingleLabelClassifiedSamples_init_OK x labs sids0 fids d metric nprocs σ self σ' :
  SingleLabelClassifiedSamples_init x labs sids0 fids d metric nprocs σ = (OK self, σ') →
  valid_ids (sids self)
  ∧ (∃ l, labs = PyList l ∧ l ≠ [] ∧ homogeneous_ids l ∧ _labs self = np_array_ids l)
  ∧ length (sids self) = length (_labs self)
  ∧ _sid_lut self = build_sid_lut (sids self) (_labs self)
  ∧ _lab_lut self = build_lab_lut (sids self) (_labs self)
  ∧ _metric (slcs_super self) = default (PyStr "correlation") metric
  ∧ (sids0 ≠ PyNone → sids self = np_array_ids (py_list_items sids0)).
Proof.
  unfold SingleLabelClassifiedSamples_init. intros Hrun.
  apply bind_OK in Hrun as (super & σ1 & Hsuper & Hrun).
  apply bind_OK in Hrun as ([] & σ2 & [Hlabs ->]%lift_OK & Hrun).
  case_bool_decide as Hlen; [done|]. injection Hrun as <- <-.
  apply SampleDistanceMatrix_init_OK in Hsuper as (Hv & Hm & Hs).
  apply check_is_valid_labs_accepts_iff in Hlabs as (l & -> & Hne & Hh).
  unfold sids. cbn in *.
  split_and!; [done| |done..]. by exists l.
Qed.

End construction.

(** ** The two lookup tables *)

Lemma traverse_OK {A B} (f : A → result B) (g : A → B) (l : list A) :
  (∀ x, x ∈ l → f x = OK (g x)) → traverse f l = OK (g <$> l).
Proof.
  induction l as [|x l IH]; intros Hf; [done|]. cbn.
  rewrite Hf by (by left). cbn. rewrite IH; [done|].
  intros ??. apply Hf. by right.
Qed.

Lemma foldl_insert_keys_lookup `{Countable K} {V} (f : K → V)
    (ks : list K) (m : gmap K V) (k : K) :
  foldl (λ acc k', <[k' := f k']> acc) m ks !! k
  = if decide (k ∈ ks) then Some (f k) else m !! k.
Proof.
  revert m. induction ks as [|k' ks IH]; intros m; cbn.
  { by rewrite decide_False by apply not_elem_of_nil. }
  rewrite IH. destruct (decide (k ∈ ks)) as [Hin|Hin].
  - rewrite decide_True; [done|by right].
  - destruct (decide (k' = k)) as [->|Hne].
    + rewrite decide_True by (by left). apply lookup_insert_eq.
    + rewrite decide_False by (by intros [->|?]%elem_of_cons).
      by apply lookup_insert_ne.
Qed.

Lemma foldl_insert_pairs_lookup `{Countable K} {V}
    (ps : list (K * V)) (m : gmap K V) (k : K) (v : V) :
  NoDup ps.*1 → (k, v) ∈ ps →
  foldl (λ acc p, <[p.1 := p.2]> acc) m ps !! k = Some v.
Proof.
  revert m. induction ps as [|[k' v'] ps IH]; intros m Hnd Hin.
  { by apply not_elem_of_nil in Hin. }
  cbn in *. apply NoDup_cons in Hnd as [Hk' Hnd].
  apply elem_of_cons in Hin as [[= <- <-]|Hin]; [|by apply IH].
  clear IH. revert m. induction ps as [|[k2 v2] ps IH]; intros m; cbn in *.
  { apply lookup_insert_eq. }
  apply NoDup_cons in Hnd as [? ?].
  assert (k ≠ k2) by (intros ->; apply Hk'; by left).
  rewrite insert_insert_ne by done. apply IH; [|done].
  intros ?; apply Hk'. by right.
Qed.

Lemma elem_of_np_unique l x : x ∈ np_unique l ↔ x ∈ l.
Proof.
  unfold np_unique, np_sort. by rewrite merge_sort_Permutation, elem_of_remove_dups.
Qed.

Lemma NoDup_np_unique l : NoDup (np_unique l).
Proof.
  unfold np_unique, np_sort. rewrite merge_sort_Permutation.
  apply NoDup_remove_dups.
Qed.

(** Indexing the sample ids with the mask [labs == L] selects the samples
    paired with [L]. *)
Lemma bool_index_eq_mask (sids labs : list ident) (L : ident) :
  bool_index sids (eq_mask labs L) = (filter (λ p, p.2 = L) (zip sids labs)).*1.
Proof.
  unfold eq_mask.
  revert labs. induction sids as [|s sids IH]; intros [|l labs]; try done.
  rewrite fmap_cons. cbn [bool_index zip_with]. rewrite filter_cons. cbn [snd].
  destruct (decide (l = L)) as [Hl|Hl].
  - rewrite bool_decide_eq_true_2, fmap_cons by done. cbn [fst]. by rewrite IH.
  - rewrite bool_decide_eq_false_2 by done. apply IH.
Qed.

Lemma build_sid_lut_lookup sids labs L :
  build_sid_lut sids labs !! L
  = if decide (L ∈ labs) then Some (bool_index sids (eq_mask labs L)) else None.
Proof.
  unfold build_sid_lut.
  rewrite (foldl_insert_keys_lookup (λ u, bool_index sids (eq_mask labs u))).
  rewrite lookup_empty.
  destruct (decide (L ∈ np_unique labs)) as [Hin|Hin];
    rewrite elem_of_np_unique in Hin.
  - by rewrite decide_True.
  - by rewrite decide_False.
Qed.

Lemma build_lab_lut_lookup sids labs s l :
  NoDup sids → length sids = length labs → (s, l) ∈ zip sids labs →
  build_lab_lut sids labs !! s = Some l.
Proof.
  intros Hnd Hlen Hin. unfold build_lab_lut.
  apply foldl_insert_pairs_lookup; [|done].
  rewrite fst_zip by lia. done.
Qed.

Lemma filter_snd_zip_length (sids labs : list ident) (L : ident) :
  length sids = length labs →
  length (filter (λ p : ident * ident, p.2 = L) (zip sids labs)) = count_of L labs.
Proof.
  unfold count_of. revert labs.
  induction sids as [|s sids IH]; intros [|l labs] Hlen; try done.
  cbn [zip_with length] in *. rewrite !filter_cons. cbn [snd].
  destruct (decide (l = L)); cbn [length]; rewrite IH by lia; done.
Qed.

Section lookups.
Context `{NumLib}.

(** C7: for a label [L] carried by some sample of a constructed index,
    [labs_to_sids] on [[L]] returns one tuple, the ids of exactly the
    samples labelled [L], one per such sample, and [sids_to_labs] on that
    tuple returns [L] for each of them. *)
Theorem labs_to_sids_then_sids_to_labs
    x labs0 sids0 fids d metric nprocs σ self σ' (L : ident) :
  SingleLabelClassifiedSamples_init x labs0 sids0 fids d metric nprocs σ
  = (OK self, σ') →
  L ∈ labs self →
  ∃ ids, labs_to_sids self [L] = OK [ids]
         ∧ sids_to_labs self ids = OK (replicate (length ids) L)
         ∧ length ids = count_of L (labs self)
         ∧ ∀ s, s ∈ ids ↔ (s, L) ∈ zip (sids self) (labs self).
Proof.
  intros Hinit HL. unfold labs in *.
  apply SingleLabelClassifiedSamples_init_OK in Hinit
    as ((_ & _ & Hnd) & _ & Hlen & Hsl & Hll & _ & _).
  set (ids := bool_index (sids self) (eq_mask (_labs self) L)).
  assert (Hids : ∀ s, s ∈ ids ↔ (s, L) ∈ zip (sids self) (_labs self)).
  { intros s. unfold ids. rewrite bool_index_eq_mask, list_elem_of_fmap. split.
    - intros ([s' l] & -> & [Hl Hin]%list_elem_of_filter). cbn in *. by subst.
    - intros Hin. exists (s, L). split; [done|]. by apply list_elem_of_filter. }
  exists ids. split_and!; [| | |done].
  - unfold labs_to_sids. cbn. rewrite Hsl, build_sid_lut_lookup.
    by rewrite decide_True.
  - unfold sids_to_labs.
    rewrite (traverse_OK _ (λ _, L)).
    + f_equal. clear. induction ids; [done|]. cbn. by f_equal.
    + intros s Hs%Hids. rewrite Hll.
      by rewrite (build_lab_lut_lookup _ _ s L).
  - unfold ids. rewrite bool_index_eq_mask, length_fmap.
    by apply filter_snd_zip_length.
Qed.

End lookups.

(** ** Labels and the metric at construction *)

Lemma bind_not_raise {A B} (m : M A) (f : A → M B) σ e :
  (m σ).1 ≠ Raise e → (∀ a σ1, (f a σ1).1 ≠ Raise e) →
  ((m ≫= f) σ).1 ≠ Raise e.
Proof.
  intros Hm Hf. rewrite bind_run. destruct (m σ) as [[a|e'] σ1]; cbn in *.
  - apply Hf.
  - intros [= ->]. by apply Hm.
Qed.

Lemma check_is_valid_sfids_not_missing ids :
  check_is_valid_sfids ids ≠ Raise missing_metric.
Proof.
  destruct ids as [| | | | |[|v l]| |]; try done.
  unfold check_is_valid_sfids. repeat case_match; done.
Qed.

Lemma check_is_valid_labs_not_missing labs :
  check_is_valid_labs labs ≠ Raise missing_metric.
Proof.
  destruct labs as [| | | | |[|v l]| |]; try done.
  unfold check_is_valid_labs. repeat case_match; done.
Qed.

Lemma read_arr_not_missing l σ : (read_arr l σ).1 ≠ Raise missing_metric.
Proof. unfold read_arr. by destruct (heap σ !! l). Qed.

Lemma warn_unless_not_missing (b : bool) msg σ :
  ((if b then mret () else warn msg) σ).1 ≠ Raise missing_metric.
Proof. by destruct b. Qed.

Section metric.
Context `{NumLib}.

Lemma init_sfids_not_missing ids n : init_sfids ids n ≠ Raise missing_metric.
Proof.
  unfold init_sfids.
  pose proof (check_is_valid_sfids_not_missing ids) as Hc.
  destruct ids; try done;
    (destruct (check_is_valid_sfids _) as [[]|e]; cbn;
      [by case_bool_decide | by intros [= ->]]).
Qed.

Lemma SampleFeatureMatrix_init_not_missing x sids fids σ :
  (SampleFeatureMatrix_init x sids fids σ).1 ≠ Raise missing_metric.
Proof.
  assert (Hbody : ∀ h σ0, ((xa ← match np_array_float64 h x with
         | OK a => mret a
         | Raise (ValueError _) => raise (ValueError "Features must be float. {}")
         | Raise e => raise e
         end;
    lx ← alloc xa;
    if bool_decide (ndim xa ≠ 2)
    then raise (ValueError "x has shape (n_samples, n_features)")
    else if bool_decide (size xa = 0)
    then raise (ValueError "size of x cannot be 0")
    else
      sids' ← lift (init_sfids sids (shape0 xa));
      fids' ← lift (init_sfids fids (shape1 xa));
      mret {| _x := lx; _sids := sids'; _fids := fids' |}) σ0).1
      ≠ Raise missing_metric).
  { intros h σ0. apply bind_not_raise.
    { by destruct (np_array_float64 h x) as [a|[]]. }
    intros xa σ1. apply bind_not_raise; [done|]. intros lx σ2.
    case_bool_decide; [done|]. case_bool_decide; [done|].
    apply bind_not_raise; [apply init_sfids_not_missing|]. intros sids' σ3.
    apply bind_not_raise; [apply init_sfids_not_missing|]. done. }
  unfold SampleFeatureMatrix_init.
  destruct x; try done; (apply bind_not_raise; [done|intros h σ0; apply Hbody]).
Qed.

Lemma num_correct_dist_mat_not_missing dmat ub σ :
  (num_correct_dist_mat dmat ub σ).1 ≠ Raise missing_metric.
Proof.
  unfold num_correct_dist_mat. apply bind_not_raise; [done|].
  intros [[l a0]|] σ1; [|done].
  destruct (_ || _); [done|].
  apply bind_not_raise; [apply warn_unless_not_missing|]. intros _ σ2.
  apply bind_not_raise; [apply warn_unless_not_missing|]. intros _ σ3.
  apply bind_not_raise; [apply read_arr_not_missing|]. intros a1 σ4.
  apply bind_not_raise; [done|]. intros _ σ5.
  apply bind_not_raise; [apply read_arr_not_missing|]. intros a2 σ6.
  apply bind_not_raise; [done|]. intros _ σ7.
  apply bind_not_raise.
  { destruct ub; [|done].
    apply bind_not_raise; [apply read_arr_not_missing|done]. }
  intros _ σ8.
  apply bind_not_raise; [apply read_arr_not_missing|]. intros a3 σ9.
  apply bind_not_raise; done.
Qed.

Lemma num_correct_dist_mat_OK l ub σ v σ' :
  num_correct_dist_mat (PyArr l) ub σ = (OK v, σ') →
  ∃ a, heap σ !! l = Some a ∧ v = PyArr l
       ∧ heap σ' = <[l := corrected a ub]> (heap σ).
Proof.
  destruct (heap σ !! l) as [a|] eqn:Hl.
  - destruct (decide (ndim a = 2)) as [Hnd|Hnd];
      [destruct (decide (shape0 a = shape1 a)) as [Hsh|Hsh]|].
    + destruct (num_correct_dist_mat_run l a ub σ Hl Hnd Hsh) as [w ->].
      intros [= <- <-]. by exists a.
    + unfold num_correct_dist_mat. rewrite bind_run. unfold as_ndarray.
      rewrite Hl. cbn [fmap option_fmap option_map].
      rewrite (bool_decide_eq_true_2 (shape0 a ≠ shape1 a)) by done.
      by rewrite orb_true_r.
    + unfold num_correct_dist_mat. rewrite bind_run. unfold as_ndarray.
      rewrite Hl. cbn [fmap option_fmap option_map].
      by rewrite (bool_decide_eq_true_2 (ndim a ≠ 2)) by done.
  - unfold num_correct_dist_mat. rewrite bind_run. unfold as_ndarray.
    by rewrite Hl.
Qed.

(** C6 (amended): construction does not send the labels through the
    identifier validator; it uses a label validator that makes the same
    checks except the one for duplicates. Once the distance-matrix part of
    the construction has succeeded, the construction succeeds exactly when
    the labels are a non-empty list whose elements are all integers or all
    strings and whose length is the number of samples, whether or not a
    label repeats. *)
Theorem init_accepts_labels_iff x labs sids fids d metric nprocs σ super σ1 :
  SampleDistanceMatrix_init x d (default (PyStr "correlation") metric)
    sids fids nprocs σ = (OK super, σ1) →
  (∃ self, SingleLabelClassifiedSamples_init x labs sids fids d metric nprocs σ
           = (OK self, σ1))
  ↔ ∃ l, labs = PyList l ∧ l ≠ [] ∧ homogeneous_ids l
         ∧ length l = length (_sids (sdm_super super)).
Proof.
  intros Hsuper. unfold SingleLabelClassifiedSamples_init.
  rewrite bind_run, Hsuper, bind_run. unfold lift. split.
  - intros [self Hrun].
    destruct (check_is_valid_labs labs) as [[]|e] eqn:Hlabs; [|done].
    apply check_is_valid_labs_accepts_iff in Hlabs as (l & -> & Hne & Hh).
    cbn [py_list_items] in Hrun. case_bool_decide as Hlen; [done|].
    exists l. split_and!; [done..|].
    by rewrite <-(homogeneous_ids_length l).
  - intros (l & -> & Hne & Hh & Hlen).
    rewrite (proj2 (check_is_valid_labs_accepts_iff (PyList l)))
      by (by exists l).
    cbn [py_list_items].
    rewrite bool_decide_eq_false_2
      by (rewrite homogeneous_ids_length by done; lia).
    by eexists.
Qed.

Lemma init_default_metric_runs x labs sids fids nprocs σ sfm σ1 da :
  SampleFeatureMatrix_init x sids fids σ = (OK sfm, σ1) →
  pairwise_distances (heap σ1) x "correlation"
    (match nprocs with None => 1%Z | Some n => Z.max n 1 end) = OK da →
  ndim da = 2 → shape0 da = shape1 da →
  check_is_valid_labs labs = OK () →
  length (py_list_items labs) = length (_sids sfm) →
  ∃ self σ',
    SingleLabelClassifiedSamples_init x labs sids fids PyNone None nprocs σ
    = (OK self, σ')
    ∧ heap σ' = heap σ1 ++ [corrected da None]
    ∧ _metric (slcs_super self) = PyStr "correlation"
    ∧ _d (slcs_super self) = PyArr (length (heap σ1)).
Proof.
  intros Hsfm Hpd Hnd Hsq Hlabs Hlen.
  unfold SingleLabelClassifiedSamples_init. cbn [default].
  unfold SampleDistanceMatrix_init.
  rewrite !bind_run, Hsfm. rewrite !bind_run. cbn [get_heap].
  rewrite Hpd. unfold lift at 1. unfold alloc at 1.
  rewrite bind_run. cbv beta iota.
  destruct (num_correct_dist_mat_run (length (heap σ1)) da None
              (State (heap σ1 ++ [da]) (warnings σ1))) as [w Hcorr];
    [cbn [heap]; by rewrite lookup_app_r, Nat.sub_diag by done|done..|].
  rewrite bind_run, Hcorr. cbn [heap].
  unfold mret at 1, M_ret at 1. cbv beta iota.
  rewrite bind_run. unfold lift at 1. rewrite Hlabs.
  apply check_is_valid_labs_accepts_iff in Hlabs as (l & -> & _ & Hh).
  cbn [py_list_items sdm_super] in *.
  rewrite bool_decide_eq_false_2
    by (rewrite homogeneous_ids_length by done; lia).
  eexists _, _. split; [reflexivity|]. cbn [heap slcs_super _metric _d].
  split_and!; [|done..].
  rewrite insert_app_r_alt, Nat.sub_diag by done. done.
Qed.

(** C9: constructing an index with the distance matrix and the metric both
    left out never fails with the missing-metric error (given that the
    distance routine does not raise that error itself). Whenever the
    construction succeeds the stored metric is "correlation", and the stored
    distance matrix is the correction of what the distance routine returned
    for the metric "correlation". And the construction does succeed, with
    that metric and that distance matrix, whenever the feature matrix is
    built, the distance routine called with the metric "correlation"
    returns a 2-D array with as many rows as columns, and the labels pass
    their validation and are as many as the samples. *)
Theorem init_metric_defaults_to_correlation x labs sids fids nprocs σ :
  (∀ h v m n, pairwise_distances h v m n ≠ Raise missing_metric) →
  (SingleLabelClassifiedSamples_init x labs sids fids PyNone None nprocs σ).1
  ≠ Raise missing_metric
  ∧ (∀ self σ',
      SingleLabelClassifiedSamples_init x labs sids fids PyNone None nprocs σ
      = (OK self, σ') →
      _metric (slcs_super self) = PyStr "correlation"
      ∧ ∃ h da l,
          pairwise_distances h x "correlation"
            (match nprocs with None => 1%Z | Some n => Z.max n 1 end) = OK da
          ∧ _d (slcs_super self) = PyArr l
          ∧ heap σ' !! l = Some (corrected da None))
  ∧ (∀ sfm σ1 da,
      SampleFeatureMatrix_init x sids fids σ = (OK sfm, σ1) →
      pairwise_distances (heap σ1) x "correlation"
        (match nprocs with None => 1%Z | Some n => Z.max n 1 end) = OK da →
      ndim da = 2 → shape0 da = shape1 da →
      check_is_valid_labs labs = OK () →
      length (py_list_items labs) = length (_sids sfm) →
      ∃ self σ',
        SingleLabelClassifiedSamples_init x labs sids fids PyNone None nprocs σ
        = (OK self, σ')
        ∧ heap σ' = heap σ1 ++ [corrected da None]
        ∧ _metric (slcs_super self) = PyStr "correlation"
        ∧ _d (slcs_super self) = PyArr (length (heap σ1))).
Proof.
  intros Hpd. split_and!.
  - unfold SingleLabelClassifiedSamples_init. cbn [default].
    apply bind_not_raise.
    + unfold SampleDistanceMatrix_init.
      apply bind_not_raise; [apply SampleFeatureMatrix_init_not_missing|].
      intros super σ1. apply bind_not_raise.
      * apply bind_not_raise; [done|]. intros h σ2.
        apply bind_not_raise; [apply Hpd|done].
      * intros ld σ2.
        apply bind_not_raise; [apply num_correct_dist_mat_not_missing|done].
    + intros super σ1.
      apply bind_not_raise; [apply check_is_valid_labs_not_missing|].
      intros _ σ2. by case_bool_decide.
  - intros self σ' Hrun.
    unfold SingleLabelClassifiedSamples_init in Hrun. cbn [default] in Hrun.
    apply bind_OK in Hrun as (super & σ1 & Hsuper & Hrun).
    apply bind_OK in Hrun as ([] & σ2 & [Hlabs ->]%lift_OK & Hrun).
    case_bool_decide; [done|]. injection Hrun as <- <-. cbn [slcs_super].
    unfold SampleDistanceMatrix_init in Hsuper.
    apply bind_OK in Hsuper as (sfm & σ3 & _ & Hsuper).
    apply bind_OK in Hsuper as (ld & σ4 & Hd & Hsuper).
    apply bind_OK in Hsuper as (d' & σ5 & Hcorr & Hsuper).
    injection Hsuper as <- <-. cbn [_metric _d]. split; [done|].
    apply bind_OK in Hd as (h & σ6 & [= <- <-] & Hd).
    apply bind_OK in Hd as (da & σ7 & [Hda ->]%lift_OK & Hd).
    injection Hd as <- <-.
    apply num_correct_dist_mat_OK in Hcorr as (a & Ha & -> & Hheap).
    cbn [heap] in Ha.
    rewrite lookup_app_r, Nat.sub_diag in Ha by done. injection Ha as <-.
    exists (heap σ3), da, (length (heap σ3)). split_and!; [done..|].
    rewrite Hheap. apply list_lookup_insert_eq. cbn [heap].
    rewrite length_app. cbn. lia.
  - intros sfm σ1 da. apply init_default_metric_runs.
Qed.

End metric.

(** ** The order on identifiers and sorting *)

Lemma string_leb_trans s1 s2 s3 :
  String.leb s1 s2 = true → String.leb s2 s3 = true → String.leb s1 s3 = true.
Proof.
  unfold String.leb. revert s2 s3.
  induction s1 as [|c1 s1 IH]; intros [|c2 s2] [|c3 s3]; cbn; try done.
  unfold Ascii.compare.
  destruct (N.compare_spec (N_of_ascii c1) (N_of_ascii c2)),
    (N.compare_spec (N_of_ascii c2) (N_of_ascii c3)),
    (N.compare_spec (N_of_ascii c1) (N_of_ascii c3)); try done; try lia.
  all: apply IH.
Qed.

#[global] Instance ident_le_total : Total ident_le.
Proof.
  intros [x|x] [y|y]; unfold ident_le; cbn; auto.
  - destruct (Z.leb_spec x y), (Z.leb_spec y x); auto. lia.
  - destruct (String.leb_total x y) as [->| ->]; auto.
Qed.

#[global] Instance ident_le_trans : Transitive ident_le.
Proof.
  intros [x|x] [y|y] [z|z]; unfold ident_le; cbn; try done.
  - rewrite !Is_true_true, !Z.leb_le. lia.
  - rewrite !Is_true_true. apply string_leb_trans.
Qed.

#[global] Instance ident_le_antisym : AntiSymm (=) ident_le.
Proof.
  intros [x|x] [y|y]; unfold ident_le; cbn; try done.
  - rewrite !Is_true_true, !Z.leb_le. intros. f_equal. lia.
  - rewrite !Is_true_true. intros. f_equal. by apply String.leb_antisym.
Qed.

#[global] Instance key_le_total {B} : Total (@key_le B).
Proof. intros p q. unfold key_le. apply total, _. Qed.

#[global] Instance key_le_trans {B} : Transitive (@key_le B).
Proof. intros p q r. unfold key_le. apply transitivity. Qed.

Lemma np_sort_Permutation l1 l2 : l1 ≡ₚ l2 → np_sort l1 = np_sort l2.
Proof.
  intros Hp. unfold np_sort.
  apply (Sorted_unique ident_le); [apply Sorted_merge_sort, _..|].
  by rewrite !merge_sort_Permutation.
Qed.

Lemma NoDup_fst_inj {A B} (l : list (A * B)) x y :
  NoDup l.*1 → x ∈ l → y ∈ l → x.1 = y.1 → x = y.
Proof.
  induction l as [|p l IH]; intros Hnd Hx Hy Hxy.
  { by apply not_elem_of_nil in Hx. }
  cbn in Hnd. apply NoDup_cons in Hnd as [Hp Hnd].
  apply elem_of_cons in Hx as [->|Hx]; apply elem_of_cons in Hy as [->|Hy];
    [done| | |by apply IH].
  - destruct Hp. rewrite Hxy. by apply list_elem_of_fmap_2.
  - destruct Hp. rewrite <-Hxy. by apply list_elem_of_fmap_2.
Qed.

(** With distinct keys, sorting by key does not depend on the order the
    pairs arrive in. *)
Lemma sort_by_key_unique {B} (l1 l2 : list (ident * B)) :
  NoDup l1.*1 → l1 ≡ₚ l2 →
  Sorted key_le l1 → Sorted key_le l2 → l1 = l2.
Proof.
  intros Hnd Hp Hs1 Hs2.
  apply (Sorted_unique_strong key_le); [|done..].
  intros [k1 v1] [k2 v2] H1 H2 Hle1 Hle2.
  apply (NoDup_fst_inj l1); [done..|by rewrite Hp|].
  unfold key_le in *. cbn in *. by apply (anti_symm ident_le).
Qed.

Lemma sort_by_key_Permutation {B} (l1 l2 : list (ident * B)) :
  NoDup l1.*1 → l1 ≡ₚ l2 → merge_sort key_le l1 = merge_sort key_le l2.
Proof.
  intros Hnd Hp. apply sort_by_key_unique.
  - by rewrite merge_sort_Permutation.
  - by rewrite !merge_sort_Permutation.
  - apply Sorted_merge_sort, _.
  - apply Sorted_merge_sort, _.
Qed.

Lemma Sorted_key_le_fmap {B C} (f : ident * B → ident * C) (l : list (ident * B)) :
  (∀ p, (f p).1 = p.1) → Sorted key_le l → Sorted key_le (f <$> l).
Proof.
  intros Hf. induction 1 as [|p l Hs IH Hhd]; [constructor|].
  cbn. constructor; [done|].
  destruct Hhd as [|q l Hpq]; cbn; constructor.
  unfold key_le in *. by rewrite !Hf.
Qed.

(** [vals[np.argsort(keys)]] is the payload column of the pairs sorted by
    key. *)
Lemma fancy_index_argsort (Q : list (ident * ident)) :
  NoDup Q.*1 →
  fancy_index Q.*2 (argsort Q.*1) = OK (merge_sort key_le Q).*2.
Proof.
  intros Hnd. unfold argsort, fancy_index. rewrite length_fmap.
  set (n := length Q). set (Zp := zip Q.*1 (seq 0 n)).
  set (f := λ p : ident * nat, (p.1, nth p.2 Q.*2 (IInt 0))).
  assert (Hf : f <$> Zp = Q).
  { apply list_eq. intros i. unfold Zp.
    rewrite list_lookup_fmap, lookup_zip_with, list_lookup_fmap.
    destruct (Q !! i) as [[k v]|] eqn:Hi; [|done]. cbn.
    rewrite (proj2 (lookup_seq 0 n i i))
      by (split; [done|by eapply lookup_lt_Some]).
    cbn. unfold f. cbn. f_equal. f_equal.
    apply nth_lookup_Some. by rewrite list_lookup_fmap, Hi. }
  assert (Hsorted : f <$> merge_sort key_le Zp = merge_sort key_le Q).
  { apply sort_by_key_unique.
    - by rewrite merge_sort_Permutation, Hf.
    - by rewrite !merge_sort_Permutation, Hf.
    - apply Sorted_key_le_fmap; [done|]. apply Sorted_merge_sort, _.
    - apply Sorted_merge_sort, _. }
  rewrite (traverse_OK _ (λ i, nth i Q.*2 (IInt 0))).
  - f_equal. rewrite <-Hsorted, <-!list_fmap_compose. done.
  - intros i Hi. unfold py_getitem.
    assert (Hin : i ∈ seq 0 n).
    { rewrite <-(snd_zip Q.*1 (seq 0 n))
        by (by rewrite length_fmap, length_seq).
      fold Zp. by rewrite <-(merge_sort_Permutation key_le Zp). }
    apply elem_of_seq in Hin.
    destruct (nth_lookup_or_length Q.*2 i (IInt 0)) as [->|Hge]; [done|].
    rewrite length_fmap in Hge. unfold n in Hin. lia.
Qed.

(** The three closing checks of [lab_sorted_sids] pass on any rearrangement
    of the (sample id, label) pairs of the index. *)
Lemma lab_sorted_checks (S Lb : list ident) (Q : list (ident * ident)) :
  NoDup S → length S = length Lb → Q ≡ₚ zip S Lb →
  (assert_array_equal (np_sort Q.*1) (np_sort S);;
   assert_array_equal (np_sort Q.*2) (np_sort Lb);;
   by_out ← fancy_index Q.*2 (argsort Q.*1);
   by_self ← fancy_index Lb (argsort S);
   assert_array_equal by_out by_self;;
   OK (Q.*1, Q.*2)) = OK (Q.*1, Q.*2).
Proof.
  intros Hnd Hlen Hp.
  assert (HS : (zip S Lb).*1 = S) by (apply fst_zip; lia).
  assert (HL : (zip S Lb).*2 = Lb) by (apply snd_zip; lia).
  assert (Hp1 : Q.*1 ≡ₚ S) by (by rewrite Hp, HS).
  assert (Hp2 : Q.*2 ≡ₚ Lb) by (by rewrite Hp, HL).
  unfold assert_array_equal.
  rewrite (np_sort_Permutation _ _ Hp1), (np_sort_Permutation _ _ Hp2).
  destruct (decide (np_sort S = np_sort S)); [|done].
  destruct (decide (np_sort Lb = np_sort Lb)); [|done].
  cbn [mbind result_bind].
  rewrite fancy_index_argsort by (by rewrite Hp1). cbn [mbind result_bind].
  assert (Hself : fancy_index Lb (argsort S)
                  = OK (merge_sort key_le (zip S Lb)).*2).
  { pose proof (fancy_index_argsort (zip S Lb)) as Hf.
    rewrite HS, HL in Hf. by apply Hf. }
  rewrite Hself. cbn [mbind result_bind].
  rewrite (sort_by_key_Permutation Q (zip S Lb)) by (done || by rewrite Hp1).
  by rewrite decide_True.
Qed.

(** ** Grouping the samples by label *)

Lemma concat_fmap_fst {A B} (ls : list (list (A * B))) :
  (concat ls).*1 = concat ((λ l : list (A * B), l.*1) <$> ls).
Proof. induction ls as [|l ls IH]; [done|]. cbn. by rewrite fmap_app, IH. Qed.

Lemma concat_fmap_snd {A B} (ls : list (list (A * B))) :
  (concat ls).*2 = concat ((λ l : list (A * B), l.*2) <$> ls).
Proof. induction ls as [|l ls IH]; [done|]. cbn. by rewrite fmap_app, IH. Qed.

Lemma concat_fmap_Permutation {A B} (f g : A → list B) (ks : list A) :
  (∀ k, k ∈ ks → f k ≡ₚ g k) → concat (f <$> ks) ≡ₚ concat (g <$> ks).
Proof.
  induction ks as [|k ks IH]; intros Hfg; [done|]. cbn.
  rewrite (Hfg k) by (by left). rewrite IH; [done|].
  intros ??. apply Hfg. by right.
Qed.

Lemma concat_Permutation {A} (ls1 ls2 : list (list A)) :
  ls1 ≡ₚ ls2 → concat ls1 ≡ₚ concat ls2.
Proof.
  induction 1 as [|l ls1 ls2 _ IH|l1 l2 ls|ls1 ls2 ls3 _ IH1 _ IH2]; cbn.
  - done.
  - by rewrite IH.
  - rewrite !(assoc (++)). by rewrite (comm (++) l2 l1).
  - by rewrite IH1.
Qed.

Lemma fmap_ext_in {A B} (f g : A → B) (l : list A) :
  (∀ x, x ∈ l → f x = g x) → f <$> l = g <$> l.
Proof.
  intros Hfg. apply list_fmap_ext. intros i x Hx. apply Hfg.
  by eapply list_elem_of_lookup_2.
Qed.

Lemma group_snd P k : (group P k).*2 = replicate (length (group P k)) k.
Proof.
  unfold group. induction P as [|[s l] P IH]; [done|].
  rewrite filter_cons. cbn [snd]. destruct (decide (l = k)) as [->|]; [|done].
  cbn. by rewrite IH.
Qed.

Lemma group_pairs P k : (λ s, (s, k)) <$> (group P k).*1 = group P k.
Proof.
  unfold group. induction P as [|[s l] P IH]; [done|].
  rewrite filter_cons. cbn [snd]. destruct (decide (l = k)) as [->|]; [|done].
  cbn. by rewrite IH.
Qed.

Lemma group_fst_NoDup P k : NoDup P.*1 → NoDup (group P k).*1.
Proof.
  unfold group. induction P as [|[s l] P IH]; [done|].
  rewrite fmap_cons. intros [Hs Hnd]%NoDup_cons. rewrite filter_cons. cbn [snd].
  destruct (decide (l = k)) as [->|]; [|by apply IH].
  rewrite fmap_cons. apply NoDup_cons. split; [|by apply IH].
  intros (p & Heq & [_ Hp]%list_elem_of_filter)%list_elem_of_fmap.
  apply Hs. cbn in *. rewrite Heq. by apply list_elem_of_fmap_2.
Qed.

Lemma elem_of_group_fst P k s : s ∈ (group P k).*1 ↔ (s, k) ∈ P.
Proof.
  unfold group. rewrite list_elem_of_fmap. split.
  - intros ([s' l] & -> & [Hl Hin]%list_elem_of_filter). cbn in *. by subst.
  - intros Hin. exists (s, k). split; [done|]. by apply list_elem_of_filter.
Qed.

(** Concatenating the groups of all labels, each label once, rearranges the
    pairs. *)
Lemma group_concat_Permutation P (keys : list ident) :
  NoDup keys → (∀ p, p ∈ P → p.2 ∈ keys) →
  concat (group P <$> keys) ≡ₚ P.
Proof.
  revert P. induction keys as [|k ks IH]; intros P Hnd Hcover.
  { destruct P as [|p P]; [done|].
    by destruct (not_elem_of_nil p.2); apply Hcover; left. }
  apply NoDup_cons in Hnd as [Hk Hnd]. cbn.
  rewrite <-(filter_app_complement (λ p, p.2 = k) P) at 3.
  apply Permutation_app; [done|].
  assert (Heq : group P <$> ks = group (filter (λ p, ¬ p.2 = k) P) <$> ks).
  { apply fmap_ext_in. intros k' Hk'.
    unfold group. rewrite list_filter_filter. apply list_filter_iff.
    intros p. split; [|tauto]. intros ->. split; [done|by intros ->]. }
  rewrite Heq. apply IH; [done|].
  intros p [Hp Hin]%list_elem_of_filter.
  apply Hcover in Hin as [E|Hin]%elem_of_cons; done.
Qed.

Lemma zip_replicate {A B} (l : list A) (k : B) :
  zip l (replicate (length l) k) = (λ s, (s, k)) <$> l.
Proof. induction l as [|s l IH]; [done|]. cbn. by rewrite IH. Qed.

(** Whatever order [keys'] lists the labels in and however each bucket is
    rearranged, the concatenated buckets with their repeated labels are a
    rearrangement of the pairs. *)
Lemma buckets_Permutation P (keys' : list ident) (B' : ident → list ident) :
  NoDup keys' → (∀ p, p ∈ P → p.2 ∈ keys') →
  (∀ k, k ∈ keys' → B' k ≡ₚ (group P k).*1) →
  ∃ Q, Q ≡ₚ P
       ∧ Q.*1 = concat (B' <$> keys')
       ∧ Q.*2 = concat ((λ k, replicate (length (group P k)) k) <$> keys').
Proof.
  intros Hnd Hcover HB.
  exists (concat ((λ k, zip (B' k) (replicate (length (group P k)) k)) <$> keys')).
  assert (Hlen : ∀ k, k ∈ keys' → length (B' k) = length (group P k)).
  { intros k Hk. by rewrite (HB k Hk), length_fmap. }
  split_and!.
  - etrans; [|by apply (group_concat_Permutation P keys')].
    apply concat_fmap_Permutation. intros k Hk.
    rewrite <-(Hlen k Hk), zip_replicate, <-(group_pairs P k).
    by apply fmap_Permutation, HB.
  - rewrite concat_fmap_fst, <-list_fmap_compose. f_equal.
    apply fmap_ext_in. intros k Hk. cbn.
    apply fst_zip. rewrite length_replicate, Hlen by done. lia.
  - rewrite concat_fmap_snd, <-list_fmap_compose. f_equal.
    apply fmap_ext_in. intros k Hk. cbn.
    apply snd_zip. rewrite length_replicate, Hlen by done. lia.
Qed.

(** ** Reordering by a reference order *)

Lemma sort_flat_sids_filter (q R : list ident) :
  sort_flat_sids q R = filter (λ r, r ∈ q) R.
Proof.
  unfold sort_flat_sids, in1d. induction R as [|r R IH]; [done|].
  rewrite fmap_cons. cbn [bool_index]. rewrite filter_cons.
  destruct (decide (r ∈ q)).
  - rewrite bool_decide_eq_true_2 by done. by rewrite IH.
  - by rewrite bool_decide_eq_false_2 by done.
Qed.

Lemma sort_flat_sids_Permutation (q R : list ident) :
  NoDup q → NoDup R → (∀ x, x ∈ q → x ∈ R) → sort_flat_sids q R ≡ₚ q.
Proof.
  intros Hq HR Hsub. rewrite sort_flat_sids_filter.
  apply NoDup_Permutation; [by apply NoDup_filter|done|].
  intros x. rewrite list_elem_of_filter. split; [by intros [? ?]|].
  intros Hx. split; [done|by apply Hsub].
Qed.

Lemma py_index_lookup (M : list ident) j x :
  NoDup M → M !! j = Some x → py_index M x = OK j.
Proof.
  revert j. induction M as [|y M IH]; intros j Hnd Hj; [done|].
  apply NoDup_cons in Hnd as [Hy Hnd]. cbn. destruct j as [|j]; cbn in Hj.
  - injection Hj as ->. by rewrite decide_True.
  - rewrite decide_False.
    + by rewrite (IH j).
    + intros ->. apply Hy. by eapply list_elem_of_lookup_2.
Qed.

Lemma traverse_getitem {A} (L : list A) (I : list nat) (d : A) :
  (∀ i, i ∈ I → i < length L) →
  traverse (py_getitem L) I = OK ((λ i, nth i L d) <$> I).
Proof.
  intros HI. apply traverse_OK. intros i Hi%HI. unfold py_getitem.
  destruct (nth_lookup_or_length L i d) as [->|]; [done|lia].
Qed.

Lemma nth_fmap {A B} (f : A → B) (l : list A) i d d' :
  i < length l → nth i (f <$> l) d' = f (nth i l d).
Proof.
  intros Hi. apply nth_lookup_Some. rewrite list_lookup_fmap.
  destruct (nth_lookup_or_length l i d) as [->|]; [done|lia].
Qed.

Lemma position_lookup (M : list ident) j x :
  NoDup M → M !! j = Some x → position M x = j.
Proof. intros Hnd Hj. unfold position. by rewrite (py_index_lookup M j x). Qed.

Lemma py_index_position (M : list ident) x :
  NoDup M → x ∈ M → py_index M x = OK (position M x).
Proof.
  intros Hnd [j Hj]%list_elem_of_lookup_1. unfold position.
  by rewrite (py_index_lookup M j x).
Qed.

(** The reference-order branch of [lab_sorted_sids]: every bucket is
    rearranged, and the buckets are taken in a rearranged order of the
    labels. *)
Lemma reorder_by_reference P (keys R : list ident) :
  NoDup P.*1 → NoDup keys → (∀ k, k ∈ keys → group P k ≠ []) →
  NoDup R → (∀ s, s ∈ P.*1 → s ∈ R) →
  let BB := (λ k, (group P k).*1) <$> keys in
  let LL := (λ k, replicate (length (group P k)) k) <$> keys in
  let BB' := (λ x, sort_flat_sids x R) <$> BB in
  ∃ keys',
    keys' ≡ₚ keys
    ∧ (sep_lab_min_sid_list ← traverse (λ x, py_getitem x 0) BB';
       min_sid_sorted_sep_lab_ind_list ←
         traverse (py_index sep_lab_min_sid_list)
           (sort_flat_sids sep_lab_min_sid_list R);
       sep_lab_list ← traverse (py_getitem LL) min_sid_sorted_sep_lab_ind_list;
       sep_lab_sid_list ← traverse (py_getitem BB') min_sid_sorted_sep_lab_ind_list;
       OK (sep_lab_sid_list, sep_lab_list))
      = OK ((λ k, sort_flat_sids (group P k).*1 R) <$> keys',
            (λ k, replicate (length (group P k)) k) <$> keys').
Proof.
  intros HP Hkeys Hne HR Hsub BB LL BB'.
  set (B' := λ k, sort_flat_sids (group P k).*1 R).
  assert (HB' : ∀ k, B' k ≡ₚ (group P k).*1).
  { intros k. apply sort_flat_sids_Permutation; [by apply group_fst_NoDup|done|].
    intros s Hs%elem_of_group_fst. apply Hsub.
    by apply (list_elem_of_fmap_2 fst) in Hs. }
  assert (HBB' : BB' = B' <$> keys).
  { unfold BB', BB. by rewrite <-list_fmap_compose. }
  assert (Hnonempty : ∀ k, k ∈ keys → B' k ≠ []).
  { intros k Hk E. apply (Hne k Hk).
    pose proof (Permutation_length (HB' k)) as Hl.
    rewrite E, length_fmap in Hl. by destruct (group P k). }
  set (m := λ k, nth 0 (B' k) (IInt 0)).
  assert (Hm : ∀ k, k ∈ keys → (m k, k) ∈ P).
  { intros k Hk. apply elem_of_group_fst. rewrite <-(HB' k). unfold m.
    specialize (Hnonempty k Hk).
    destruct (B' k) as [|s rest]; [done|by left]. }
  assert (Hmins : traverse (λ x, py_getitem x 0) BB' = OK (m <$> keys)).
  { rewrite HBB'. rewrite (traverse_OK _ (λ x, nth 0 x (IInt 0))).
    - by rewrite <-list_fmap_compose.
    - intros x (k & -> & Hk)%list_elem_of_fmap. unfold py_getitem.
      destruct (nth_lookup_or_length (B' k) 0 (IInt 0)) as [->|Hlen]; [done|].
      specialize (Hnonempty k Hk).
      destruct (B' k); [done|cbn in Hlen; lia]. }
  set (M := m <$> keys) in *.
  assert (HM : NoDup M).
  { apply NoDup_fmap_2_strong; [|done]. intros k k' Hk Hk' E.
    pose proof (Hm k Hk) as H1. pose proof (Hm k' Hk') as H2. rewrite E in H1.
    by pose proof (NoDup_fst_inj P _ _ HP H1 H2 eq_refl) as [= ->]. }
  assert (HMR : ∀ x, x ∈ M → x ∈ R).
  { intros x (k & -> & Hk)%list_elem_of_fmap. apply Hsub.
    pose proof (Hm k Hk) as Hin. by apply (list_elem_of_fmap_2 fst) in Hin. }
  pose proof (sort_flat_sids_Permutation M R HM HR HMR) as Hsorted.
  set (sorted := sort_flat_sids M R) in *.
  assert (Hinds : traverse (py_index M) sorted = OK (position M <$> sorted)).
  { apply traverse_OK. intros x Hx. apply py_index_position; [done|].
    by rewrite <-Hsorted. }
  set (I := position M <$> sorted).
  assert (HI : ∀ i, i ∈ I → i < length keys).
  { intros i (x & -> & Hx)%list_elem_of_fmap. rewrite Hsorted in Hx.
    apply list_elem_of_lookup_1 in Hx as [j Hj].
    rewrite (position_lookup M j x) by done.
    apply lookup_lt_Some in Hj. unfold M in Hj. by rewrite length_fmap in Hj. }
  set (keys' := (λ i, nth i keys (IInt 0)) <$> I).
  assert (Hkeys' : keys' ≡ₚ keys).
  { unfold keys', I. rewrite <-list_fmap_compose, Hsorted.
    match goal with |- ?l ≡ₚ _ => assert (l = keys) as ->; [|done] end.
    unfold M. rewrite <-list_fmap_compose.
    apply list_eq. intros j. rewrite list_lookup_fmap.
    destruct (keys !! j) as [k|] eqn:Hj; [|done]. cbn. f_equal.
    rewrite (position_lookup (m <$> keys) j (m k)).
    - by apply nth_lookup_Some.
    - done.
    - by rewrite list_lookup_fmap, Hj. }
  exists keys'. split; [done|].
  rewrite Hmins. cbn [mbind result_bind]. fold sorted.
  rewrite Hinds. cbn [mbind result_bind]. fold I.
  rewrite (traverse_getitem LL I [])
    by (intros i Hi; unfold LL; rewrite length_fmap; by apply HI).
  cbn [mbind result_bind].
  rewrite (traverse_getitem BB' I [])
    by (intros i Hi; rewrite HBB', length_fmap; by apply HI).
  cbn [mbind result_bind]. f_equal. f_equal.
  - rewrite HBB'. unfold keys'. rewrite <-list_fmap_compose.
    apply fmap_ext_in. intros i Hi. cbn.
    by apply nth_fmap, HI.
  - unfold LL, keys'. rewrite <-list_fmap_compose.
    apply fmap_ext_in. intros i Hi. cbn.
    by apply (nth_fmap (λ k, replicate (length (group P k)) k)), HI.
Qed.

(** ** The postconditions of [lab_sorted_sids] *)

Lemma sid_lut_keys (S Lb : list ident) :
  NoDup (np_sort (map_to_list (build_sid_lut S Lb)).*1)
  ∧ ∀ k, k ∈ np_sort (map_to_list (build_sid_lut S Lb)).*1 ↔ k ∈ Lb.
Proof.
  unfold np_sort. split.
  - rewrite merge_sort_Permutation. apply NoDup_fst_map_to_list.
  - intros k. rewrite merge_sort_Permutation, list_elem_of_fmap. split.
    + intros ([k' v] & -> & Hin%elem_of_map_to_list). cbn.
      rewrite build_sid_lut_lookup in Hin. by case_decide.
    + intros Hk. exists (k, bool_index S (eq_mask Lb k)). split; [done|].
      apply elem_of_map_to_list. rewrite build_sid_lut_lookup.
      by rewrite decide_True.
Qed.

Lemma sid_lut_bucket (S Lb : list ident) k :
  k ∈ Lb → default [] (build_sid_lut S Lb !! k) = (group (zip S Lb) k).*1.
Proof.
  intros Hk. rewrite build_sid_lut_lookup, decide_True by done. cbn.
  apply bool_index_eq_mask.
Qed.

Lemma np_concatenate_OK {A} (ls : list (list A)) :
  ls ≠ [] → np_concatenate ls = OK (concat ls).
Proof. by destruct ls. Qed.

Section ordering.
Context `{NumLib}.


End ordering.

(** ** Ordering and cross-tabulation on the scenarios of the specification *)

Section scenarios.
Context `{NumLib}.

(** C3: for an index over samples s1, s2, s3 with labels a, b, a,
    [lab_sorted_sids] without a reference order returns the samples
    s1, s3, s2 with labels a, a, b; with the reference order s3, s2, s1 the
    bucket of label a is reordered to s3, s1, the bucket of b stays s2, and
    the call returns the samples s3, s1, s2 with labels a, a, b. *)
Theorem lab_sorted_sids_scenarios x fids d metric nprocs σ self σ' :
  SingleLabelClassifiedSamples_init x labs_aba s123 fids d metric nprocs σ
  = (OK self, σ') →
  lab_sorted_sids self PyNone
  = OK ([IStr "s1"; IStr "s3"; IStr "s2"], [IStr "a"; IStr "a"; IStr "b"])
  ∧ lab_sorted_sids self ref_321
    = OK ([IStr "s3"; IStr "s1"; IStr "s2"], [IStr "a"; IStr "a"; IStr "b"])
  ∧ (λ iter_lab, sort_flat_sids (default [] (_sid_lut self !! iter_lab))
                   (np_array_ids (py_list_items ref_321)))
      <$> np_sort (map_to_list (_sid_lut self)).*1
    = [[IStr "s3"; IStr "s1"]; [IStr "s2"]].
Proof.
  intros Hinit.
  apply SingleLabelClassifiedSamples_init_OK in Hinit
    as (_ & (l & [= <-] & _ & _ & Hlabs) & _ & Hsl & _ & _ & Hsids).
  specialize (Hsids ltac:(done)).
  unfold lab_sorted_sids. rewrite !Hsl, !Hsids, !Hlabs.
  split_and!; vm_compute; reflexivity.
Qed.

(** C8: with reference labels s1:A, s2:A, s3:B and query labels s1:X, s2:Y,
    s3:X over the same samples, cross-tabulation maps A to the count 2 with
    the distribution X:1, Y:1, and B to the count 1 with the distribution
    X:1, and has no other entry. *)
Theorem cross_labs_scenario x fids d metric nprocs σ self σ'
    xq fidsq dq metricq nprocsq σq q σq' :
  SingleLabelClassifiedSamples_init x labs_AAB s123 fids d metric nprocs σ
  = (OK self, σ') →
  SingleLabelClassifiedSamples_init xq labs_XYX s123 fidsq dq metricq nprocsq σq
  = (OK q, σq') →
  cross_labs self (ArgSamples q)
  = OK (<[IStr "A" := (2, ([IStr "X"; IStr "Y"], [1; 1]))]>
          (<[IStr "B" := (1, ([IStr "X"], [1]))]> ∅)).
Proof.
  intros Hinit Hq.
  apply SingleLabelClassifiedSamples_init_OK in Hinit
    as (_ & (l & [= <-] & _ & _ & Hlabs) & _ & _ & Hll & _ & Hsids).
  apply SingleLabelClassifiedSamples_init_OK in Hq
    as (_ & (l & [= <-] & _ & _ & Hqlabs) & _ & _ & _ & _ & Hqsids).
  specialize (Hsids ltac:(done)). specialize (Hqsids ltac:(done)).
  unfold cross_labs, labs. rewrite Hll, Hsids, Hlabs, Hqsids, Hqlabs.
  vm_compute. reflexivity.
Qed.

End scenarios.

(** ** More on the correction of a distance matrix *)

Lemma float_ltb_irrefl (x : float) : PrimFloat.ltb x x = false.
Proof.
  rewrite FloatAxioms.ltb_spec. unfold SpecFloat.SFltb, SpecFloat.SFcompare.
  destruct (Prim2SF x) as [[]|[]| |[] m e]; try done;
    by rewrite Z.compare_refl, Pos.compare_cont_refl.
Qed.

Lemma repaired_not_negative ub d x :
  match ub with Some u => PrimFloat.ltb u 0 = false | None => True end →
  PrimFloat.ltb (repaired ub d x) 0 = false.
Proof.
  intros Hub. unfold repaired.
  assert (H0 : PrimFloat.ltb 0 0 = false) by reflexivity.
  assert (H1 : PrimFloat.ltb (if PrimFloat.ltb x 0 then 0%float else x) 0 = false).
  { by destruct (PrimFloat.ltb x 0) eqn:E. }
  destruct ub as [u|], d; cbn zeta; try done.
  - by rewrite Hub.
  - by destruct (PrimFloat.ltb u (if PrimFloat.ltb x 0 then 0%float else x)).
Qed.

Lemma repaired_capped u d x : PrimFloat.ltb u (repaired (Some u) d x) = false.
Proof.
  unfold repaired. cbn zeta.
  set (x2 := if d then 0%float else if PrimFloat.ltb x 0 then 0%float else x).
  destruct (PrimFloat.ltb u x2) eqn:E; [apply float_ltb_irrefl|done].
Qed.

Lemma repaired_idempotent ub d x :
  repaired ub d (repaired ub d x) = repaired ub d x.
Proof.
  unfold repaired.
  assert (H0 : PrimFloat.ltb 0 0 = false) by reflexivity.
  assert (H1 : PrimFloat.ltb (if PrimFloat.ltb x 0 then 0%float else x) 0 = false).
  { by destruct (PrimFloat.ltb x 0) eqn:E. }
  destruct ub as [u|], d; cbv beta iota zeta; [done| |done|by rewrite H1].
  set (x1 := if PrimFloat.ltb x 0 then 0%float else x) in *.
  destruct (PrimFloat.ltb u x1) eqn:E1.
  - destruct (PrimFloat.ltb u 0) eqn:Eu; [by rewrite Eu|].
    by destruct (PrimFloat.ltb u u).
  - by rewrite H1, E1.
Qed.

Lemma square_ext a b n :
  square a n → square b n →
  (∀ i j, i < n → j < n → get a i j = get b i j) → a = b.
Proof.
  intros Ha Hb Hget. pose proof Ha as [Hsa Hla]. pose proof Hb as [Hsb Hlb].
  destruct a as [sa da], b as [sb db]. cbn [shape data] in *. subst sa sb.
  f_equal. apply list_eq. intros k.
  destruct (decide (k < n * n)) as [Hk|Hk].
  - assert (0 < n) by nia.
    assert (k / n < n) by (apply Nat.Div0.div_lt_upper_bound; lia).
    assert (k mod n < n) by (apply Nat.mod_upper_bound; lia).
    pose proof (get_lookup _ n (k / n) (k mod n) Ha) as Hka.
    pose proof (get_lookup _ n (k / n) (k mod n) Hb) as Hkb.
    cbn [data] in Hka, Hkb.
    replace (k / n * n + k mod n) with k in Hka, Hkb
      by (rewrite (Nat.div_mod_eq k n) at 1; lia).
    rewrite Hka, Hkb by done. f_equal. by apply Hget.
  - rewrite !lookup_ge_None_2 by lia. done.
Qed.

Lemma corrected_idempotent a n ub :
  square a n → corrected (corrected a ub) ub = corrected a ub.
Proof.
  intros Hsq. pose proof (square_corrected a n ub Hsq) as Hsq1.
  apply (square_ext _ _ n); [by apply square_corrected|done|].
  intros i j Hi Hj.
  rewrite (get_corrected (corrected a ub) n ub i j) by done.
  rewrite !(get_corrected a n ub) by (done || lia).
  rewrite (Nat.max_l (i `max` j)), (Nat.min_r (i `max` j)) by lia.
  assert (bool_decide (i `max` j = i `min` j) = bool_decide (i = j)) as ->.
  { apply bool_decide_ext. lia. }
  apply repaired_idempotent.
Qed.

Section corrector.
Context `{NumLib}.

Lemma num_correct_dist_mat_refuses_aux dmat ub σ :
  (∀ l a, dmat = PyArr l → heap σ !! l = Some a →
          ndim a ≠ 2 ∨ shape0 a ≠ shape1 a) →
  num_correct_dist_mat dmat ub σ
  = (Raise (ValueError "dmat must be a 2D (n_samples, n_samples) np array"), σ).
Proof.
  intros Hbad. unfold num_correct_dist_mat. rewrite bind_run. unfold as_ndarray.
  destruct dmat as [| | | | | | |l]; try done.
  destruct (heap σ !! l) as [a|] eqn:Hl; [|done]. cbn [fmap option_fmap option_map].
  destruct (Hbad l a eq_refl Hl) as [Hnd|Hsh].
  - by rewrite (bool_decide_eq_true_2 (ndim a ≠ 2)) by done.
  - rewrite (bool_decide_eq_true_2 (shape0 a ≠ shape1 a)) by done.
    by rewrite orb_true_r.
Qed.

(** X1: the correction refuses, with its [ValueError], anything that is not
    a reference to a 2-D array with as many rows as columns, and in that
    case touches neither the arrays nor the warnings. *)
Theorem num_correct_dist_mat_refuses dmat ub σ :
  (∀ l a, dmat = PyArr l → heap σ !! l = Some a →
          ndim a ≠ 2 ∨ shape0 a ≠ shape1 a) →
  num_correct_dist_mat dmat ub σ
  = (Raise (ValueError "dmat must be a 2D (n_samples, n_samples) np array"), σ).
Proof. apply num_correct_dist_mat_refuses_aux. Qed.

(** X2: after a correction without upper bound, or with an upper bound that
    is not below 0, no entry of the matrix is below 0; after a correction
    with an upper bound no entry is above the bound. *)
Theorem num_correct_dist_mat_bounds l a n ub σ :
  heap σ !! l = Some a → square a n →
  ∃ σ' r, num_correct_dist_mat (PyArr l) ub σ = (OK (PyArr l), σ')
          ∧ heap σ' !! l = Some r
          ∧ (match ub with Some u => PrimFloat.ltb u 0 = false | None => True end →
             ∀ i j, i < n → j < n → PrimFloat.ltb (get r i j) 0 = false)
          ∧ ∀ u, ub = Some u →
              ∀ i j, i < n → j < n → PrimFloat.ltb u (get r i j) = false.
Proof.
  intros Hl Hsq. destruct (square_ndim a n Hsq) as [Hnd Hsh].
  destruct (num_correct_dist_mat_run l a ub σ Hl Hnd Hsh) as [w Hrun].
  eexists _, (corrected a ub). split; [exact Hrun|]. cbn [heap].
  split; [|split].
  - apply list_lookup_insert_eq. by eapply lookup_lt_Some.
  - intros Hub i j Hi Hj. rewrite (get_corrected a n) by done.
    by apply repaired_not_negative.
  - intros u -> i j Hi Hj. rewrite (get_corrected a n) by done.
    apply repaired_capped.
Qed.

(** X3: with an upper bound below 0 the last clamp overrides the zeroed
    diagonal: every diagonal entry of the corrected matrix is the bound,
    not 0. *)
Theorem num_correct_dist_mat_negative_bound l a n u σ :
  heap σ !! l = Some a → square a n → PrimFloat.ltb u 0 = true →
  ∃ σ' r, num_correct_dist_mat (PyArr l) (Some u) σ = (OK (PyArr l), σ')
          ∧ heap σ' !! l = Some r
          ∧ ∀ i, i < n → get r i i = u.
Proof.
  intros Hl Hsq Hu. destruct (square_ndim a n Hsq) as [Hnd Hsh].
  destruct (num_correct_dist_mat_run l a (Some u) σ Hl Hnd Hsh) as [w Hrun].
  eexists _, (corrected a (Some u)). split; [exact Hrun|]. cbn [heap].
  split.
  - apply list_lookup_insert_eq. by eapply lookup_lt_Some.
  - intros i Hi. rewrite (get_corrected a n) by done. unfold repaired.
    rewrite bool_decide_eq_true_2 by done. by rewrite Hu.
Qed.

(** X4: correcting a corrected matrix again, with the same upper bound,
    changes nothing: the second call leaves in the array what the first
    call left. *)
Theorem num_correct_dist_mat_twice l a n ub σ :
  heap σ !! l = Some a → square a n →
  ∃ σ1 σ2,
    num_correct_dist_mat (PyArr l) ub σ = (OK (PyArr l), σ1)
    ∧ num_correct_dist_mat (PyArr l) ub σ1 = (OK (PyArr l), σ2)
    ∧ heap σ2 = heap σ1.
Proof.
  intros Hl Hsq. destruct (square_ndim a n Hsq) as [Hnd Hsh].
  destruct (num_correct_dist_mat_run l a ub σ Hl Hnd Hsh) as [w1 Hrun1].
  assert (Hlt : l < length (heap σ)) by (by eapply lookup_lt_Some).
  set (σ1 := State (<[l:=corrected a ub]> (heap σ)) w1) in *.
  assert (Hl1 : heap σ1 !! l = Some (corrected a ub))
    by (by apply list_lookup_insert_eq).
  destruct (square_ndim _ n (square_corrected a n ub Hsq)) as [Hnd1 Hsh1].
  destruct (num_correct_dist_mat_run l _ ub σ1 Hl1 Hnd1 Hsh1) as [w2 Hrun2].
  eexists σ1, _. split_and!; [done..|].
  subst σ1. cbn [heap]. rewrite (corrected_idempotent a n) by done.
  by rewrite list_insert_insert_eq.
Qed.

End corrector.

(** ** Construction: what is stored, what is refused, what is left alone *)

Lemma shape_corrected a ub : shape (corrected a ub) = shape a.
Proof. unfold corrected, clamp_upper. by destruct ub. Qed.

Section construction_more.
Context `{NumLib}.

Lemma SampleFeatureMatrix_init_body x sids fids :
  x ≠ PyNone →
  SampleFeatureMatrix_init x sids fids
  = (h ← get_heap;
     xa ← match np_array_float64 h x with
          | OK a => mret a
          | Raise (ValueError _) => raise (ValueError "Features must be float. {}")
          | Raise e => raise e
          end;
     lx ← alloc xa;
     if bool_decide (ndim xa ≠ 2)
     then raise (ValueError "x has shape (n_samples, n_features)")
     else if bool_decide (size xa = 0)
     then raise (ValueError "size of x cannot be 0")
     else
       sids' ← lift (init_sfids sids (shape0 xa));
       fids' ← lift (init_sfids fids (shape1 xa));
       mret {| _x := lx; _sids := sids'; _fids := fids' |}).
Proof. by destruct x. Qed.

Lemma size_2d xa : ndim xa = 2 → size xa = shape0 xa * shape1 xa.
Proof.
  unfold ndim, size, shape0, shape1.
  destruct (shape xa) as [|r [|c [|??]]]; cbn; try done. lia.
Qed.

Lemma SampleFeatureMatrix_init_inv x sids fids σ self σ' :
  SampleFeatureMatrix_init x sids fids σ = (OK self, σ') →
  ∃ xa, np_array_float64 (heap σ) x = OK xa
        ∧ σ' = State (heap σ ++ [xa]) (warnings σ)
        ∧ _x self = length (heap σ)
        ∧ ndim xa = 2 ∧ size xa ≠ 0
        ∧ valid_ids (_sids self) ∧ length (_sids self) = shape0 xa
        ∧ valid_ids (_fids self) ∧ length (_fids self) = shape1 xa.
Proof.
  intros Hrun.
  assert (Hx : x ≠ PyNone) by (by intros ->).
  rewrite SampleFeatureMatrix_init_body in Hrun by done.
  apply bind_OK in Hrun as (h & σ0 & [= <- <-] & Hrun).
  apply bind_OK in Hrun as (xa & σ1 & Hxa & Hrun).
  assert (np_array_float64 (heap σ) x = OK xa ∧ σ1 = σ) as [Hconv ->].
  { destruct (np_array_float64 (heap σ) x) as [a|[]]; try done.
    by injection Hxa as -> ->. }
  apply bind_OK in Hrun as (lx & σ2 & [= <- <-] & Hrun).
  case_bool_decide as Hnd; [done|]. case_bool_decide as Hsz; [done|].
  apply bind_OK in Hrun as (sids' & σ3 & [Hs ->]%lift_OK & Hrun).
  apply bind_OK in Hrun as (fids' & σ4 & [Hf ->]%lift_OK & Hrun).
  injection Hrun as <- <-. cbn [_x _sids _fids].
  rewrite size_2d in Hsz by done.
  apply init_sfids_OK in Hs as (? & ? & _); [|lia].
  apply init_sfids_OK in Hf as (? & ? & _); [|lia].
  exists xa. split_and!; try done. rewrite size_2d by done. lia.
Qed.

(** X5: a feature matrix that construction returns owns a new array, the
    conversion of [x], appended to the store; every array that existed
    before is untouched and no warning is issued. The new array is 2-D and
    not empty, and the stored sample ids and feature ids are valid
    identifier arrays with one id per row and one id per column. *)
Theorem SampleFeatureMatrix_init_stores x sids fids σ self σ' :
  SampleFeatureMatrix_init x sids fids σ = (OK self, σ') →
  ∃ xa, np_array_float64 (heap σ) x = OK xa
        ∧ σ' = State (heap σ ++ [xa]) (warnings σ)
        ∧ _x self = length (heap σ)
        ∧ ndim xa = 2 ∧ size xa ≠ 0
        ∧ valid_ids (_sids self) ∧ length (_sids self) = shape0 xa
        ∧ valid_ids (_fids self) ∧ length (_fids self) = shape1 xa.
Proof. apply SampleFeatureMatrix_init_inv. Qed.

(** X6: when the sample ids are left out the stored sample ids are the row
    numbers 0, 1, ..., one per row of the matrix; when they are given, the
    stored sample ids are the array [np.array] makes of the given list, and
    they are the given list itself when its elements are integers that fit
    64 signed bits or strings that do not end in a NUL character. The same
    holds for the feature ids and the columns. *)
Theorem SampleFeatureMatrix_init_ids x sids fids σ self σ' :
  SampleFeatureMatrix_init x sids fids σ = (OK self, σ') →
  (sids = PyNone → _sids self = range_ids (length (_sids self)))
  ∧ (sids ≠ PyNone →
     _sids self = np_array_ids (py_list_items sids)
     ∧ (Forall (λ v, np_exact v = true) (py_list_items sids) →
        ident_to_py <$> _sids self = py_list_items sids))
  ∧ (fids = PyNone → _fids self = range_ids (length (_fids self)))
  ∧ (fids ≠ PyNone →
     _fids self = np_array_ids (py_list_items fids)
     ∧ (Forall (λ v, np_exact v = true) (py_list_items fids) →
        ident_to_py <$> _fids self = py_list_items fids)).
Proof.
  intros Hrun.
  assert (Hx : x ≠ PyNone) by (by intros ->).
  rewrite SampleFeatureMatrix_init_body in Hrun by done.
  apply bind_OK in Hrun as (h & σ0 & _ & Hrun).
  apply bind_OK in Hrun as (xa & σ1 & _ & Hrun).
  apply bind_OK in Hrun as (lx & σ2 & _ & Hrun).
  case_bool_decide as Hnd; [done|]. case_bool_decide as Hsz; [done|].
  apply bind_OK in Hrun as (sids' & σ3 & [Hs ->]%lift_OK & Hrun).
  apply bind_OK in Hrun as (fids' & σ4 & [Hf ->]%lift_OK & Hrun).
  injection Hrun as <- <-. cbn [_x _sids _fids].
  assert (Hids : ∀ ids n S, init_sfids ids n = OK S →
            (ids = PyNone → S = range_ids (length S))
            ∧ (ids ≠ PyNone →
               S = np_array_ids (py_list_items ids)
               ∧ (Forall (λ v, np_exact v = true) (py_list_items ids) →
                  ident_to_py <$> S = py_list_items ids))).
  { clear. intros ids n S Hi. split.
    - intros ->. injection Hi as <-. unfold range_ids.
      by rewrite length_fmap, length_seq.
    - intros Hne. unfold init_sfids in Hi.
      destruct ids as [| | | | |l| |]; try done.
      apply result_bind_OK in Hi as ([] & Hc & Hi). cbn [py_list_items] in *.
      case_bool_decide; [done|]. injection Hi as <-.
      apply check_is_valid_sfids_iff in Hc as (l' & [= <-] & _ & Hh & _).
      split; [done|]. intros Hex. by apply np_array_ids_exact. }
  destruct (Hids _ _ _ Hs), (Hids _ _ _ Hf). done.
Qed.

(** X7: sample ids that pass validation but whose number differs from the
    number of rows of the matrix are refused with the shape error, after
    the converted matrix has been created. *)
Theorem SampleFeatureMatrix_init_sids_mismatch x sids fids σ xa l :
  x ≠ PyNone → np_array_float64 (heap σ) x = OK xa →
  ndim xa = 2 → size xa ≠ 0 →
  sids = PyList l → check_is_valid_sfids sids = OK () →
  length l ≠ shape0 xa →
  SampleFeatureMatrix_init x sids fids σ
  = (Raise (ValueError "x has shape (n_samples, n_features)"),
     State (heap σ ++ [xa]) (warnings σ)).
Proof.
  intros Hx Hxa Hnd Hsz -> Hc Hlen.
  rewrite SampleFeatureMatrix_init_body by done.
  rewrite bind_run. cbn [get_heap]. unfold get_heap.
  rewrite bind_run, Hxa. cbn [mret M_ret].
  rewrite bind_run. unfold alloc.
  rewrite bool_decide_eq_false_2 by (by intros ?).
  rewrite bool_decide_eq_false_2 by done.
  rewrite bind_run. unfold lift, init_sfids. rewrite Hc. cbn [mbind result_bind].
  cbn [py_list_items]. by rewrite bool_decide_eq_true_2.
Qed.

Lemma SampleDistanceMatrix_init_body x d metric sids fids nprocs :
  d ≠ PyNone →
  SampleDistanceMatrix_init x d metric sids fids nprocs
  = (super ← SampleFeatureMatrix_init x sids fids;
     ld ← (h ← get_heap;
           da ← match np_array_float64 h d with
                | OK a => mret a
                | Raise (ValueError _) => raise (ValueError "d must be float. {}")
                | Raise e => raise e
                end;
           ld ← alloc da;
           xa ← read_arr (_x super);
           if bool_decide (ndim da ≠ 2) || bool_decide (shape0 da ≠ shape1 da)
              || bool_decide (shape0 da ≠ shape0 xa)
           then raise (ValueError "d should have shape (n_samples, n_samples)")
           else mret ld);
     d' ← num_correct_dist_mat (PyArr ld) None;
     mret {| sdm_super := super; _d := d'; _tsne_lut := ∅; _metric := metric |}).
Proof. by destruct d. Qed.

Lemma SampleDistanceMatrix_init_inv x d metric sids fids nprocs σ self σ' :
  SampleDistanceMatrix_init x d metric sids fids nprocs σ = (OK self, σ') →
  ∃ xa da,
    heap σ' = heap σ ++ [xa; corrected da None]
    ∧ _x (sdm_super self) = length (heap σ)
    ∧ _d self = PyArr (S (length (heap σ)))
    ∧ ndim da = 2 ∧ shape0 da = shape1 da
    ∧ _metric self = metric ∧ _tsne_lut self = ∅
    ∧ (d ≠ PyNone →
       np_array_float64 (heap σ ++ [xa]) d = OK da
       ∧ shape0 da = length (_sids (sdm_super self)))
    ∧ (d = PyNone →
       ∃ m, metric = PyStr m
            ∧ pairwise_distances (heap σ ++ [xa]) x m
                (match nprocs with None => 1%Z | Some n => Z.max n 1 end) = OK da).
Proof.
  intros Hrun.
  assert (Hcommon : ∀ super σ1 xa ld da σ2 d' σ3,
    σ1 = State (heap σ ++ [xa]) (warnings σ) →
    _x super = length (heap σ) →
    ld = length (heap σ1) → σ2 = State (heap σ1 ++ [da]) (warnings σ1) →
    num_correct_dist_mat (PyArr ld) None σ2 = (OK d', σ3) →
    heap σ3 = heap σ ++ [xa; corrected da None]
    ∧ d' = PyArr (S (length (heap σ))) ∧ ndim da = 2 ∧ shape0 da = shape1 da).
  { intros super σ1 xa ld da σ2 d' σ3 -> Hx -> -> Hcorr. cbn [heap warnings] in *.
    assert (Hld : (heap σ ++ [xa] ++ [da]) !! length (heap σ ++ [xa]) = Some da).
    { rewrite (assoc (++)). by rewrite lookup_app_r, Nat.sub_diag. }
    rewrite <-(assoc (++)) in Hcorr.
    destruct (decide (ndim da = 2)) as [Hnd|Hnd];
      [destruct (decide (shape0 da = shape1 da)) as [Hsh|Hsh]|].
    - destruct (num_correct_dist_mat_run _ da None
                  (State (heap σ ++ [xa] ++ [da]) (warnings σ)) Hld Hnd Hsh)
        as [w Hrun'].
      rewrite Hrun' in Hcorr. injection Hcorr as <- <-. cbn [heap].
      rewrite length_app. cbn [length].
      split_and!; [|f_equal; lia|done..].
      rewrite insert_app_r_alt by lia.
      by replace (length (heap σ) + 1 - length (heap σ)) with 1 by lia.
    - rewrite num_correct_dist_mat_refuses_aux in Hcorr; [done|].
      intros l a [= <-] Ha. right.
      by pose proof (eq_trans (eq_sym Ha) Hld) as [= ->].
    - rewrite num_correct_dist_mat_refuses_aux in Hcorr; [done|].
      intros l a [= <-] Ha. left.
      by pose proof (eq_trans (eq_sym Ha) Hld) as [= ->]. }
  assert (d = PyNone ∨ d ≠ PyNone) as [->|Hd]
    by (destruct d; (by left) || (by right)).
  - unfold SampleDistanceMatrix_init in Hrun.
    apply bind_OK in Hrun as (super & σ1 & Hsuper & Hrun).
    apply SampleFeatureMatrix_init_inv in Hsuper
      as (xa & _ & -> & Hx & _).
    apply bind_OK in Hrun as (ld & σ2 & Hd & Hrun).
    apply bind_OK in Hrun as (d' & σ3 & Hcorr & Hrun).
    injection Hrun as <- <-. cbn [sdm_super _d _metric _tsne_lut].
    destruct metric as [| | | |m| | |]; try done.
    apply bind_OK in Hd as (h & σ4 & [= <- <-] & Hd).
    apply bind_OK in Hd as (da & σ5 & [Hda ->]%lift_OK & Hd).
    injection Hd as <- <-. cbn [heap] in Hda.
    destruct (Hcommon super _ xa _ da _ d' σ3 eq_refl Hx eq_refl eq_refl Hcorr)
      as (? & ? & ? & ?).
    exists xa, da. split_and!; try done. intros _. by exists m.
  - rewrite SampleDistanceMatrix_init_body in Hrun by done.
    apply bind_OK in Hrun as (super & σ1 & Hsuper & Hrun).
    apply SampleFeatureMatrix_init_inv in Hsuper
      as (xa & _ & -> & Hx & _ & _ & _ & Hlen & _).
    apply bind_OK in Hrun as (ld & σ2 & Hd' & Hrun).
    apply bind_OK in Hrun as (d' & σ3 & Hcorr & Hrun).
    injection Hrun as <- <-. cbn [sdm_super _d _metric _tsne_lut].
    apply bind_OK in Hd' as (h & σ4 & [= <- <-] & Hd').
    apply bind_OK in Hd' as (da & σ5 & Hda & Hd').
    cbn [heap] in Hda.
    assert (np_array_float64 (heap σ ++ [xa]) d = OK da
            ∧ σ5 = State (heap σ ++ [xa]) (warnings σ)) as [Hconv ->].
    { destruct (np_array_float64 (heap σ ++ [xa]) d) as [a|[]]; try done.
      by injection Hda as -> ->. }
    apply bind_OK in Hd' as (ld' & σ6 & [= <- <-] & Hd').
    apply bind_OK in Hd' as (xa' & σ7 & Hread & Hd').
    unfold read_arr in Hread. cbn [heap] in Hread. rewrite Hx in Hread.
    rewrite (lookup_app_l (heap σ ++ [xa])) in Hread
      by (rewrite length_app; cbn; lia).
    rewrite lookup_app_r, Nat.sub_diag in Hread by done.
    injection Hread as <- <-.
    destruct (bool_decide (ndim da ≠ 2) || bool_decide (shape0 da ≠ shape1 da)
              || bool_decide (shape0 da ≠ shape0 xa)) eqn:Hchk; [done|].
    injection Hd' as <- <-.
    apply orb_false_elim in Hchk as [_ Hsh0].
    apply bool_decide_eq_false in Hsh0. apply dec_stable in Hsh0.
    destruct (Hcommon super _ xa _ da _ d' σ3 eq_refl Hx eq_refl eq_refl Hcorr)
      as (? & ? & ? & ?).
    exists xa, da. split_and!; try done. intros _. split; [done|]. congruence.
Qed.

(** X8: a sample distance matrix that construction returns holds two new
    arrays, appended to the store in this order: the converted [x] and the
    corrected distance matrix, which is 2-D with as many rows as columns.
    Every array that existed before, a supplied [d] included, is untouched.
    A supplied [d] is stored with exactly one row per sample and with
    whatever [metric] was passed; a computed one comes from the distance
    routine called with a string metric. *)
Theorem SampleDistanceMatrix_init_stores x d metric sids fids nprocs σ self σ' :
  SampleDistanceMatrix_init x d metric sids fids nprocs σ = (OK self, σ') →
  ∃ xa da,
    heap σ' = heap σ ++ [xa; corrected da None]
    ∧ _x (sdm_super self) = length (heap σ)
    ∧ _d self = PyArr (S (length (heap σ)))
    ∧ ndim da = 2 ∧ shape0 da = shape1 da
    ∧ _metric self = metric ∧ _tsne_lut self = ∅
    ∧ (d ≠ PyNone →
       np_array_float64 (heap σ ++ [xa]) d = OK da
       ∧ shape0 da = length (_sids (sdm_super self)))
    ∧ (d = PyNone →
       ∃ m, metric = PyStr m
            ∧ pairwise_distances (heap σ ++ [xa]) x m
                (match nprocs with None => 1%Z | Some n => Z.max n 1 end) = OK da).
Proof. apply SampleDistanceMatrix_init_inv. Qed.

(** X9: with the distance matrix left out, a metric that is [None] is
    refused with the missing-metric error and any other metric that is not a
    string with "metric must be string", in both cases after the feature
    matrix has been built; passing [metric=None] explicitly to the labelled
    index is refused the same way. *)
Theorem init_metric_refused x labs sids fids metric nprocs σ super σ1 :
  SampleFeatureMatrix_init x sids fids σ = (OK super, σ1) →
  (∀ m, metric ≠ PyStr m) →
  let e := match metric with
           | PyNone => missing_metric
           | _ => ValueError "metric must be string"
           end in
  SampleDistanceMatrix_init x PyNone metric sids fids nprocs σ = (Raise e, σ1)
  ∧ SingleLabelClassifiedSamples_init x labs sids fids PyNone (Some metric) nprocs σ
    = (Raise e, σ1).
Proof.
  intros Hsuper Hm e.
  assert (Hsdm : SampleDistanceMatrix_init x PyNone metric sids fids nprocs σ
                 = (Raise e, σ1)).
  { unfold SampleDistanceMatrix_init. rewrite bind_run, Hsuper, bind_run.
    destruct metric as [| | | |m| | |]; try done. by destruct (Hm m). }
  split; [done|].
  unfold SingleLabelClassifiedSamples_init. cbv zeta.
  change (default (PyStr "correlation") (Some metric)) with metric.
  by rewrite bind_run, Hsdm.
Qed.

(** X10: a supplied distance matrix that converts to an array which is not
    2-D, not square, or whose side differs from the number of samples is
    refused with the shape error; the arrays that existed before are
    untouched. *)
Theorem SampleDistanceMatrix_init_d_shape x d metric sids fids nprocs σ super σ1 da :
  SampleFeatureMatrix_init x sids fids σ = (OK super, σ1) →
  d ≠ PyNone → np_array_float64 (heap σ1) d = OK da →
  ndim da ≠ 2 ∨ shape0 da ≠ shape1 da ∨ shape0 da ≠ length (_sids super) →
  SampleDistanceMatrix_init x d metric sids fids nprocs σ
  = (Raise (ValueError "d should have shape (n_samples, n_samples)"),
     State (heap σ1 ++ [da]) (warnings σ1)).
Proof.
  intros Hsuper Hd Hda Hbad.
  rewrite SampleDistanceMatrix_init_body by done.
  rewrite bind_run, Hsuper.
  apply SampleFeatureMatrix_init_inv in Hsuper
    as (xa & _ & -> & Hx & _ & _ & _ & Hlen & _).
  cbn [heap warnings] in *.
  rewrite bind_run, bind_run. unfold get_heap. cbn [heap].
  rewrite bind_run, Hda. cbn [mret M_ret].
  rewrite bind_run. unfold alloc. cbn [heap warnings].
  rewrite bind_run. unfold read_arr. cbn [heap]. rewrite Hx.
  rewrite (lookup_app_l (heap σ ++ [xa])) by (rewrite length_app; cbn; lia).
  rewrite lookup_app_r, Nat.sub_diag by done. cbn [lookup list_lookup].
  assert (bool_decide (ndim da ≠ 2) || bool_decide (shape0 da ≠ shape1 da)
          || bool_decide (shape0 da ≠ shape0 xa) = true) as ->; [|done].
  rewrite !orb_true_iff, !bool_decide_eq_true. rewrite <-Hlen. tauto.
Qed.

(** X11: the [d] property hands out a copy: for a constructed object it
    returns a reference to a new array with the stored values, and a
    correction applied to that copy, whatever the upper bound, leaves the
    stored distance matrix as it was. *)
Theorem SampleDistanceMatrix_d_is_copy x d metric sids fids nprocs σ self σ' ub :
  SampleDistanceMatrix_init x d metric sids fids nprocs σ = (OK self, σ') →
  ∃ l a σ1 σ2,
    _d self = PyArr l ∧ heap σ' !! l = Some a
    ∧ SampleDistanceMatrix_d self σ' = (OK (PyArr (length (heap σ'))), σ1)
    ∧ heap σ1 = heap σ' ++ [a]
    ∧ num_correct_dist_mat (PyArr (length (heap σ'))) ub σ1
      = (OK (PyArr (length (heap σ'))), σ2)
    ∧ heap σ2 !! l = Some a.
Proof.
  intros Hrun.
  apply SampleDistanceMatrix_init_inv in Hrun
    as (xa & da & Hheap & _ & Hd & Hnd & Hsh & _).
  set (a := corrected da None) in *. set (l := S (length (heap σ))) in *.
  assert (Hl : heap σ' !! l = Some a).
  { rewrite Hheap. unfold l. rewrite lookup_app_r by lia.
    by replace (S (length (heap σ)) - length (heap σ)) with 1 by lia. }
  assert (Hlt : l < length (heap σ')) by (by eapply lookup_lt_Some).
  set (σ1 := State (heap σ' ++ [a]) (warnings σ')).
  assert (Hcopy : heap σ1 !! length (heap σ') = Some a).
  { cbn [heap σ1]. by rewrite lookup_app_r, Nat.sub_diag. }
  assert (Hnda : ndim a = 2 ∧ shape0 a = shape1 a).
  { unfold ndim, shape0, shape1, a in *. by rewrite shape_corrected. }
  destruct Hnda as [Hnda Hsha].
  destruct (num_correct_dist_mat_run _ a ub σ1 Hcopy Hnda Hsha) as [w Hrun2].
  eexists l, a, σ1, _. split_and!; [done|done| |done|exact Hrun2|].
  - unfold SampleDistanceMatrix_d. rewrite bind_run. unfold as_ndarray.
    rewrite Hd. cbv beta iota.
    assert (Hl' : @lookup loc ndarray (list ndarray) _ l (heap σ') = Some a)
      by exact Hl.
    rewrite Hl'.
    cbn [fmap option_fmap option_map]. by rewrite bind_run.
  - subst σ1. cbn [heap]. rewrite list_lookup_insert_ne by lia.
    by rewrite lookup_app_l.
Qed.

End construction_more.

(** ** The lookup tables of a labelled index *)

Lemma foldl_insert_pairs_lookup_inv `{Countable K} {V}
    (ps : list (K * V)) (k : K) (v : V) :
  foldl (λ acc p, <[p.1 := p.2]> acc) (∅ : gmap K V) ps !! k = Some v →
  (k, v) ∈ ps.
Proof.
  induction ps as [|[k' v'] ps IH] using rev_ind;
    [cbn; by rewrite lookup_empty|].
  rewrite foldl_app. cbn. destruct (decide (k' = k)) as [->|Hne].
  - rewrite lookup_insert_eq. intros [= ->]. apply elem_of_app. right. by left.
  - rewrite lookup_insert_ne by done. intros Hk%IH. apply elem_of_app. by left.
Qed.

Lemma build_lab_lut_lookup_iff sids labs s l :
  NoDup sids → length sids = length labs →
  build_lab_lut sids labs !! s = Some l ↔ (s, l) ∈ zip sids labs.
Proof.
  intros Hnd Hlen. split.
  - apply foldl_insert_pairs_lookup_inv.
  - by apply build_lab_lut_lookup.
Qed.

Lemma traverse_Forall2 {A B} (f : A → result B) (l : list A) (l' : list B) :
  Forall2 (λ x y, f x = OK y) l l' → traverse f l = OK l'.
Proof.
  induction 1 as [|x y l l' Hxy _ IH]; [done|]. cbn. by rewrite Hxy, IH.
Qed.

Lemma traverse_Raise {A B} (f : A → result B) (l : list A) (e : exn) :
  (∀ x, x ∈ l → (∃ y, f x = OK y) ∨ f x = Raise e) →
  (∃ x, x ∈ l ∧ f x = Raise e) →
  traverse f l = Raise e.
Proof.
  induction l as [|x l IH]; intros Hall (z & Hz & Hfz).
  { by apply not_elem_of_nil in Hz. }
  cbn. destruct (Hall x) as [[y Hy]| ->]; [by left| |done].
  rewrite Hy. cbn.
  apply elem_of_cons in Hz as [->|Hz]; [congruence|].
  rewrite IH; [done| |by exists z].
  intros ??. apply Hall. by right.
Qed.

Section tables.
Context `{NumLib}.

(** X12: in a constructed index the two lookup tables say the same thing as
    the sample ids and labels: the sample table maps [s] to [l] exactly
    when sample [s] carries label [l], and the label table maps [l] to a
    non-empty tuple holding exactly the samples the sample table maps to
    [l]. *)
Theorem lookup_tables_consistent
    x labs0 sids0 fids d metric nprocs σ self σ' :
  SingleLabelClassifiedSamples_init x labs0 sids0 fids d metric nprocs σ
  = (OK self, σ') →
  (∀ s l, _lab_lut self !! s = Some l ↔ (s, l) ∈ zip (sids self) (labs self))
  ∧ (∀ l ids, _sid_lut self !! l = Some ids →
       ids ≠ [] ∧ ∀ s, s ∈ ids ↔ _lab_lut self !! s = Some l)
  ∧ (∀ l, is_Some (_sid_lut self !! l) ↔ l ∈ labs self).
Proof.
  intros Hinit. unfold labs.
  apply SingleLabelClassifiedSamples_init_OK in Hinit
    as ((_ & _ & Hnd) & _ & Hlen & Hsl & Hll & _).
  assert (Hlab : ∀ s l, _lab_lut self !! s = Some l
                        ↔ (s, l) ∈ zip (sids self) (_labs self)).
  { intros s l. rewrite Hll. by apply build_lab_lut_lookup_iff. }
  split_and!; [done| |].
  - intros l ids. rewrite Hsl, build_sid_lut_lookup.
    case_decide as Hl; [|done]. intros [= <-].
    rewrite bool_index_eq_mask. fold (group (zip (sids self) (_labs self)) l).
    split.
    + intros E%fmap_nil_inv.
      assert (Hin : l ∈ (zip (sids self) (_labs self)).*2)
        by (by rewrite snd_zip by lia).
      apply list_elem_of_fmap in Hin as ([s l'] & -> & Hin).
      assert (Hg : (s, l') ∈ group (zip (sids self) (_labs self)) l')
        by (by apply list_elem_of_filter).
      cbn in E. rewrite E in Hg. by apply not_elem_of_nil in Hg.
    + intros s. by rewrite elem_of_group_fst, Hlab.
  - intros l. rewrite Hsl, build_sid_lut_lookup.
    case_decide; [by split; [|eexists]|]. by split; [intros []|].
Qed.

(** X13: looking up a label that no sample carries, or a sample id that is
    not in the index, fails with [KeyError], wherever it stands among the
    requested labels or ids. *)
Theorem lookups_unknown_key
    x labs0 sids0 fids d metric nprocs σ self σ' (ls ss : list ident) :
  SingleLabelClassifiedSamples_init x labs0 sids0 fids d metric nprocs σ
  = (OK self, σ') →
  ((∃ l, l ∈ ls ∧ l ∉ labs self) → labs_to_sids self ls = Raise KeyError)
  ∧ ((∃ s, s ∈ ss ∧ s ∉ sids self) → sids_to_labs self ss = Raise KeyError).
Proof.
  intros Hinit. unfold labs.
  apply SingleLabelClassifiedSamples_init_OK in Hinit
    as ((_ & _ & Hnd) & _ & Hlen & Hsl & Hll & _).
  split.
  - intros (l & Hl & Hnot). unfold labs_to_sids. apply traverse_Raise.
    + intros y _. destruct (_sid_lut self !! y); eauto.
    + exists l. split; [done|]. rewrite Hsl, build_sid_lut_lookup.
      by rewrite decide_False.
  - intros (s & Hs & Hnot). unfold sids_to_labs. apply traverse_Raise.
    + intros y _. destruct (_lab_lut self !! y); eauto.
    + exists s. split; [done|].
      destruct (_lab_lut self !! s) as [l|] eqn:E; [|done].
      rewrite Hll in E. apply foldl_insert_pairs_lookup_inv in E.
      destruct Hnot. apply (list_elem_of_fmap_2 fst) in E.
      by rewrite fst_zip in E by lia.
Qed.

(** X14: asking a constructed index for the labels of all its sample ids,
    in its own order, gives back its label array. *)
Theorem sids_to_labs_all x labs0 sids0 fids d metric nprocs σ self σ' :
  SingleLabelClassifiedSamples_init x labs0 sids0 fids d metric nprocs σ
  = (OK self, σ') →
  sids_to_labs self (sids self) = OK (labs self).
Proof.
  intros Hinit. unfold labs.
  apply SingleLabelClassifiedSamples_init_OK in Hinit
    as ((_ & _ & Hnd) & _ & Hlen & _ & Hll & _).
  unfold sids_to_labs. apply traverse_Forall2.
  apply Forall2_same_length_lookup. split; [done|].
  intros i s l Hs Hl. rewrite Hll.
  rewrite (build_lab_lut_lookup _ _ s l); [done..|].
  apply list_elem_of_lookup. exists i.
  by rewrite lookup_zip_with, Hs, Hl.
Qed.

End tables.

(** ** Filtering by class size *)

Lemma bool_index_fmap_mask {A} (g : A → bool) (l : list A) :
  bool_index l (g <$> l) = filter (λ x, g x = true) l.
Proof.
  induction l as [|x l IH]; [done|].
  rewrite fmap_cons. cbn [bool_index]. rewrite filter_cons.
  destruct (g x) eqn:E.
  - rewrite decide_True by done. by rewrite IH.
  - rewrite decide_False by done. done.
Qed.

Lemma bool_index_zip_fst {A B} (g : B → bool) (xs : list A) (ys : list B) :
  bool_index xs (g <$> ys) = (filter (λ p, g p.2 = true) (zip xs ys)).*1.
Proof.
  revert ys. induction xs as [|x xs IH]; intros [|y ys]; try done.
  rewrite fmap_cons. cbn [bool_index zip_with]. rewrite filter_cons. cbn [snd].
  destruct (g y) eqn:E.
  - rewrite decide_True, fmap_cons by done. cbn [fst]. by rewrite IH.
  - rewrite decide_False by done. apply IH.
Qed.

Lemma bool_index_zip_snd {A B} (g : B → bool) (xs : list A) (ys : list B) :
  length xs = length ys →
  bool_index ys (g <$> ys) = (filter (λ p, g p.2 = true) (zip xs ys)).*2.
Proof.
  revert ys. induction xs as [|x xs IH]; intros [|y ys] Hlen; try done.
  rewrite fmap_cons. cbn [bool_index zip_with]. rewrite filter_cons. cbn [snd].
  cbn [length] in Hlen.
  destruct (g y) eqn:E.
  - rewrite decide_True, fmap_cons by done. cbn [snd]. rewrite IH by lia. done.
  - rewrite decide_False by done. apply IH. lia.
Qed.

Lemma filter_ext_in {A} (P Q : A → Prop) `{∀ x, Decision (P x)}
    `{∀ x, Decision (Q x)} (l : list A) :
  (∀ x, x ∈ l → P x ↔ Q x) → filter P l = filter Q l.
Proof.
  induction l as [|x l IH]; intros HPQ; [done|].
  rewrite !filter_cons.
  assert (Hx : P x ↔ Q x) by (apply HPQ; by left).
  rewrite IH by (intros ??; apply HPQ; by right).
  destruct (decide (P x)), (decide (Q x)); tauto.
Qed.

Lemma filter_all_in {A} (P : A → Prop) `{∀ x, Decision (P x)} (l : list A) :
  (∀ x, x ∈ l → P x) → filter P l = l.
Proof.
  induction l as [|x l IH]; intros HP; [done|].
  rewrite filter_cons_True by (apply HP; by left).
  rewrite IH; [done|]. intros ??. apply HP. by right.
Qed.

Lemma count_of_pos u l : u ∈ l → 0 < count_of u l.
Proof.
  intros Hu. unfold count_of.
  assert (Hin : u ∈ filter (λ x, x = u) l) by (by apply list_elem_of_filter).
  destruct (filter (λ x, x = u) l); [by apply not_elem_of_nil in Hin|cbn; lia].
Qed.

Section class_size.
Context `{NumLib}.

(** X15: [filter_min_class_n] returns, in the order of the index, exactly
    the sample ids and labels of the samples whose label is carried by at
    least [min_class_n] samples; with [min_class_n] at most 1 it returns
    all sample ids and labels. *)
Theorem filter_min_class_n_keeps
    x labs0 sids0 fids d metric nprocs σ self σ' (min_class_n : Z) :
  SingleLabelClassifiedSamples_init x labs0 sids0 fids d metric nprocs σ
  = (OK self, σ') →
  let kept := filter (λ p, (min_class_n ≤ Z.of_nat (count_of p.2 (labs self)))%Z)
                (zip (sids self) (labs self)) in
  filter_min_class_n self min_class_n = (kept.*1, kept.*2)
  ∧ ((min_class_n ≤ 1)%Z →
     filter_min_class_n self min_class_n = (sids self, labs self)).
Proof.
  intros Hinit kept. unfold labs in *.
  apply SingleLabelClassifiedSamples_init_OK in Hinit
    as (_ & _ & Hlen & _).
  set (S := sids self) in *. set (Lb := _labs self) in *.
  set (sel := bool_index (np_unique_counts Lb).1
                ((λ c, (min_class_n <=? Z.of_nat c)%Z) <$> (np_unique_counts Lb).2)).
  assert (Hsel : ∀ l, l ∈ Lb →
            l ∈ sel ↔ (min_class_n ≤ Z.of_nat (count_of l Lb))%Z).
  { intros l Hl. unfold sel, np_unique_counts. cbn [fst snd].
    rewrite <-list_fmap_compose, bool_index_fmap_mask, list_elem_of_filter.
    cbn. rewrite Z.leb_le, elem_of_np_unique. tauto. }
  assert (Hkept : filter (λ p : ident * ident, bool_decide (p.2 ∈ sel) = true)
                    (zip S Lb) = kept).
  { apply filter_ext_in. intros [s l] Hp. cbn [snd].
    rewrite bool_decide_eq_true. apply Hsel.
    apply (list_elem_of_fmap_2 snd) in Hp. by rewrite snd_zip in Hp by lia. }
  assert (Hval : filter_min_class_n self min_class_n = (kept.*1, kept.*2)).
  { unfold filter_min_class_n. cbv zeta. fold S Lb sel. unfold in1d.
    rewrite (bool_index_zip_fst (λ x, bool_decide (x ∈ sel)) S Lb).
    rewrite (bool_index_zip_snd (λ x, bool_decide (x ∈ sel)) S Lb) by done.
    by rewrite Hkept. }
  split; [done|]. intros Hmin. rewrite Hval.
  assert (kept = zip S Lb) as ->.
  { unfold kept. apply filter_all_in. intros [s l] Hp. cbn [snd].
    apply (list_elem_of_fmap_2 snd) in Hp. rewrite snd_zip in Hp by lia.
    apply count_of_pos in Hp. unfold Lb in *. cbn [snd] in Hp. lia. }
  by rewrite fst_zip, snd_zip by lia.
Qed.

End class_size.

(** ** Cross-tabulation *)






Section cross_tabulation.
Context `{NumLib}.

(** X16: cross-tabulation refuses a query that is not a labelled index with
    a [TypeError], and a query index holding a sample id that this index
    does not have with its "query sid ... is not in ref sids" [ValueError]. *)
Theorem cross_labs_refuses
    x labs0 sids0 fids d metric nprocs σ self σ' (q : SingleLabelClassifiedSamples) v :
  SingleLabelClassifiedSamples_init x labs0 sids0 fids d metric nprocs σ
  = (OK self, σ') →
  cross_labs self (ArgOther v)
  = Raise (TypeError "Query should be an instance of SingleLabelClassifiedSamples")
  ∧ ((∃ s, s ∈ sids q ∧ s ∉ sids self) →
     cross_labs self (ArgSamples q)
     = Raise (ValueError "query sid {} is not in ref sids.")).
Proof.
  intros Hinit. split; [done|]. intros (s & Hs & Hnot).
  apply SingleLabelClassifiedSamples_init_OK in Hinit
    as ((_ & _ & Hnd) & _ & Hlen & _ & Hll & _).
  unfold cross_labs.
  rewrite (traverse_Raise _ _ (ValueError "query sid {} is not in ref sids."));
    [done| |].
  - intros y _. destruct (_lab_lut self !! y); eauto.
  - exists s. split; [done|].
    destruct (_lab_lut self !! s) as [l|] eqn:E; [|done].
    rewrite Hll in E. apply foldl_insert_pairs_lookup_inv in E.
    destruct Hnot. apply (list_elem_of_fmap_2 fst) in E.
    by rewrite fst_zip in E by lia.
Qed.


End cross_tabulation.

(** ** More on [lab_sorted_sids] *)

Lemma elem_of_concat {A} (ls : list (list A)) (y : A) :
  y ∈ concat ls ↔ ∃ l, l ∈ ls ∧ y ∈ l.
Proof.
  induction ls as [|l ls IH]; cbn.
  - split; [by intros ?%not_elem_of_nil|].
    by intros (l & ?%not_elem_of_nil & _).
  - rewrite elem_of_app, IH. split.
    + intros [Hy|(l' & Hl' & Hy)]; [exists l; split; [by left|done]|].
      exists l'. split; [by right|done].
    + intros (l' & [->|Hl']%elem_of_cons & Hy); [by left|right; eauto].
Qed.

Lemma sid_lut_keys_unique (S Lb : list ident) :
  np_sort (map_to_list (build_sid_lut S Lb)).*1 = np_unique Lb.
Proof.
  destruct (sid_lut_keys S Lb) as [Hnd Hin].
  unfold np_unique, np_sort in *.
  apply (Sorted_unique ident_le); [apply Sorted_merge_sort, _..|].
  apply NoDup_Permutation; [done| |].
  - rewrite merge_sort_Permutation. apply NoDup_remove_dups.
  - intros k. by rewrite Hin, merge_sort_Permutation, elem_of_remove_dups.
Qed.

Lemma np_unique_StronglySorted l : StronglySorted ident_le (np_unique l).
Proof. unfold np_unique, np_sort. apply StronglySorted_merge_sort; apply _. Qed.

Lemma replicate_runs_sorted (n : ident → nat) (ks : list ident) :
  StronglySorted ident_le ks →
  StronglySorted ident_le (concat ((λ k, replicate (n k) k) <$> ks)).
Proof.
  induction 1 as [|k ks Hks IH Hall]; [constructor|].
  cbn. apply StronglySorted_app. split_and!; [| |done].
  - intros x1 x2 [-> _]%elem_of_replicate (l & Hl & Hx2)%elem_of_concat.
    apply list_elem_of_fmap in Hl as (k' & -> & Hk').
    apply elem_of_replicate in Hx2 as [-> _].
    rewrite Forall_forall in Hall. by apply Hall.
  - induction (n k) as [|m IHm]; [constructor|]. cbn. constructor; [done|].
    apply Forall_forall. intros x [-> _]%elem_of_replicate.
    by destruct (total ident_le k k).
Qed.

Lemma filter_none {A} (P : A → Prop) `{∀ x, Decision (P x)} (l : list A) :
  (∀ x, x ∈ l → ¬ P x) → filter P l = [].
Proof.
  induction l as [|x l IH]; intros Hl; [done|].
  rewrite filter_cons_False by (apply Hl; by left).
  apply IH. intros y Hy. apply Hl. by right.
Qed.

Lemma filter_group_concat P (keys : list ident) k :
  NoDup keys → (∀ p, p ∈ P → p.2 ∈ keys) →
  filter (λ p, p.2 = k) (concat (group P <$> keys)) = group P k.
Proof.
  intros Hnd Hcover.
  assert (Hone : ∀ k', filter (λ p : ident * ident, p.2 = k) (group P k')
                       = if decide (k' = k) then group P k else []).
  { intros k'. unfold group. rewrite list_filter_filter. case_decide as E.
    - subst k'. apply list_filter_iff. tauto.
    - apply filter_none. intros p _ [? ?]. congruence. }
  assert (Hgen : ∀ ks, NoDup ks →
            filter (λ p : ident * ident, p.2 = k) (concat (group P <$> ks))
            = if decide (k ∈ ks) then group P k else []).
  { clear Hnd Hcover. induction ks as [|k' ks IH]; intros Hnd.
    - cbn. by rewrite decide_False by apply not_elem_of_nil.
    - apply NoDup_cons in Hnd as [Hk' Hnd]. cbn.
      rewrite filter_app, Hone, IH by done.
      destruct (decide (k' = k)) as [->|Hne].
      + rewrite (decide_True (P := k ∈ k :: ks)) by (by left).
        rewrite (decide_False (P := k ∈ ks)) by done.
        by rewrite app_nil_r.
      + destruct (decide (k ∈ ks)).
        * by rewrite (decide_True (P := k ∈ k' :: ks)) by (by right).
        * rewrite (decide_False (P := k ∈ k' :: ks)); [done|].
          by intros [->|?]%elem_of_cons. }
  rewrite Hgen by done. case_decide as Hk; [done|].
  symmetry. apply filter_none. intros p Hp Hpk. apply Hk.
  rewrite <-Hpk. by apply Hcover.
Qed.

Lemma zip_concat {A B C} (f : C → list A) (g : C → list B) (ks : list C) :
  (∀ k, k ∈ ks → length (f k) = length (g k)) →
  zip (concat (f <$> ks)) (concat (g <$> ks))
  = concat ((λ k, zip (f k) (g k)) <$> ks).
Proof.
  induction ks as [|k ks IH]; intros Hlen; [done|]. cbn.
  rewrite zip_with_app by (apply Hlen; by left).
  rewrite IH; [done|]. intros k' Hk'. apply Hlen. by right.
Qed.


Section ordering_more.
Context `{NumLib}.

Lemma index_facts x labs0 sids0 fids d metric nprocs σ self σ' :
  SingleLabelClassifiedSamples_init x labs0 sids0 fids d metric nprocs σ
  = (OK self, σ') →
  NoDup (sids self) ∧ length (sids self) = length (_labs self)
  ∧ _labs self ≠ []
  ∧ _sid_lut self = build_sid_lut (sids self) (_labs self).
Proof.
  intros Hinit.
  apply SingleLabelClassifiedSamples_init_OK in Hinit
    as ((Hne & Hhom & Hnd) & (l0 & -> & Hl0 & Hh0 & Hlabs) & Hlen & Hsl & _).
  split_and!; [done..| |done].
  intros E. apply (f_equal length) in Hlabs.
  rewrite homogeneous_ids_length, E in Hlabs by done. by destruct l0.
Qed.

End ordering_more.

(** What [lab_sorted_sids] returns, from the facts construction establishes:
    the blocks of the labels, in ascending order of the labels without a
    reference order and in a rearranged order with one. *)
Lemma lab_sorted_sids_run (self : SingleLabelClassifiedSamples) (ref_sid_order : pyobj) :
  let S := sids self in
  let Lb := _labs self in
  let P := zip S Lb in
  let R := np_array_ids (py_list_items ref_sid_order) in
  NoDup S → length S = length Lb → Lb ≠ [] →
  _sid_lut self = build_sid_lut S Lb →
  ref_sid_order = PyNone
  ∨ (check_is_valid_sfids ref_sid_order = OK () ∧ ∀ s, s ∈ S → s ∈ R) →
  ∃ keys' B',
    keys' ≡ₚ np_unique Lb
    ∧ (ref_sid_order = PyNone →
       keys' = np_unique Lb ∧ B' = λ k, (group P k).*1)
    ∧ (ref_sid_order ≠ PyNone →
       NoDup R ∧ B' = λ k, sort_flat_sids (group P k).*1 R)
    ∧ (∀ k, k ∈ keys' → B' k ≡ₚ (group P k).*1)
    ∧ lab_sorted_sids self ref_sid_order
      = OK (concat (B' <$> keys'),
            concat ((λ k, replicate (length (group P k)) k) <$> keys')).
Proof.
  intros S Lb P R Hnd Hlen HLb Hsl Href.
  assert (HS : P.*1 = S) by (apply fst_zip; lia).
  assert (HL : P.*2 = Lb) by (apply snd_zip; lia).
  destruct (sid_lut_keys S Lb) as [Hkeys Hkeys_in].
  pose proof (sid_lut_keys_unique S Lb) as Hku.
  rewrite Hku in Hkeys, Hkeys_in.
  set (keys := np_unique Lb) in *.
  assert (Hcover : ∀ p, p ∈ P → p.2 ∈ keys).
  { intros p Hp. apply Hkeys_in. rewrite <-HL. by apply list_elem_of_fmap_2. }
  assert (Hgroup : ∀ k, k ∈ keys → group P k ≠ []).
  { intros k Hk%Hkeys_in. rewrite <-HL in Hk.
    apply list_elem_of_fmap in Hk as (p & -> & Hp). intros E.
    assert (Hin : p ∈ group P p.2) by (by apply list_elem_of_filter).
    rewrite E in Hin. by apply not_elem_of_nil in Hin. }
  assert (Hkeys_ne : keys ≠ []).
  { destruct Lb as [|b Lb'] eqn:E; [done|].
    intros E'. assert (Hb : b ∈ keys) by (apply Hkeys_in; by left).
    rewrite E' in Hb. by apply not_elem_of_nil in Hb. }
  assert (Hsep : ∃ keys' B',
    keys' ≡ₚ keys
    ∧ (ref_sid_order = PyNone → keys' = keys ∧ B' = λ k, (group P k).*1)
    ∧ (ref_sid_order ≠ PyNone →
       NoDup R ∧ B' = λ k, sort_flat_sids (group P k).*1 R)
    ∧ (∀ k, k ∈ keys' → B' k ≡ₚ (group P k).*1)
    ∧ lab_sorted_sids self ref_sid_order
      = (lab_sorted_sid_arr ← np_concatenate (B' <$> keys');
         lab_sorted_lab_arr ←
           np_concatenate ((λ k, replicate (length (group P k)) k) <$> keys');
         assert_array_equal (np_sort lab_sorted_sid_arr) (np_sort S);;
         assert_array_equal (np_sort lab_sorted_lab_arr) (np_sort Lb);;
         by_out ← fancy_index lab_sorted_lab_arr (argsort lab_sorted_sid_arr);
         by_self ← fancy_index Lb (argsort S);
         assert_array_equal by_out by_self;;
         OK (lab_sorted_sid_arr, lab_sorted_lab_arr))).
  { unfold lab_sorted_sids. cbv zeta. rewrite Hsl. fold S Lb. rewrite Hku.
    fold keys.
    assert (HBB : (λ iter_lab, default [] (build_sid_lut S Lb !! iter_lab)) <$> keys
                  = (λ k, (group P k).*1) <$> keys).
    { apply fmap_ext_in. intros k Hk%Hkeys_in. by apply sid_lut_bucket. }
    assert (HLL : (λ iter_lab,
                     replicate (length (default [] (build_sid_lut S Lb !! iter_lab)))
                       iter_lab) <$> keys
                  = (λ k, replicate (length (group P k)) k) <$> keys).
    { apply fmap_ext_in. intros k Hk%Hkeys_in.
      by rewrite sid_lut_bucket, length_fmap. }
    rewrite HBB, HLL.
    destruct Href as [->|[Hcheck Hsub]].
    - exists keys, (λ k, (group P k).*1). split_and!; done.
    - pose proof (proj1 (check_is_valid_sfids_iff _) Hcheck)
        as (l & -> & _ & Hh & HndR).
      cbn [py_list_items] in *. rewrite Hcheck. cbn [mbind result_bind].
      assert (HR : NoDup R) by (done).
      destruct (reorder_by_reference P keys R) as (keys' & Hkeys' & Heq).
      + by rewrite HS.
      + done.
      + done.
      + done.
      + intros s Hs. apply Hsub. by rewrite <-HS.
      + cbv zeta in Heq. cbn [mbind result_bind] in Heq |- *.
        fold R. rewrite Heq. cbn [mbind result_bind fst snd].
        exists keys', (λ k, sort_flat_sids (group P k).*1 R).
        split_and!; [done|done|done| |done].
        intros k Hk. apply sort_flat_sids_Permutation.
        * apply group_fst_NoDup. by rewrite HS.
        * done.
        * intros s Hs%elem_of_group_fst. apply Hsub. rewrite <-HS.
          by apply (list_elem_of_fmap_2 fst) in Hs. }
  destruct Hsep as (keys' & B' & Hkeys' & Hnone & Hsome & HB' & ->).
  destruct (buckets_Permutation P keys' B') as (Q & HQ & HQ1 & HQ2).
  { by rewrite Hkeys'. }
  { intros p Hp. rewrite Hkeys'. by apply Hcover. }
  { done. }
  assert (Hkeys'_ne : keys' ≠ []).
  { intros E. rewrite E in Hkeys'. by apply Permutation_nil_l in Hkeys'. }
  exists keys', B'. split_and!; [done..|].
  rewrite !np_concatenate_OK by (by intros ?%fmap_nil_inv).
  cbn [mbind result_bind]. rewrite <-HQ1, <-HQ2.
  by apply lab_sorted_checks.
Qed.



Section ordering_more_theorems.
Context `{NumLib}.

(** X18: without a reference order [lab_sorted_sids] is a stable sort by
    label of the samples of a constructed index: it returns, the returned
    labels ascend, and the (sample id, label) pairs of every label come out
    in the order the index holds them. *)
Theorem lab_sorted_sids_stable x labs0 sids0 fids d metric nprocs σ self σ' :
  SingleLabelClassifiedSamples_init x labs0 sids0 fids d metric nprocs σ
  = (OK self, σ') →
  ∃ out_sids out_labs,
    lab_sorted_sids self PyNone = OK (out_sids, out_labs)
    ∧ StronglySorted ident_le out_labs
    ∧ ∀ k, filter (λ p, p.2 = k) (zip out_sids out_labs)
           = filter (λ p, p.2 = k) (zip (sids self) (labs self)).
Proof.
  intros (Hnd & Hlen & HLb & Hsl)%index_facts. unfold labs.
  destruct (lab_sorted_sids_run self PyNone Hnd Hlen HLb Hsl)
    as (keys' & B' & _ & Hnone & _ & _ & Hrun); [by left|].
  destruct (Hnone eq_refl) as [-> ->]. clear Hnone.
  set (P := zip (sids self) (_labs self)) in *.
  eexists _, _. split_and!; [exact Hrun| |].
  - apply replicate_runs_sorted, np_unique_StronglySorted.
  - intros k. rewrite zip_concat
      by (intros k' _; by rewrite length_replicate, length_fmap).
    assert (Hg : (λ k0, zip (group P k0).*1
                          (replicate (length (group P k0)) k0))
                   <$> np_unique (_labs self)
                 = group P <$> np_unique (_labs self)).
    { apply fmap_ext_in. intros k' _. cbn.
      rewrite <-(length_fmap fst (group P k')), zip_replicate.
      apply group_pairs. }
    rewrite Hg. apply filter_group_concat; [apply NoDup_np_unique|].
    intros p Hp. apply elem_of_np_unique.
    assert (HL : P.*2 = _labs self) by (apply snd_zip; lia).
    rewrite <-HL. by apply list_elem_of_fmap_2.
Qed.



End ordering_more_theorems.

(** ** The colour tables of [labs_to_cmap] *)

Lemma fst_zip_take {A B} (l : list A) (k : list B) :
  (zip l k).*1 = take (length k) l.
Proof.
  revert k. induction l as [|x l IH]; intros [|y k]; try done.
  cbn. by rewrite IH.
Qed.

Lemma py_dict_lookup `{Countable K} {V} (ks : list K) (vs : list V) j k :
  NoDup ks → ks !! j = Some k → py_dict (zip ks vs) !! k = vs !! j.
Proof.
  intros Hnd Hj. destruct (vs !! j) as [v|] eqn:Hv.
  - apply foldl_insert_pairs_lookup.
    + rewrite fst_zip_take. eapply sublist_NoDup; [done|apply sublist_take].
    + apply elem_of_lookup_zip_with. by exists j, k, v.
  - destruct (py_dict (zip ks vs) !! k) as [v|] eqn:E; [exfalso|done].
    apply foldl_insert_pairs_lookup_inv in E.
    apply elem_of_lookup_zip_with in E as (i & k' & v' & [= <- <-] & Hi & Hv').
    assert (i = j) as -> by (by eapply NoDup_lookup).
    congruence.
Qed.

Lemma py_dict_seq_lookup {V} (vs : list V) j :
  py_dict (zip (seq 0 (length vs)) vs) !! j = vs !! j.
Proof.
  destruct (vs !! j) as [v|] eqn:Hv.
  - rewrite <-Hv. apply (py_dict_lookup _ _ j); [apply NoDup_seq|].
    apply lookup_seq. split; [done|]. by apply lookup_lt_Some in Hv.
  - destruct (py_dict _ !! j) as [v|] eqn:E; [exfalso|done].
    apply foldl_insert_pairs_lookup_inv in E.
    apply elem_of_lookup_zip_with in E as (i & k' & v' & [= <- <-] & Hi & Hv').
    apply lookup_seq in Hi as [-> _]. cbn in Hv. congruence.
Qed.

Section colour_tables.
Context `{NumLib}.

(** X21: for a constructed index and any palette, [labs_to_cmap] returns;
    the colour map holds the palette asked for as many colours as there are
    distinct labels; with [return_lut] the index array gives, for every
    sample, the position of its label among the sorted distinct labels,
    [uniq_lab_lut] maps a position back to that label, and [lab_col_lut]
    maps a label to the palette colour at its position. *)
Theorem labs_to_cmap_tables {C} (hls_palette : nat → list C)
    x labs0 sids0 fids d metric nprocs σ self σ' :
  SingleLabelClassifiedSamples_init x labs0 sids0 fids d metric nprocs σ
  = (OK self, σ') →
  let uniq := np_unique (labs self) in
  let lab_cmap := Build_ListedColormap (hls_palette (length uniq)) in
  ∃ lab_ind_arr lab_col_lut uniq_lab_lut,
    labs_to_cmap hls_palette self true
    = OK (CmapLuts lab_cmap lab_ind_arr lab_col_lut uniq_lab_lut)
    ∧ labs_to_cmap hls_palette self false = OK (CmapOnly lab_cmap)
    ∧ Forall2 (λ l j, uniq !! j = Some l) (labs self) lab_ind_arr
    ∧ (∀ j, uniq_lab_lut !! j = uniq !! j)
    ∧ (∀ j l, uniq !! j = Some l →
         lab_col_lut !! l = hls_palette (length uniq) !! j).
Proof.
  intros _ uniq lab_cmap. unfold labs in *. unfold labs_to_cmap. cbv zeta.
  fold uniq.
  assert (Hnd : NoDup uniq) by apply NoDup_np_unique.
  set (pos := λ l : ident, position uniq l).
  assert (Hpos : ∀ l, l ∈ _labs self → uniq !! pos l = Some l).
  { intros l Hl%elem_of_np_unique. fold uniq in Hl.
    apply list_elem_of_lookup_1 in Hl as [j Hj]. unfold pos.
    by rewrite (position_lookup uniq j l). }
  rewrite (traverse_OK _ pos).
  2:{ intros l Hl. rewrite (py_dict_lookup uniq _ (pos l) l) by auto.
      rewrite (proj2 (lookup_seq 0 (length uniq) (pos l) (pos l))); [done|].
      split; [done|]. eapply lookup_lt_Some, Hpos, Hl. }
  cbn [mbind result_bind].
  rewrite (traverse_OK _ (λ j, nth j uniq (IInt 0))).
  2:{ intros j [_ Hj]%elem_of_seq. rewrite py_dict_seq_lookup.
      destruct (nth_lookup_or_length uniq j (IInt 0)) as [->|]; [done|lia]. }
  cbn [mbind result_bind].
  assert (Hkeys : (λ j, nth j uniq (IInt 0)) <$> seq 0 (length uniq) = uniq).
  { apply list_eq. intros j. rewrite list_lookup_fmap.
    destruct (uniq !! j) as [l|] eqn:Hj.
    - rewrite (proj2 (lookup_seq 0 (length uniq) j j)); cbn.
      + f_equal. by apply nth_lookup_Some.
      + split; [done|]. by apply lookup_lt_Some in Hj.
    - apply lookup_ge_None in Hj. rewrite (proj2 (lookup_ge_None _ _)); [done|].
      by rewrite length_seq. }
  rewrite Hkeys. eexists _, _, _. split_and!; [done|done| | |].
  - apply Forall2_fmap_r, Forall_Forall2_diag, Forall_forall. apply Hpos.
  - apply py_dict_seq_lookup.
  - intros j l Hj. by apply py_dict_lookup.
Qed.

End colour_tables.

(** ** The scenarios and examples at concrete inputs *)

Lemma num_correct_dist_mat_steps_witness :
  (∃ w, num_correct_dist_mat (PyArr 0) None (State [scenario_C] [])
        = (OK (PyArr 0),
           State (<[0 := symmetrize (clamp_upper None
                            (zero_diagonal (clamp_negative scenario_C)))]>
                    [scenario_C]) w))
  ∧ (∀ i j, i < 3 → j < 3 →
       get (symmetrize (clamp_upper None (zero_diagonal (clamp_negative scenario_C)))) i j
       = repaired None (bool_decide (i = j)) (get scenario_C (i `max` j) (i `min` j)))
  ∧ symmetrize (clamp_upper None (zero_diagonal (clamp_negative scenario_C)))
    = scenario_C_code.
Proof.
  apply (num_correct_dist_mat_steps 0 scenario_C 3 None (State [scenario_C] []));
    [reflexivity | split; reflexivity].
Defined.

(** Scenario C as the specification states it does not hold: the entries
    (1, 2) and (2, 1) end as 0.5, not 0. *)
Lemma scenario_C_spec_refuted :
  heap (num_correct_dist_mat (PyArr 0) None (State [scenario_C] [])).2 !! 0
  ≠ Some scenario_C_spec.
Proof.
  intros E.
  apply (f_equal (λ o, match o with
                       | Some a => PrimFloat.eqb (get a 1 2) 0
                       | None => true
                       end)) in E.
  vm_compute in E. discriminate E.
Qed.


Lemma num_correct_dist_mat_in_place_witness :
  ∃ σ', num_correct_dist_mat (PyArr 0) (Some 1%float) (State [scenario_C] [])
        = (OK (PyArr 0), σ')
        ∧ heap σ' !! 0 = Some (corrected scenario_C (Some 1%float))
        ∧ length (heap σ') = 1
        ∧ ∀ l', l' ≠ 0 → heap σ' !! l' = [scenario_C] !! l'.
Proof.
  apply (num_correct_dist_mat_in_place 0 scenario_C (Some 1%float)
           (State [scenario_C] [])); reflexivity.
Defined.

Lemma lab_sorted_sids_scenarios_witness :
  ∃ self,
    index_of labs_aba = OK self
    ∧ lab_sorted_sids self PyNone
      = OK ([IStr "s1"; IStr "s3"; IStr "s2"], [IStr "a"; IStr "a"; IStr "b"])
    ∧ lab_sorted_sids self ref_321
      = OK ([IStr "s3"; IStr "s1"; IStr "s2"], [IStr "a"; IStr "a"; IStr "b"])
    ∧ (λ iter_lab, sort_flat_sids (default [] (_sid_lut self !! iter_lab))
                     (np_array_ids (py_list_items ref_321)))
        <$> np_sort (map_to_list (_sid_lut self)).*1
      = [[IStr "s3"; IStr "s1"]; [IStr "s2"]].
Proof.
  eexists. split; [vm_compute; reflexivity|].
  eapply (lab_sorted_sids_scenarios (PyArr 0) PyNone PyNone None None σ0).
  vm_compute. reflexivity.
Defined.

Lemma cross_labs_scenario_witness :
  ∃ self q,
    index_of labs_AAB = OK self ∧ index_of labs_XYX = OK q
    ∧ cross_labs self (ArgSamples q)
      = OK (<[IStr "A" := (2, ([IStr "X"; IStr "Y"], [1; 1]))]>
              (<[IStr "B" := (1, ([IStr "X"], [1]))]> ∅)).
Proof.
  eexists _, _. split_and!; [vm_compute; reflexivity..|].
  eapply (cross_labs_scenario (PyArr 0) PyNone PyNone None None σ0 _ _
            (PyArr 0) PyNone PyNone None None σ0);
    vm_compute; reflexivity.
Defined.

(** Labels that repeat are refused by the identifier validator and accepted
    by the construction. *)
Lemma duplicate_labels_construct :
  check_is_valid_sfids labs_aba
  = Raise (ValueError "[sf]ids must not contain duplicated values")
  ∧ ∃ self, index_of labs_aba = OK self.
Proof. split; [reflexivity|]. eexists. vm_compute. reflexivity. Qed.

(** The identifier validator refuses, as holding duplicated values, lists
    that hold none: the two strings are one element of the array, and the
    integers become float64 values of which two are equal. *)
Lemma duplicate_free_ids_refused :
  (ids_nul_padded ≠ [] ∧ homogeneous_ids ids_nul_padded ∧ NoDup ids_nul_padded
   ∧ check_is_valid_sfids (PyList ids_nul_padded)
     = Raise (ValueError "[sf]ids must not contain duplicated values"))
  ∧ (ids_wide ≠ [] ∧ homogeneous_ids ids_wide ∧ NoDup ids_wide
     ∧ check_is_valid_sfids (PyList ids_wide)
       = Raise (ValueError "[sf]ids must not contain duplicated values")).
Proof.
  split; (split_and!; [done| | |vm_compute; reflexivity]).
  - right. intros x Hx. unfold ids_nul_padded in Hx.
    repeat (apply elem_of_cons in Hx as [->|Hx]; [done|]).
    by apply not_elem_of_nil in Hx.
  - unfold ids_nul_padded.
    repeat (apply NoDup_cons; split;
            [rewrite ?elem_of_cons, elem_of_nil; intros Hin;
             repeat destruct Hin as [Hin|Hin]; try discriminate Hin; done|]).
    apply NoDup_nil_2.
  - left. intros x Hx. unfold ids_wide in Hx.
    repeat (apply elem_of_cons in Hx as [->|Hx]; [done|]).
    by apply not_elem_of_nil in Hx.
  - unfold ids_wide.
    repeat (apply NoDup_cons; split;
            [rewrite ?elem_of_cons, elem_of_nil; intros Hin;
             repeat destruct Hin as [Hin|Hin]; try discriminate Hin; done|]).
    apply NoDup_nil_2.
Qed.

Lemma check_is_valid_sfids_accepts_iff_witness :
  check_is_valid_sfids s123 = OK ().
Proof.
  apply (proj1 (check_is_valid_sfids_accepts_iff s123)).
  exists (py_list_items s123). split_and!; [reflexivity|discriminate| |].
  - right. intros x Hx. cbn in Hx.
    repeat (apply elem_of_cons in Hx as [->|Hx]; [reflexivity|]).
    by apply not_elem_of_nil in Hx.
  - apply (bool_decide_unpack _). vm_compute. exact I.
Defined.

Lemma init_accepts_labels_iff_witness :
  ∃ super σ1,
    SampleDistanceMatrix_init (PyArr 0) PyNone (PyStr "correlation") s123 PyNone
      None σ0 = (OK super, σ1)
    ∧ ((∃ self, SingleLabelClassifiedSamples_init (PyArr 0) labs_aba s123 PyNone
                  PyNone None None σ0 = (OK self, σ1))
       ↔ ∃ l, labs_aba = PyList l ∧ l ≠ [] ∧ homogeneous_ids l
              ∧ length l = length (_sids (sdm_super super))).
Proof.
  eexists _, _. split; [vm_compute; reflexivity|].
  eapply (init_accepts_labels_iff (PyArr 0) labs_aba s123 PyNone PyNone None None σ0).
  vm_compute. reflexivity.
Defined.

Lemma init_metric_defaults_to_correlation_witness :
  (SingleLabelClassifiedSamples_init (PyArr 0) labs_aba s123 PyNone PyNone None
     None σ0).1 ≠ Raise missing_metric
  ∧ ∃ self σ',
      SingleLabelClassifiedSamples_init (PyArr 0) labs_aba s123 PyNone PyNone
        None None σ0 = (OK self, σ')
      ∧ heap σ' = heap σ_features ++ [corrected zeros_3 None]
      ∧ _metric (slcs_super self) = PyStr "correlation"
      ∧ _d (slcs_super self) = PyArr (length (heap σ_features)).
Proof.
  destruct (init_metric_defaults_to_correlation (PyArr 0) labs_aba s123 PyNone
              None σ0) as (Hnot & _ & Hruns).
  { intros h v m n. simpl. destruct v; try discriminate.
    destruct (h !! l); discriminate. }
  split; [exact Hnot|].
  apply (Hruns (features_of ids_123) σ_features zeros_3);
    [vm_compute; reflexivity | reflexivity | reflexivity | reflexivity
    | vm_compute; reflexivity | reflexivity].
Defined.


Lemma labs_to_sids_then_sids_to_labs_witness :
  ∃ self σ',
    SingleLabelClassifiedSamples_init (PyArr 0) labs_aba s123 PyNone PyNone None
      None σ0 = (OK self, σ')
    ∧ ∃ ids, labs_to_sids self [IStr "a"] = OK [ids]
             ∧ sids_to_labs self ids = OK (replicate (length ids) (IStr "a"))
             ∧ length ids = count_of (IStr "a") (labs self)
             ∧ ∀ s, s ∈ ids ↔ (s, IStr "a") ∈ zip (sids self) (labs self).
Proof.
  eexists _, _. split; [vm_compute; reflexivity|].
  eapply (labs_to_sids_then_sids_to_labs (PyArr 0) labs_aba s123 PyNone PyNone
            None None σ0).
  - vm_compute. reflexivity.
  - apply (bool_decide_unpack _). vm_compute. exact I.
Defined.

(** ** The constructions on the three samples *)

Lemma features_of_built :
  SampleFeatureMatrix_init (PyArr 0) s123 PyNone σ0
  = (OK (features_of ids_123), σ_features).
Proof. vm_compute. reflexivity. Qed.

Lemma distances_of_built :
  SampleDistanceMatrix_init (PyArr 0) PyNone (PyStr "correlation") s123 PyNone
    None σ0
  = (OK (distances_of ids_123), σ_built).
Proof. vm_compute. reflexivity. Qed.

Lemma index_aba_built :
  SingleLabelClassifiedSamples_init (PyArr 0) labs_aba s123 PyNone PyNone None
    None σ0
  = (OK index_aba, σ_built).
Proof. vm_compute. reflexivity. Qed.



Lemma index_rows_built :
  SingleLabelClassifiedSamples_init (PyArr 0) labs_aba PyNone PyNone PyNone None
    None σ0
  = (OK index_rows, σ_built).
Proof. vm_compute. reflexivity. Qed.

(** ** The further properties at concrete inputs *)

Lemma num_correct_dist_mat_refuses_witness :
  num_correct_dist_mat (PyArr 0) None σ0
  = (Raise (ValueError "dmat must be a 2D (n_samples, n_samples) np array"), σ0).
Proof.
  apply (num_correct_dist_mat_refuses (PyArr 0) None σ0).
  intros l a [= <-] [= <-]. right. vm_compute. lia.
Defined.

Lemma num_correct_dist_mat_bounds_witness :
  ∃ σ' r, num_correct_dist_mat (PyArr 0) (Some 1%float) (State [scenario_C] [])
          = (OK (PyArr 0), σ')
          ∧ heap σ' !! 0 = Some r
          ∧ (PrimFloat.ltb 1 0 = false →
             ∀ i j, i < 3 → j < 3 → PrimFloat.ltb (get r i j) 0 = false)
          ∧ ∀ u, Some 1%float = Some u →
              ∀ i j, i < 3 → j < 3 → PrimFloat.ltb u (get r i j) = false.
Proof.
  apply (num_correct_dist_mat_bounds 0 scenario_C 3 (Some 1%float)
           (State [scenario_C] []));
    [reflexivity | split; reflexivity].
Defined.

Lemma num_correct_dist_mat_negative_bound_witness :
  ∃ σ' r, num_correct_dist_mat (PyArr 0) (Some (-1)%float) (State [scenario_C] [])
          = (OK (PyArr 0), σ')
          ∧ heap σ' !! 0 = Some r
          ∧ ∀ i, i < 3 → get r i i = (-1)%float.
Proof.
  apply (num_correct_dist_mat_negative_bound 0 scenario_C 3 (-1)%float
           (State [scenario_C] []));
    [reflexivity | split; reflexivity | reflexivity].
Defined.

Lemma num_correct_dist_mat_twice_witness :
  ∃ σ1 σ2,
    num_correct_dist_mat (PyArr 0) (Some 1%float) (State [scenario_C] [])
    = (OK (PyArr 0), σ1)
    ∧ num_correct_dist_mat (PyArr 0) (Some 1%float) σ1 = (OK (PyArr 0), σ2)
    ∧ heap σ2 = heap σ1.
Proof.
  apply (num_correct_dist_mat_twice 0 scenario_C 3 (Some 1%float)
           (State [scenario_C] []));
    [reflexivity | split; reflexivity].
Defined.

Lemma SampleFeatureMatrix_init_stores_witness :
  SampleFeatureMatrix_init (PyArr 0) s123 PyNone σ0
  = (OK (features_of ids_123), σ_features)
  ∧ ∃ xa, np_array_float64 (heap σ0) (PyArr 0) = OK xa
          ∧ σ_features = State (heap σ0 ++ [xa]) (warnings σ0)
          ∧ _x (features_of ids_123) = length (heap σ0)
          ∧ ndim xa = 2 ∧ size xa ≠ 0
          ∧ valid_ids (_sids (features_of ids_123))
          ∧ length (_sids (features_of ids_123)) = shape0 xa
          ∧ valid_ids (_fids (features_of ids_123))
          ∧ length (_fids (features_of ids_123)) = shape1 xa.
Proof.
  split; [exact features_of_built|].
  eapply SampleFeatureMatrix_init_stores. exact features_of_built.
Defined.

Lemma SampleFeatureMatrix_init_ids_witness :
  SampleFeatureMatrix_init (PyArr 0) s123 PyNone σ0
  = (OK (features_of ids_123), σ_features)
  ∧ ident_to_py <$> _sids (features_of ids_123) = py_list_items s123
  ∧ _fids (features_of ids_123)
    = range_ids (length (_fids (features_of ids_123))).
Proof.
  split; [exact features_of_built|].
  destruct (SampleFeatureMatrix_init_ids _ _ _ _ _ _ features_of_built)
    as (_ & Hs & Hf & _).
  split; [|apply Hf; reflexivity].
  destruct Hs as [_ Hs]; [discriminate|]. apply Hs. repeat constructor.
Defined.

Lemma SampleFeatureMatrix_init_sids_mismatch_witness :
  SampleFeatureMatrix_init (PyArr 0) s12 PyNone σ0
  = (Raise (ValueError "x has shape (n_samples, n_features)"),
     State (heap σ0 ++ [three_by_one]) (warnings σ0)).
Proof.
  apply (SampleFeatureMatrix_init_sids_mismatch (PyArr 0) s12 PyNone σ0
           three_by_one [PyStr "s1"; PyStr "s2"]);
    [discriminate | reflexivity | reflexivity | vm_compute; lia | reflexivity
    | vm_compute; reflexivity | vm_compute; lia].
Defined.

Lemma SampleDistanceMatrix_init_stores_witness :
  SampleDistanceMatrix_init (PyArr 0) PyNone (PyStr "correlation") s123 PyNone
    None σ0
  = (OK (distances_of ids_123), σ_built)
  ∧ ∃ xa da,
      heap σ_built = heap σ0 ++ [xa; corrected da None]
      ∧ _x (sdm_super (distances_of ids_123)) = length (heap σ0)
      ∧ _d (distances_of ids_123) = PyArr (S (length (heap σ0)))
      ∧ ndim da = 2 ∧ shape0 da = shape1 da
      ∧ _metric (distances_of ids_123) = PyStr "correlation"
      ∧ _tsne_lut (distances_of ids_123) = ∅
      ∧ (PyNone ≠ PyNone →
         np_array_float64 (heap σ0 ++ [xa]) PyNone = OK da
         ∧ shape0 da = length (_sids (sdm_super (distances_of ids_123))))
      ∧ (PyNone = PyNone →
         ∃ m, PyStr "correlation" = PyStr m
              ∧ pairwise_distances (heap σ0 ++ [xa]) (PyArr 0) m 1%Z = OK da).
Proof.
  split; [exact distances_of_built|].
  eapply (SampleDistanceMatrix_init_stores (PyArr 0) PyNone (PyStr "correlation")
            s123 PyNone None σ0).
  exact distances_of_built.
Defined.

Lemma init_metric_refused_witness :
  SampleFeatureMatrix_init (PyArr 0) s123 PyNone σ0
  = (OK (features_of ids_123), σ_features)
  ∧ SampleDistanceMatrix_init (PyArr 0) PyNone PyNone s123 PyNone None σ0
    = (Raise missing_metric, σ_features)
  ∧ SingleLabelClassifiedSamples_init (PyArr 0) labs_aba s123 PyNone PyNone
      (Some PyNone) None σ0
    = (Raise missing_metric, σ_features).
Proof.
  split; [exact features_of_built|].
  apply (init_metric_refused (PyArr 0) labs_aba s123 PyNone PyNone None σ0
           (features_of ids_123) σ_features features_of_built).
  intros m. discriminate.
Defined.

Lemma SampleDistanceMatrix_init_d_shape_witness :
  SampleDistanceMatrix_init (PyArr 0) (PyArr 0) (PyStr "euclidean") s123 PyNone
    None σ0
  = (Raise (ValueError "d should have shape (n_samples, n_samples)"),
     State (heap σ_features ++ [three_by_one]) (warnings σ_features)).
Proof.
  apply (SampleDistanceMatrix_init_d_shape (PyArr 0) (PyArr 0) (PyStr "euclidean")
           s123 PyNone None σ0 (features_of ids_123) σ_features three_by_one
           features_of_built);
    [discriminate | reflexivity | right; left; vm_compute; lia].
Defined.

Lemma SampleDistanceMatrix_d_is_copy_witness :
  ∃ l a σ1 σ2,
    _d (distances_of ids_123) = PyArr l ∧ heap σ_built !! l = Some a
    ∧ SampleDistanceMatrix_d (distances_of ids_123) σ_built
      = (OK (PyArr (length (heap σ_built))), σ1)
    ∧ heap σ1 = heap σ_built ++ [a]
    ∧ num_correct_dist_mat (PyArr (length (heap σ_built))) (Some 1%float) σ1
      = (OK (PyArr (length (heap σ_built))), σ2)
    ∧ heap σ2 !! l = Some a.
Proof.
  eapply (SampleDistanceMatrix_d_is_copy (PyArr 0) PyNone (PyStr "correlation")
            s123 PyNone None σ0).
  exact distances_of_built.
Defined.

Lemma lookup_tables_consistent_witness :
  (∀ s l, _lab_lut index_aba !! s = Some l
          ↔ (s, l) ∈ zip (sids index_aba) (labs index_aba))
  ∧ (∀ l ids, _sid_lut index_aba !! l = Some ids →
       ids ≠ [] ∧ ∀ s, s ∈ ids ↔ _lab_lut index_aba !! s = Some l)
  ∧ (∀ l, is_Some (_sid_lut index_aba !! l) ↔ l ∈ labs index_aba).
Proof. eapply lookup_tables_consistent. exact index_aba_built. Defined.

Lemma lookups_unknown_key_witness :
  labs_to_sids index_aba [IStr "a"; IStr "z"] = Raise KeyError
  ∧ sids_to_labs index_aba [IStr "s9"] = Raise KeyError.
Proof.
  destruct (lookups_unknown_key _ _ _ _ _ _ _ _ _ _
              [IStr "a"; IStr "z"] [IStr "s9"] index_aba_built) as [Hl Hs].
  split.
  - apply Hl. exists (IStr "z").
    split; apply (bool_decide_unpack _); vm_compute; exact I.
  - apply Hs. exists (IStr "s9").
    split; apply (bool_decide_unpack _); vm_compute; exact I.
Defined.

Lemma sids_to_labs_all_witness :
  sids_to_labs index_aba (sids index_aba) = OK (labs index_aba).
Proof. eapply sids_to_labs_all. exact index_aba_built. Defined.

Lemma filter_min_class_n_keeps_witness :
  let kept := filter (λ p, (2 ≤ Z.of_nat (count_of p.2 (labs index_aba)))%Z)
                (zip (sids index_aba) (labs index_aba)) in
  filter_min_class_n index_aba 2 = (kept.*1, kept.*2)
  ∧ ((2 ≤ 1)%Z → filter_min_class_n index_aba 2 = (sids index_aba, labs index_aba)).
Proof. eapply filter_min_class_n_keeps. exact index_aba_built. Defined.

Lemma cross_labs_refuses_witness :
  cross_labs index_aba (ArgOther PyNone)
  = Raise (TypeError "Query should be an instance of SingleLabelClassifiedSamples")
  ∧ cross_labs index_aba (ArgSamples index_rows)
    = Raise (ValueError "query sid {} is not in ref sids.").
Proof.
  destruct (cross_labs_refuses _ _ _ _ _ _ _ _ _ _ index_rows PyNone
              index_aba_built) as [Ht Hv].
  split; [exact Ht|]. apply Hv. exists (IInt 0).
  split; apply (bool_decide_unpack _); vm_compute; exact I.
Defined.


Lemma lab_sorted_sids_stable_witness :
  ∃ out_sids out_labs,
    lab_sorted_sids index_aba PyNone = OK (out_sids, out_labs)
    ∧ StronglySorted ident_le out_labs
    ∧ ∀ k, filter (λ p, p.2 = k) (zip out_sids out_labs)
           = filter (λ p, p.2 = k) (zip (sids index_aba) (labs index_aba)).
Proof. eapply lab_sorted_sids_stable. exact index_aba_built. Defined.



Lemma labs_to_cmap_tables_witness :
  let uniq := np_unique (labs index_aba) in
  let lab_cmap := Build_ListedColormap (seq 0 (length uniq)) in
  ∃ lab_ind_arr lab_col_lut uniq_lab_lut,
    labs_to_cmap (seq 0) index_aba true
    = OK (CmapLuts lab_cmap lab_ind_arr lab_col_lut uniq_lab_lut)
    ∧ labs_to_cmap (seq 0) index_aba false = OK (CmapOnly lab_cmap)
    ∧ Forall2 (λ l j, uniq !! j = Some l) (labs index_aba) lab_ind_arr
    ∧ (∀ j, uniq_lab_lut !! j = uniq !! j)
    ∧ (∀ j l, uniq !! j = Some l →
         lab_col_lut !! l = seq 0 (length uniq) !! j).
Proof. eapply (labs_to_cmap_tables (seq 0)). exact index_aba_built. Defined.
